(** * pcp: Prompt Composition Processor -- a shallow embedding of the
    composition engine (types.go, parser.go, processor.go, main.go).

    The engine is embedded as executable Rocq functions.  The process
    environment (working directory, file system, YAML decoder, shell) is an
    explicit [World]; the mutable [ProcessingContext] is threaded through a
    small state-and-error monad that also logs the effects of a run
    (file reads, commands, diagnostics, output) in the order they happen. *)

From Stdlib Require Import ZArith List Ascii Lia.
From stdpp Require Import gmap strings pretty.

Open Scope Z_scope.

(* ===================================================================== *)
(** * Strings *)
(* ===================================================================== *)

Module Str.

Definition newline : ascii := Ascii.ascii_of_nat 10.
Definition slash : ascii := Ascii.ascii_of_nat 47.

Definition nl : string := String newline EmptyString.

Definition is_empty (s : string) : bool :=
  match s with EmptyString => true | String _ _ => false end.

(** [strings.HasPrefix]. *)
Definition HasPrefix (s p : string) : bool := String.prefix p s.

(** [strings.Join]. *)
Fixpoint Join (elems : list string) (sep : string) : string :=
  match elems with
  | [] => ""
  | [e] => e
  | e :: rest => e +:+ sep +:+ Join rest sep
  end.

(** [strings.Split(s, "/")]: the pieces between the separators. *)
Fixpoint SplitSlash (s : string) : list string :=
  match s with
  | EmptyString => [""]
  | String c r =>
      if Ascii.eqb c slash then "" :: SplitSlash r
      else match SplitSlash r with
           | h :: t => String c h :: t
           | [] => [String c ""]
           end
  end.

(** [unicode.IsSpace] on the ASCII range, as the fast path of
    [strings.Fields] has it: tab, line feed, vertical tab, form feed,
    carriage return, space.  The spaces outside ASCII (U+0085, U+00A0 and
    the like, several bytes long in UTF-8) are not modelled: their bytes
    count as parts of words. *)
Definition isSpace (c : ascii) : bool :=
  let n := Ascii.nat_of_ascii c in
  (Nat.leb 9 n && Nat.leb n 13) || Nat.eqb n 32.

(** [strings.Fields]: the maximal runs of non-space bytes. *)
Fixpoint Fields (s : string) : list string :=
  match s with
  | EmptyString => []
  | String c r =>
      if isSpace c then Fields r
      else match r with
           | EmptyString => [String c ""]
           | String c' _ =>
               if isSpace c' then String c "" :: Fields r
               else match Fields r with
                    | h :: t => String c h :: t
                    | [] => [String c ""]
                    end
           end
  end.

(** [strings.TrimLeft(s, "\n")]. *)
Fixpoint TrimLeftNl (s : string) : string :=
  match s with
  | EmptyString => ""
  | String c r => if Ascii.eqb c newline then TrimLeftNl r else s
  end.

(** [strings.TrimRight(s, "\n")]. *)
Fixpoint TrimRightNl (s : string) : string :=
  match s with
  | EmptyString => ""
  | String c r =>
      match TrimRightNl r with
      | EmptyString => if Ascii.eqb c newline then "" else String c ""
      | r' => String c r'
      end
  end.

(** The first [n] bytes of [s]. *)
Fixpoint take (n : nat) (s : string) : string :=
  match n, s with
  | S n', String c r => String c (take n' r)
  | _, _ => ""
  end.

Fixpoint existsb (f : ascii -> bool) (s : string) : bool :=
  match s with
  | EmptyString => false
  | String c r => f c || existsb f r
  end.

(** [s] ends with a line feed that no other line feed precedes. *)
Fixpoint endsWithOneNewline (s : string) : bool :=
  match s with
  | EmptyString => false
  | String c EmptyString => Ascii.eqb c newline
  | String c (String d EmptyString) =>
      negb (Ascii.eqb c newline) && Ascii.eqb d newline
  | String _ r => endsWithOneNewline r
  end.

End Str.

(* ===================================================================== *)
(** * Go's [path/filepath] on Unix

    [filepath] is Go's standard library, not code of this repository; the
    functions below follow its documented, purely lexical behaviour. *)
(* ===================================================================== *)

Module filepath.

(** [filepath.IsAbs]: the path starts with the separator. *)
Definition IsAbs (path : string) : bool := Str.HasPrefix path "/".

(** One step of [Clean] over the path elements; [stack] holds the
    elements kept so far, last first. *)
Definition cleanStep (rooted : bool) (stack : list string) (c : string)
  : list string :=
  if String.eqb c "" || String.eqb c "." then stack
  else if String.eqb c ".." then
    match stack with
    | top :: rest => if String.eqb top ".." then c :: stack else rest
    | [] => if rooted then [] else [c]
    end
  else c :: stack.

(** [filepath.Clean]: drop empty and [.] elements, resolve inner [..],
    drop [..] at the root; the empty result is [.]. *)
Definition Clean (path : string) : string :=
  if Str.is_empty path then "."
  else
    let rooted := IsAbs path in
    let elems := rev (fold_left (cleanStep rooted) (Str.SplitSlash path) []) in
    if rooted then "/" +:+ Str.Join elems "/"
    else match elems with
         | [] => "."
         | _ => Str.Join elems "/"
         end.

(** [filepath.Join] of two elements: empty elements before the first
    non-empty one are ignored, the result is cleaned. *)
Definition Join (a b : string) : string :=
  if negb (Str.is_empty a) then Clean (a +:+ "/" +:+ b)
  else if negb (Str.is_empty b) then Clean b
  else "".

(** The longest prefix of [s] that ends with a separator. *)
Fixpoint dirPrefix (s : string) : string :=
  match s with
  | EmptyString => ""
  | String c r =>
      match dirPrefix r with
      | EmptyString => if Ascii.eqb c Str.slash then "/" else ""
      | d => String c d
      end
  end.

(** [filepath.Dir]: all but the last element, cleaned. *)
Definition Dir (path : string) : string := Clean (dirPrefix path).

(** [filepath.Abs] with the working directory [cwd]. *)
Definition Abs (cwd path : string) : string :=
  if IsAbs path then Clean path else Join cwd path.

End filepath.

(* ===================================================================== *)
(** * errors.go and the errors built with [fmt.Errorf] *)
(* ===================================================================== *)

Inductive Error : Type :=
| ErrOperationEmpty
| ErrOperationMultiple
| ErrInvalidYAML (File : string) (Err : string)
| ErrFileNotFound (File : string)
| ErrBinaryFile (File : string)
| ErrCircularReference (File : string) (Path : list string)
| ErrCommandFailed (Command : string) (Err : string)
| ErrWordLimitExceeded (Current Limit : Z)
| ErrMissingPromptKey                          (* "missing required 'prompt' key" *)
| ErrOperationIndex (i : nat) (inner : Error)  (* "operation %d: %w" *)
| ErrValidationFailed (File : string) (inner : Error) (* "validation failed for %s: %w" *)
| ErrReadFailed (File : string) (Err : string) (* "failed to read file %s: %w" *)
| ErrWriteFailed (File : string) (Err : string) (* "failed to write output file %s: %w" *)
| ErrUnknownOperationType.                     (* "unknown operation type" *)

Inductive Result (A : Type) : Type :=
| Ok (a : A)
| Err (e : Error).
Arguments Ok {A} a.
Arguments Err {A} e.

(* ===================================================================== *)
(** * types.go *)
(* ===================================================================== *)

Inductive OperationType : Type := FileOp | PromptOp | CommandOp | TextOp.

(** [Operation]: four optional fields, [None] for a nil pointer. *)
Record Operation : Type := mkOperation {
  File : option string;
  Prompt : option string;
  Command : option string;
  Text : option string
}.

(** [PromptFile]; its field [Prompt] is named [PromptList] here, [None] for
    the nil slice. *)
Record PromptFile : Type := mkPromptFile {
  PromptList : option (list Operation)
}.

Definition is_set {A} (o : option A) : bool :=
  match o with Some _ => true | None => false end.

Definition GetType (op : Operation) : Result OperationType :=
  let count := 0%nat in
  let opType := FileOp in
  let '(count, opType) :=
    if is_set (File op) then (S count, FileOp) else (count, opType) in
  let '(count, opType) :=
    if is_set (Prompt op) then (S count, PromptOp) else (count, opType) in
  let '(count, opType) :=
    if is_set (Command op) then (S count, CommandOp) else (count, opType) in
  let '(count, opType) :=
    if is_set (Text op) then (S count, TextOp) else (count, opType) in
  if Nat.eqb count 0 then Err ErrOperationEmpty
  else if Nat.ltb 1 count then Err ErrOperationMultiple
  else Ok opType.

Definition GetValue (op : Operation) : string :=
  match File op, Prompt op, Command op, Text op with
  | Some v, _, _, _ => v
  | None, Some v, _, _ => v
  | None, None, Some v, _ => v
  | None, None, None, Some v => v
  | None, None, None, None => ""
  end.

(** [ContentSection]; its field [Type] is named [Type_] here. *)
Record ContentSection : Type := mkContentSection {
  Source : string;
  Content : string;
  Type_ : OperationType
}.

Record CompiledContent : Type := mkCompiledContent {
  Sections : list ContentSection
}.

Record ProcessingContext : Type := mkProcessingContext {
  basePath : string;
  visitedFiles : gmap string bool;
  maxWords : Z;
  wordCount : Z;
  delimiterStyle : string
}.

Definition set_basePath (b : string) (ctx : ProcessingContext) :=
  mkProcessingContext b (visitedFiles ctx) (maxWords ctx) (wordCount ctx)
                      (delimiterStyle ctx).
Definition set_visitedFiles (v : gmap string bool) (ctx : ProcessingContext) :=
  mkProcessingContext (basePath ctx) v (maxWords ctx) (wordCount ctx)
                      (delimiterStyle ctx).
Definition set_wordCount (n : Z) (ctx : ProcessingContext) :=
  mkProcessingContext (basePath ctx) (visitedFiles ctx) (maxWords ctx) n
                      (delimiterStyle ctx).
Definition set_maxWords (n : Z) (ctx : ProcessingContext) :=
  mkProcessingContext (basePath ctx) (visitedFiles ctx) n (wordCount ctx)
                      (delimiterStyle ctx).

Definition NewProcessingContext (basePath : string) (maxWords : Z)
    (delimiterStyle : string) : ProcessingContext :=
  mkProcessingContext (filepath.Dir basePath) ∅ maxWords 0 delimiterStyle.

(** Go's [int] is 64 bits wide on the platforms the tool is released for;
    addition wraps around in two's complement. *)
Definition wrap64 (z : Z) : Z := (z + 2 ^ 63) mod 2 ^ 64 - 2 ^ 63.

(* ===================================================================== *)
(** * The environment of a run and the log of its effects *)
(* ===================================================================== *)

(** A path either names a regular file with its bytes, or something that
    exists but cannot be opened and read (a directory, a file without read
    permission). *)
Inductive FsNode : Type :=
| RegularFile (data : string)
| Unreadable.

(** How a run of [sh -c command] ends, with the bytes captured from its
    standard output and standard error. *)
Inductive CmdOutcome : Type :=
| Exited (code : Z) (out : string)    (* the shell ran and exited with [code] *)
| Signaled (out : string) (e : string) (* the shell was terminated by a signal *)
| SpawnFailed (e : string).           (* the shell could not be started *)

(** What [cmd.CombinedOutput] returns for each: the output and the error
    ([None] for nil). *)
Definition cmdOutput (c : CmdOutcome) : string :=
  match c with
  | Exited _ out => out
  | Signaled out _ => out
  | SpawnFailed _ => ""
  end.

Definition cmdErr (c : CmdOutcome) : option string :=
  match c with
  | Exited code _ =>
      if code =? 0 then None else Some ("exit status " +:+ pretty code)
  | Signaled _ e => Some e
  | SpawnFailed e => Some e
  end.

(** [cmd.ProcessState]: [None] for nil, otherwise its [ExitCode()], which
    is -1 for a process ended by a signal. *)
Definition cmdProcessState (c : CmdOutcome) : option Z :=
  match c with
  | Exited code _ => Some code
  | Signaled _ _ => Some (-1)
  | SpawnFailed _ => None
  end.

(** The environment is fixed during a run: the files are keyed by their
    absolute, cleaned path, and a path is looked up under [filepath.Abs] of
    it (links are not modelled); [yamlUnmarshal] is the decoder of
    [gopkg.in/yaml.v3] into a [PromptFile] ([inl] for a decoding error);
    [sh] is what [sh -c command] does; [writeFile] is the error of
    [os.WriteFile] on a path, if any. *)
Record World : Type := mkWorld {
  cwd : string;
  fs : string -> option FsNode;
  yamlUnmarshal : string -> string + PromptFile;
  sh : string -> CmdOutcome;
  writeFile : string -> option string
}.

(** The steps of a run that touch the environment or charge the word
    budget, in the order the code takes them. *)
Inductive Event : Type :=
| EvReadPromptFile (path : string)  (* os.ReadFile in parsePromptFile *)
| EvStat (path : string)            (* os.Stat in processFileOperation *)
| EvProbe (path : string)           (* os.Open and Read in isBinaryFile *)
| EvReadFile (path : string)        (* os.ReadFile in processFileOperation *)
| EvExec (command : string)         (* exec.Command("sh", "-c", command) *)
| EvStderr (msg : string)           (* fmt.Fprintf(os.Stderr, ...) *)
| EvAddWords (count : Z)            (* ctx.AddWords(count) *)
| EvStdout (out : string)           (* fmt.Print(output) *)
| EvWriteFile (path : string) (data : string). (* os.WriteFile *)

Definition Abs (w : World) (path : string) : string :=
  filepath.Abs (cwd w) path.

Definition os_ReadFile (w : World) (path : string) : option string :=
  match fs w (Abs w path) with
  | Some (RegularFile data) => Some data
  | _ => None
  end.

(** [os.IsNotExist] of the error of [os.Stat]. *)
Definition os_NotExist (w : World) (path : string) : bool :=
  match fs w (Abs w path) with
  | None => true
  | Some _ => false
  end.

(* ===================================================================== *)
(** * A state, error and log monad for the walks

    A computation reads and updates the one [ProcessingContext] of its walk,
    stops at the first error, and logs its events.  The outer [option] is
    [None] only when the recursion budget of the model ran out. *)
(* ===================================================================== *)

Definition M (A : Type) : Type :=
  ProcessingContext -> option (Result A * ProcessingContext * list Event).

Definition ret {A} (a : A) : M A := fun ctx => Some (Ok a, ctx, []).
Definition fail {A} (e : Error) : M A := fun ctx => Some (Err e, ctx, []).
Definition get : M ProcessingContext := fun ctx => Some (Ok ctx, ctx, []).
Definition modify (f : ProcessingContext -> ProcessingContext) : M unit :=
  fun ctx => Some (Ok tt, f ctx, []).
Definition emit (e : Event) : M unit := fun ctx => Some (Ok tt, ctx, [e]).
Definition outOfFuel {A} : M A := fun _ => None.

Definition bind {A B} (m : M A) (k : A -> M B) : M B :=
  fun ctx =>
    match m ctx with
    | None => None
    | Some (Err e, ctx', t) => Some (Err e, ctx', t)
    | Some (Ok a, ctx', t) =>
        match k a ctx' with
        | None => None
        | Some (r, ctx'', t') => Some (r, ctx'', t ++ t')
        end
    end.

(** Go's [defer]: [cleanup] runs when [body] returns, with or without an
    error. *)
Definition defer {A} (cleanup : ProcessingContext -> ProcessingContext)
    (body : M A) : M A :=
  fun ctx =>
    match body ctx with
    | None => None
    | Some (r, ctx', t) => Some (r, cleanup ctx', t)
    end.

Definition lift {A} (r : Result A) : M A :=
  match r with Ok a => ret a | Err e => fail e end.

Notation "'let*' x ':=' m 'in' k" := (bind m (fun x => k))
  (at level 10, x name, m at level 100, k at level 200).

(* ===================================================================== *)
(** * types.go: the methods of [ProcessingContext] *)
(* ===================================================================== *)

Definition MarkVisited (w : World) (path : string) : M unit :=
  let absPath := Abs w path in
  modify (fun ctx => set_visitedFiles (<[absPath := true]> (visitedFiles ctx)) ctx).

(** Indexing a Go map at a missing key gives the zero value, [false]. *)
Definition IsVisited (w : World) (ctx : ProcessingContext) (path : string)
  : bool :=
  let absPath := Abs w path in
  default false (visitedFiles ctx !! absPath).

Definition ResolvePath (ctx : ProcessingContext) (path : string) : string :=
  if filepath.IsAbs path then path
  else filepath.Join (basePath ctx) path.

Definition AddWords (count : Z) : M unit :=
  let* _ := emit (EvAddWords count) in
  let* _ := modify (fun ctx => set_wordCount (wrap64 (wordCount ctx + count)) ctx) in
  let* ctx := get in
  if maxWords ctx <? wordCount ctx
  then fail (ErrWordLimitExceeded (wordCount ctx) (maxWords ctx))
  else ret tt.

(* ===================================================================== *)
(** * parser.go *)
(* ===================================================================== *)

(** The loop of [validatePromptFile], from index [i] on. *)
Fixpoint validateOperations (i : nat) (ops : list Operation) : Result unit :=
  match ops with
  | [] => Ok tt
  | op :: rest =>
      match GetType op with
      | Err e => Err (ErrOperationIndex i e)
      | Ok _ => validateOperations (S i) rest
      end
  end.

Definition validatePromptFile (pf : PromptFile) : Result unit :=
  match PromptList pf with
  | None => Err ErrMissingPromptKey
  | Some ops => validateOperations 0 ops
  end.

(** What [parsePromptFile] returns: it depends on the file only. *)
Definition parsePromptFileResult (w : World) (filePath : string)
  : Result PromptFile :=
  match os_ReadFile w filePath with
  | None => Err (ErrFileNotFound filePath)
  | Some data =>
      match yamlUnmarshal w data with
      | inl e => Err (ErrInvalidYAML filePath e)
      | inr promptFile =>
          match validatePromptFile promptFile with
          | Err e => Err (ErrValidationFailed filePath e)
          | Ok _ => Ok promptFile
          end
      end
  end.

Definition parsePromptFile (w : World) (filePath : string) : M PromptFile :=
  let* _ := emit (EvReadPromptFile filePath) in
  lift (parsePromptFileResult w filePath).

(** The operations a [for _, op := range pf.Prompt] loop runs over. *)
Definition rangePrompt (pf : PromptFile) : list Operation :=
  default [] (PromptList pf).

Definition isZeroByte (c : ascii) : bool := Ascii.eqb c Ascii.zero.

(** An error of [os.Open] or of the first [Read] (which is what an empty
    file gives) answers [false]. *)
Definition isBinaryFile (w : World) (filePath : string) : M bool :=
  let* _ := emit (EvProbe filePath) in
  match os_ReadFile w filePath with
  | None => ret false
  | Some data => ret (Str.existsb isZeroByte (Str.take 512 data))
  end.

(** The keys of the map; Go leaves the order of a [range] over a map
    unspecified. *)
Definition getVisitedPaths (ctx : ProcessingContext) : list string :=
  (map_to_list (visitedFiles ctx)).*1.

(** The loop of [validatePromptFileStructure] over the operations of one
    document; [validate] is the recursive call. *)
Fixpoint validateNested (validate : string -> M unit) (ops : list Operation)
  : M unit :=
  match ops with
  | [] => ret tt
  | op :: rest =>
      match GetType op with
      | Ok PromptOp =>
          let* ctx := get in
          let nestedPath := ResolvePath ctx (GetValue op) in
          let* _ := validate nestedPath in
          validateNested validate rest
      | _ => validateNested validate rest
      end
  end.

Fixpoint validatePromptFileStructure (w : World) (fuel : nat)
    (filePath : string) : M unit :=
  match fuel with
  | O => outOfFuel
  | S fuel' =>
      let absPath := Abs w filePath in
      let* ctx := get in
      if IsVisited w ctx absPath
      then fail (ErrCircularReference filePath (getVisitedPaths ctx))
      else
        let* _ := MarkVisited w absPath in
        defer (fun ctx => set_visitedFiles (delete absPath (visitedFiles ctx)) ctx)
          (let* pf := parsePromptFile w filePath in
           validateNested (validatePromptFileStructure w fuel') (rangePrompt pf))
  end.

(* ===================================================================== *)
(** * processor.go *)
(* ===================================================================== *)

Definition formatSectionHeader (source delimiterStyle : string) : string :=
  if String.eqb delimiterStyle "xml" then
    Str.nl +:+ "<!-- pcp-source: " +:+ source +:+ " -->" +:+ Str.nl
  else if String.eqb delimiterStyle "minimal" then
    Str.nl +:+ "=== PCP SOURCE: " +:+ source +:+ " ===" +:+ Str.nl
  else if String.eqb delimiterStyle "none" then
    Str.nl
  else if String.eqb delimiterStyle "full" then
    Str.nl +:+ "----------------------------------" +:+ Str.nl +:+
    "BEGIN: " +:+ source +:+ Str.nl +:+
    "----------------------------------" +:+ Str.nl
  else
    Str.nl +:+ "<!-- pcp-source: " +:+ source +:+ " -->" +:+ Str.nl.

Definition countWords (text : string) : Z :=
  if Str.is_empty text then 0
  else Z.of_nat (length (Str.Fields text)).

Definition processFileOperation (w : World) (filePath : string)
  : M ContentSection :=
  let* ctx := get in
  let resolvedPath := ResolvePath ctx filePath in
  let* _ := emit (EvStat resolvedPath) in
  if os_NotExist w resolvedPath then fail (ErrFileNotFound resolvedPath)
  else
    let* binary := isBinaryFile w resolvedPath in
    if binary then fail (ErrBinaryFile resolvedPath)
    else
      let* _ := emit (EvReadFile resolvedPath) in
      match os_ReadFile w resolvedPath with
      | None => fail (ErrReadFailed resolvedPath "read error")
      | Some contentStr =>
          let wordCount := countWords contentStr in
          let* _ := AddWords wordCount in
          ret (mkContentSection filePath contentStr FileOp)
      end.

Definition warningStatus1 (command : string) : string :=
  "Warning: command '" +:+ command +:+
  "' exited with status 1 but continuing processing" +:+ Str.nl.

Definition processCommandOperation (w : World) (command : string)
  : M ContentSection :=
  let* _ := emit (EvExec command) in
  let cmd := sh w command in
  let outputStr := cmdOutput cmd in
  let* _ :=
    match cmdErr cmd with
    | Some e =>
        match cmdProcessState cmd with
        | Some 1 => emit (EvStderr (warningStatus1 command))
        | _ => fail (ErrCommandFailed command e)
        end
    | None => ret tt
    end in
  let wordCount := countWords outputStr in
  let* _ := AddWords wordCount in
  ret (mkContentSection command outputStr CommandOp).

Definition processTextOperation (text : string) : M ContentSection :=
  let wordCount := countWords text in
  let* _ := AddWords wordCount in
  ret (mkContentSection "text" text TextOp).

(** The loop [for _, op := range ops { section, err := processOperation(op,
    ctx); ...; sections = append(sections, section) }], shared by
    [processPromptOperation] and [processPromptFile]. *)
Fixpoint processOperations (processOperation : Operation -> M ContentSection)
    (ops : list Operation) : M (list ContentSection) :=
  match ops with
  | [] => ret []
  | op :: rest =>
      let* section := processOperation op in
      let* sections := processOperations processOperation rest in
      ret (section :: sections)
  end.

(** The loop of [processPromptOperation] that fills [combinedContent],
    from index [i] on. *)
Fixpoint combineSections (i : nat) (promptPath delimiterStyle : string)
    (allSections : list ContentSection) : string :=
  match allSections with
  | [] => ""
  | section :: rest =>
      (if Nat.ltb 0 i then Str.nl else "") +:+
      formatSectionHeader (promptPath +:+ "->" +:+ Source section) delimiterStyle +:+
      Content section +:+
      combineSections (S i) promptPath delimiterStyle rest
  end.

Definition processPromptOperation (w : World)
    (processOperation : Operation -> M ContentSection) (promptPath : string)
  : M ContentSection :=
  let* ctx := get in
  let resolvedPath := ResolvePath ctx promptPath in
  if IsVisited w ctx resolvedPath
  then fail (ErrCircularReference resolvedPath (getVisitedPaths ctx))
  else
    let* pf := parsePromptFile w resolvedPath in
    let oldBasePath := basePath ctx in
    let* _ := modify (set_basePath (filepath.Dir resolvedPath)) in
    let* _ := MarkVisited w resolvedPath in
    let* allSections := processOperations processOperation (rangePrompt pf) in
    let* _ := modify (fun ctx =>
                set_visitedFiles (delete resolvedPath (visitedFiles ctx)) ctx) in
    let* _ := modify (set_basePath oldBasePath) in
    let combinedContent :=
      combineSections 0 promptPath (delimiterStyle ctx) allSections in
    let wordCount := countWords combinedContent in
    let* _ := AddWords wordCount in
    ret (mkContentSection promptPath combinedContent PromptOp).

(** [processOperation]; the recursion through nested documents is bounded
    by [fuel], one unit per level of nesting. *)
Fixpoint processOperation (w : World) (fuel : nat) (op : Operation)
  : M ContentSection :=
  match GetType op with
  | Err e => fail e
  | Ok opType =>
      let value := GetValue op in
      match opType with
      | FileOp => processFileOperation w value
      | PromptOp =>
          match fuel with
          | O => outOfFuel
          | S fuel' => processPromptOperation w (processOperation w fuel') value
          end
      | CommandOp => processCommandOperation w value
      | TextOp => processTextOperation value
      end
  end.

(* ===================================================================== *)
(** * main.go *)
(* ===================================================================== *)

(** The loop of [compileOutput], from index [i] on. *)
Fixpoint renderSections (i : nat) (delimiterStyle : string)
    (sections : list ContentSection) : string :=
  match sections with
  | [] => ""
  | section :: rest =>
      (if negb (String.eqb delimiterStyle "none") then
         if Nat.eqb i 0
         then Str.TrimLeftNl (formatSectionHeader (Source section) delimiterStyle)
         else formatSectionHeader (Source section) delimiterStyle
       else "") +:+
      Content section +:+
      renderSections (S i) delimiterStyle rest
  end.

Definition compileOutput (content : CompiledContent) (delimiterStyle : string)
  : string :=
  Str.TrimRightNl (renderSections 0 delimiterStyle (Sections content)) +:+ Str.nl.

(** A run of [processPromptFile]: its error, if any, and its log. *)
Definition Run : Type := option (Result unit * list Event).

Definition processPromptFile (w : World) (fuel : nat)
    (promptFile outputFile : string) (maxWords : Z) (delimiterStyle : string)
  : Run :=
  let ctx := NewProcessingContext promptFile maxWords delimiterStyle in
  match validatePromptFileStructure w fuel promptFile ctx with
  | None => None
  | Some (Err e, _, t1) => Some (Err e, t1)
  | Some (Ok _, _, t1) =>
      let ctx := NewProcessingContext promptFile maxWords delimiterStyle in
      match parsePromptFile w promptFile ctx with
      | None => None
      | Some (Err e, _, t2) => Some (Err e, t1 ++ t2)
      | Some (Ok pf, ctx, t2) =>
          match processOperations (processOperation w fuel) (rangePrompt pf) ctx with
          | None => None
          | Some (Err e, _, t3) => Some (Err e, t1 ++ t2 ++ t3)
          | Some (Ok sections, _, t3) =>
              let compiledContent := mkCompiledContent sections in
              let output := compileOutput compiledContent delimiterStyle in
              if Str.is_empty outputFile
              then Some (Ok tt, t1 ++ t2 ++ t3 ++ [EvStdout output])
              else
                match writeFile w outputFile with
                | Some e =>
                    Some (Err (ErrWriteFailed outputFile e),
                          t1 ++ t2 ++ t3 ++ [EvWriteFile outputFile output])
                | None =>
                    Some (Ok tt, t1 ++ t2 ++ t3 ++ [EvWriteFile outputFile output])
                end
          end
      end
  end.

(* ===================================================================== *)
(** * errors.go: the [Error()] methods *)
(* ===================================================================== *)

(** [fmt.Sprintf("%v", paths)] for a slice of strings. *)
Definition formatStrings (paths : list string) : string :=
  "[" +:+ Str.Join paths " " +:+ "]".

(** The message of an error; an error built by [fmt.Errorf] with [%w]
    prints the message of the error it wraps. *)
Fixpoint errorString (e : Error) : string :=
  match e with
  | ErrOperationEmpty =>
      "operation must specify exactly one of: file, prompt, command, text"
  | ErrOperationMultiple =>
      "operation must specify exactly one of: file, prompt, command, text"
  | ErrInvalidYAML file err =>
      "invalid YAML in file " +:+ file +:+ ": " +:+ err
  | ErrFileNotFound file => "file not found: " +:+ file
  | ErrBinaryFile file => "cannot process binary file: " +:+ file
  | ErrCircularReference file path =>
      "circular reference detected in file " +:+ file +:+
      " (reference path: " +:+ formatStrings path +:+ ")"
  | ErrCommandFailed command err =>
      "command execution failed: " +:+ command +:+ " (" +:+ err +:+ ")"
  | ErrWordLimitExceeded current limit =>
      "compiled output (" +:+ pretty current +:+
      " words) exceeds maximum word limit (" +:+ pretty limit +:+ " words)"
  | ErrMissingPromptKey => "missing required 'prompt' key"
  | ErrOperationIndex i inner =>
      "operation " +:+ pretty i +:+ ": " +:+ errorString inner
  | ErrValidationFailed file inner =>
      "validation failed for " +:+ file +:+ ": " +:+ errorString inner
  | ErrReadFailed file err =>
      "failed to read file " +:+ file +:+ ": " +:+ err
  | ErrWriteFailed file err =>
      "failed to write output file " +:+ file +:+ ": " +:+ err
  | ErrUnknownOperationType => "unknown operation type"
  end.

(* ===================================================================== *)
(** * main.go: [main] *)
(* ===================================================================== *)

(** The values of the flags after [flag.Parse]. *)
Record Flags : Type := mkFlags {
  promptFile : string;       (* -f *)
  outputFile : string;       (* -o *)
  maxWordsFlag : Z;          (* -max-words *)
  delimiterStyleFlag : string; (* -delimiter-style *)
  help : bool;               (* -h *)
  helpLong : bool            (* -help *)
}.

(** What [main] does that can be seen from outside: the usage text and the
    messages it writes to the standard error stream, and the steps of the
    engine. *)
Inductive MainStep : Type :=
| MsUsage                    (* flag.Usage(), on os.Stderr *)
| MsStderr (msg : string)    (* fmt.Fprintf(os.Stderr, ...) *)
| MsEngine (e : Event).

Definition validStyles : gmap string bool :=
  <["xml" := true]> (<["minimal" := true]> (<["none" := true]>
    (<["full" := true]> ∅))).

(** [main] once the [demo] subcommand is ruled out and the flags are
    parsed: the exit status of the process and what it did. *)
Definition main (w : World) (fuel : nat) (flags : Flags)
  : option (Z * list MainStep) :=
  if help flags || helpLong flags then Some (0, [MsUsage])
  else if Str.is_empty (promptFile flags) then
    Some (1, [MsStderr ("Error: -f flag is required" +:+ Str.nl); MsUsage])
  else if negb (default false (validStyles !! delimiterStyleFlag flags)) then
    Some (1, [MsStderr ("Error: invalid delimiter style '" +:+
                        delimiterStyleFlag flags +:+
                        "'. Must be one of: xml, minimal, none, full" +:+
                        Str.nl);
              MsUsage])
  else
    match processPromptFile w fuel (promptFile flags) (outputFile flags)
            (maxWordsFlag flags) (delimiterStyleFlag flags) with
    | None => None
    | Some (Err e, t) =>
        Some (1, map MsEngine t ++
                 [MsStderr ("Error: " +:+ errorString e +:+ Str.nl)])
    | Some (Ok _, t) => Some (0, map MsEngine t)
    end.

(* ===================================================================== *)
(** * Notions used to state the properties of the engine *)
(* ===================================================================== *)

(** [ResolvePath] as a function of the base directory alone. *)
Definition resolveFrom (base path : string) : string :=
  if filepath.IsAbs path then path else filepath.Join base path.

(** The words charged to the budget in a log: the sum of the arguments of
    the [AddWords] calls. *)
Fixpoint charged (t : list Event) : Z :=
  match t with
  | [] => 0
  | EvAddWords n :: rest => n + charged rest
  | _ :: rest => charged rest
  end.

(** The words of the contents of a list of sections. *)
Fixpoint sectionWords (sections : list ContentSection) : Z :=
  match sections with
  | [] => 0
  | s :: rest => countWords (Content s) + sectionWords rest
  end.

(** Writing to the primary output stream or to the destination file. *)
Definition isOutput (e : Event) : bool :=
  match e with
  | EvStdout _ | EvWriteFile _ _ => true
  | _ => false
  end.

(** Running a command, or touching the file of a [file] operation. *)
Definition isSideEffect (e : Event) : bool :=
  match e with
  | EvExec _ | EvStat _ | EvProbe _ | EvReadFile _ => true
  | _ => false
  end.

Definition isReadPromptFile (e : Event) : bool :=
  match e with
  | EvReadPromptFile _ => true
  | _ => false
  end.

(** The result of an operation that has got the section [sec], once the
    budget has been charged for the words of its content: the section if
    the new total fits, and the context with the new total. *)
Definition afterCharge (ctx : ProcessingContext) (sec : ContentSection)
  : Result ContentSection * ProcessingContext :=
  let total := wrap64 (wordCount ctx + countWords (Content sec)) in
  (if maxWords ctx <? total
   then Err (ErrWordLimitExceeded total (maxWords ctx))
   else Ok sec,
   set_wordCount total ctx).

(** What a [file], [command] or [text] operation gets before the budget is
    charged: the section or the error, and the steps taken, as
    [processFileOperation], [processCommandOperation] and
    [processTextOperation] take them up to their call of [AddWords]. *)
Definition fetch (w : World) (base : string) (op : Operation)
  : Result ContentSection * list Event :=
  let value := GetValue op in
  match GetType op with
  | Err e => (Err e, [])
  | Ok FileOp =>
      let p := resolveFrom base value in
      if os_NotExist w p then (Err (ErrFileNotFound p), [EvStat p])
      else
        match os_ReadFile w p with
        | None => (Err (ErrReadFailed p "read error"),
                   [EvStat p; EvProbe p; EvReadFile p])
        | Some data =>
            if Str.existsb isZeroByte (Str.take 512 data)
            then (Err (ErrBinaryFile p), [EvStat p; EvProbe p])
            else (Ok (mkContentSection value data FileOp),
                  [EvStat p; EvProbe p; EvReadFile p])
        end
  | Ok CommandOp =>
      let cmd := sh w value in
      match cmdErr cmd, cmdProcessState cmd with
      | None, _ =>
          (Ok (mkContentSection value (cmdOutput cmd) CommandOp), [EvExec value])
      | Some _, Some 1 =>
          (Ok (mkContentSection value (cmdOutput cmd) CommandOp),
           [EvExec value; EvStderr (warningStatus1 value)])
      | Some e, _ => (Err (ErrCommandFailed value e), [EvExec value])
      end
  | Ok TextOp => (Ok (mkContentSection "text" value TextOp), [])
  | Ok PromptOp => (Err ErrUnknownOperationType, [])
  end.

(** Charging the budget for what was fetched. *)
Definition charge (f : Result ContentSection * list Event)
    (ctx : ProcessingContext)
  : option (Result ContentSection * ProcessingContext * list Event) :=
  match f with
  | (Err e, t) => Some (Err e, ctx, t)
  | (Ok sec, t) =>
      Some (fst (afterCharge ctx sec), snd (afterCharge ctx sec),
            t ++ [EvAddWords (countWords (Content sec))])
  end.

(** A string that is empty or starts with a space: whatever precedes it in
    a concatenation ends its last field there. *)
Definition breaks (s : string) : Prop :=
  match s with
  | EmptyString => True
  | String c _ => Str.isSpace c = true
  end.

(** A path element that [filepath.Clean] keeps in a rooted path. *)
Definition hasSlash (s : string) : bool :=
  Str.existsb (fun c => Ascii.eqb c Str.slash) s.

Definition keptElem (c : string) : Prop :=
  hasSlash c = false /\ c <> "" /\ c <> "." /\ c <> "..".

(** The map of visited files holds exactly the paths of [stack], all marked
    [true]. *)
Definition visitedIs (ctx : ProcessingContext) (stack : list string) : Prop :=
  forall k : string,
    (In k stack -> visitedFiles ctx !! k = Some true) /\
    (~ In k stack -> visitedFiles ctx !! k = None).

(** No key of the map is marked [false]: the code only ever stores [true]. *)
Definition onlyTrue (m : gmap string bool) : Prop :=
  forall k : string, m !! k <> Some false.

(** An operation that names a nested document. *)
Definition isPromptRef (op : Operation) : bool :=
  match GetType op with
  | Ok PromptOp => true
  | _ => false
  end.

(** A well-formed document tree without reference cycle, read from
    [filePath] below the documents of [stack]: the document parses with
    well-formed operations, it is none of the documents above it, and every
    document it names is such a tree again.  A relative reference is
    resolved against the directory of the document that holds it.
    [rootDir] is the directory of the root document; the tree is
    [AgreesWithRoot] when every reference resolves from [rootDir] to the
    same path. *)
Inductive Acyclic (w : World) : list string -> string -> Prop :=
| Acyclic_doc (stack : list string) (filePath : string) (pf : PromptFile) :
    ~ In (Abs w filePath) stack ->
    parsePromptFileResult w filePath = Ok pf ->
    (forall op, In op (rangePrompt pf) -> isPromptRef op = true ->
       Acyclic w (Abs w filePath :: stack)
         (resolveFrom (filepath.Dir filePath) (GetValue op))) ->
    Acyclic w stack filePath.

Inductive AgreesWithRoot (w : World) (rootDir : string) : string -> Prop :=
| AgreesWithRoot_doc (filePath : string) :
    (forall pf op, parsePromptFileResult w filePath = Ok pf ->
       In op (rangePrompt pf) -> isPromptRef op = true ->
       resolveFrom (filepath.Dir filePath) (GetValue op)
         = resolveFrom rootDir (GetValue op)) ->
    (forall pf op, parsePromptFileResult w filePath = Ok pf ->
       In op (rangePrompt pf) -> isPromptRef op = true ->
       AgreesWithRoot w rootDir
         (resolveFrom (filepath.Dir filePath) (GetValue op))) ->
    AgreesWithRoot w rootDir filePath.

(** The section an operation stands for, read off the documents: nested
    documents are expanded in place, in the order of their operations. *)
#[warnings="-register-all"]
Inductive SectionFor (w : World) (style : string)
  : string -> Operation -> ContentSection -> Prop :=
| SectionFor_file (base : string) (op : Operation) (data : string) :
    GetType op = Ok FileOp ->
    os_ReadFile w (resolveFrom base (GetValue op)) = Some data ->
    SectionFor w style base op (mkContentSection (GetValue op) data FileOp)
| SectionFor_command (base : string) (op : Operation) :
    GetType op = Ok CommandOp ->
    SectionFor w style base op
      (mkContentSection (GetValue op) (cmdOutput (sh w (GetValue op))) CommandOp)
| SectionFor_text (base : string) (op : Operation) :
    GetType op = Ok TextOp ->
    SectionFor w style base op (mkContentSection "text" (GetValue op) TextOp)
| SectionFor_prompt (base : string) (op : Operation) (pf : PromptFile)
    (children : list ContentSection) :
    GetType op = Ok PromptOp ->
    parsePromptFileResult w (resolveFrom base (GetValue op)) = Ok pf ->
    Forall2 (SectionFor w style
               (filepath.Dir (resolveFrom base (GetValue op))))
            (rangePrompt pf) children ->
    SectionFor w style base op
      (mkContentSection (GetValue op)
         (combineSections 0 (GetValue op) style children) PromptOp).

(** What every step of the execution walk keeps: it writes no output, it
    leaves the budget and the delimiter style alone, and the running total
    moves by what the log says was charged. *)
Definition stepInv (ctx ctx' : ProcessingContext) (t : list Event) : Prop :=
  Forall (fun e => isOutput e = false) t /\
  maxWords ctx' = maxWords ctx /\
  delimiterStyle ctx' = delimiterStyle ctx /\
  wrap64 (wordCount ctx') = wrap64 (wordCount ctx + charged t) /\
  0 <= charged t.

(** What a successful operation gives: the base directory is back where it
    was, the last step charged the words of the section, and the section is
    the one the documents describe. *)
Definition opOk (w : World) (op : Operation) (ctx : ProcessingContext)
    (sec : ContentSection) (ctx' : ProcessingContext) (t : list Event) : Prop :=
  basePath ctx' = basePath ctx /\
  (exists t0, t = t0 ++ [EvAddWords (countWords (Content sec))] /\
              0 <= charged t0) /\
  SectionFor w (delimiterStyle ctx) (basePath ctx) op sec.

Definition opsOk (w : World) (ops : list Operation) (ctx : ProcessingContext)
    (secs : list ContentSection) (ctx' : ProcessingContext) (t : list Event)
  : Prop :=
  basePath ctx' = basePath ctx /\
  Forall2 (SectionFor w (delimiterStyle ctx) (basePath ctx)) ops secs /\
  sectionWords secs <= charged t.

(* ===================================================================== *)
(** * Small environments to run the engine on *)
(* ===================================================================== *)

Module Fixtures.

Definition opFile (p : string) : Operation := mkOperation (Some p) None None None.
Definition opPrompt (p : string) : Operation := mkOperation None (Some p) None None.
Definition opCommand (c : string) : Operation := mkOperation None None (Some c) None.
Definition opText (t : string) : Operation := mkOperation None None None (Some t).

Fixpoint assoc {A} (l : list (string * A)) (k : string) : option A :=
  match l with
  | [] => None
  | (k', v) :: rest => if String.eqb k k' then Some v else assoc rest k
  end.

(** A decoder that knows the documents of a table. *)
Definition yamlTable (l : list (string * list Operation)) (data : string)
  : string + PromptFile :=
  match assoc l data with
  | Some ops => inr (mkPromptFile (Some ops))
  | None => inl "yaml: unmarshal errors"
  end.

(** A shell that knows the commands of a table; any other is not found. *)
Definition shTable (l : list (string * CmdOutcome)) (command : string)
  : CmdOutcome :=
  match assoc l command with
  | Some o => o
  | None => Exited 127 "sh: command not found"
  end.

Definition world (files : list (string * string))
    (docs : list (string * list Operation))
    (commands : list (string * CmdOutcome)) : World :=
  mkWorld "/work"
    (fun p => match assoc files p with
              | Some d => Some (RegularFile d)
              | None => None
              end)
    (yamlTable docs) (shTable commands) (fun _ => None).

(** /a/main.yml names sub/nested.yml, which names its sibling deep.yml. *)
Definition yNestedMain : string := "prompt: [{prompt: sub/nested.yml}]".
Definition yNested : string := "prompt: [{prompt: deep.yml}]".
Definition yDeep : string := "prompt: [{text: deep words}]".
Definition wNested : World :=
  world [("/a/main.yml", yNestedMain); ("/a/sub/nested.yml", yNested);
         ("/a/sub/deep.yml", yDeep)]
        [(yNestedMain, [opPrompt "sub/nested.yml"]);
         (yNested, [opPrompt "deep.yml"]);
         (yDeep, [opText "deep words"])]
        [].

(** One document with two literal texts and a file. *)
Definition yTexts : string := "prompt: [{text: abc}, {file: hello.txt}]".
Definition wTexts : World :=
  world [("/work/p.yml", yTexts); ("/work/hello.txt", "Hello World")]
        [(yTexts, [opText "abc"; opFile "hello.txt"])]
        [].

(** A shell with one command for each way a command can end. *)
Definition wShell : World :=
  world []
        []
        [("echo a b", Exited 0 ("a b" +:+ Str.nl));
         ("grep x f", Exited 1 "");
         ("false2", Exited 2 "partial");
         ("sleep 9", Signaled "" "signal: killed")].

(** a.yml and b.yml name each other; each also has a command and a file
    operation before the reference. *)
Definition yCycleA : string :=
  "prompt: [{command: touch marker}, {file: notes.txt}, {prompt: b.yml}]".
Definition yCycleB : string := "prompt: [{text: from b}, {prompt: a.yml}]".
Definition wCycle : World :=
  world [("/work/a.yml", yCycleA); ("/work/b.yml", yCycleB);
         ("/work/notes.txt", "notes")]
        [(yCycleA, [opCommand "touch marker"; opFile "notes.txt";
                    opPrompt "b.yml"]);
         (yCycleB, [opText "from b"; opPrompt "a.yml"])]
        [("touch marker", Exited 0 "")].

(** The same cycle, but a.yml first names a document that does not
    exist. *)
Definition yEarlyA : string := "prompt: [{prompt: missing.yml}, {prompt: b.yml}]".
Definition yEarlyB : string := "prompt: [{prompt: a.yml}]".
Definition wCycleEarly : World :=
  world [("/work/a.yml", yEarlyA); ("/work/b.yml", yEarlyB)]
        [(yEarlyA, [opPrompt "missing.yml"; opPrompt "b.yml"]);
         (yEarlyB, [opPrompt "a.yml"])]
        [].

(** A document whose second operation is a command that exits with
    status 2. *)
Definition yFail : string :=
  "prompt: [{text: hello}, {command: false2}, {text: never}]".
Definition wFail : World :=
  world [("/work/p.yml", yFail)]
        [(yFail, [opText "hello"; opCommand "false2"; opText "never"])]
        [("false2", Exited 2 "partial")].

(** m.yml names n.yml, whose only operation is a text of one space. *)
Definition yBlankMain : string := "prompt: [{prompt: n.yml}]".
Definition yBlank : string := "prompt: [{text: ' '}]".
Definition wBlank : World :=
  world [("/work/m.yml", yBlankMain); ("/work/n.yml", yBlank)]
        [(yBlankMain, [opPrompt "n.yml"]); (yBlank, [opText " "])]
        [].

(** m.yml names n.yml, whose only operation is a text of two words. *)
Definition yTwoWords : string := "prompt: [{text: a b}]".
Definition wTwoWords : World :=
  world [("/work/m.yml", yBlankMain); ("/work/n.yml", yTwoWords)]
        [(yBlankMain, [opPrompt "n.yml"]); (yTwoWords, [opText "a b"])]
        [].

(** One document without nesting: a text, a file and a command, five
    words in all. *)
Definition yFlat : string :=
  "prompt: [{text: a b}, {file: hello.txt}, {command: echo a b}]".
Definition wFlat : World :=
  world [("/work/p.yml", yFlat); ("/work/hello.txt", "Hello")]
        [(yFlat, [opText "a b"; opFile "hello.txt"; opCommand "echo a b"])]
        [("echo a b", Exited 0 ("a b" +:+ Str.nl))].

(** m.yml names the leaf l.yml twice, around a text of its own. *)
Definition yTwice : string :=
  "prompt: [{prompt: l.yml}, {text: between}, {prompt: l.yml}]".
Definition yLeaf : string := "prompt: [{text: leaf}]".
Definition wTwice : World :=
  world [("/work/m.yml", yTwice); ("/work/l.yml", yLeaf)]
        [(yTwice, [opPrompt "l.yml"; opText "between"; opPrompt "l.yml"]);
         (yLeaf, [opText "leaf"])]
        [].

End Fixtures.

(* ===================================================================== *)
(** * Further notions, for the properties of the single functions *)
(* ===================================================================== *)

(** The variants of an operation that are populated, in the order
    [GetType] looks at them. *)
Definition populated (op : Operation) : list OperationType :=
  (if is_set (File op) then [FileOp] else []) ++
  (if is_set (Prompt op) then [PromptOp] else []) ++
  (if is_set (Command op) then [CommandOp] else []) ++
  (if is_set (Text op) then [TextOp] else []).

(** The field of an operation that belongs to a variant. *)
Definition fieldOf (t : OperationType) (op : Operation) : option string :=
  match t with
  | FileOp => File op
  | PromptOp => Prompt op
  | CommandOp => Command op
  | TextOp => Text op
  end.

(** The source label of the section of an operation. *)
Definition sourceLabel (op : Operation) : string :=
  match GetType op with
  | Ok TextOp => "text"
  | _ => GetValue op
  end.

(** The last and the first byte of a string. *)
Fixpoint lastChar (s : string) : option ascii :=
  match s with
  | EmptyString => None
  | String c EmptyString => Some c
  | String _ r => lastChar r
  end.

Definition firstChar (s : string) : option ascii :=
  match s with
  | EmptyString => None
  | String c _ => Some c
  end.

(** [n] line feeds. *)
Fixpoint newlines (n : nat) : string :=
  match n with
  | O => ""
  | S n' => String Str.newline (newlines n')
  end.

(** The contents of the sections, one after the other. *)
Fixpoint concatContents (sections : list ContentSection) : string :=
  match sections with
  | [] => ""
  | s :: rest => Content s +:+ concatContents rest
  end.

(** The words of the top-level headers and contents of a list of sections,
    and the words of the nested headers and contents below [promptPath]. *)
Fixpoint renderedWords (style : string) (sections : list ContentSection) : Z :=
  match sections with
  | [] => 0
  | s :: rest =>
      countWords (formatSectionHeader (Source s) style) +
      countWords (Content s) + renderedWords style rest
  end.

Fixpoint combinedWords (promptPath style : string)
    (sections : list ContentSection) : Z :=
  match sections with
  | [] => 0
  | s :: rest =>
      countWords (formatSectionHeader (promptPath +:+ "->" +:+ Source s) style) +
      countWords (Content s) + combinedWords promptPath style rest
  end.

(** Writing to the primary output stream, among the steps of [main]. *)
Definition isStdout (s : MainStep) : bool :=
  match s with
  | MsEngine (EvStdout _) => true
  | _ => false
  end.

Definition isStderrMessage (s : MainStep) : bool :=
  match s with
  | MsStderr _ => true
  | _ => false
  end.

(** An outcome that reports the word budget exceeded. *)
Definition isWordLimit {A} (r : Result A) : bool :=
  match r with
  | Err (ErrWordLimitExceeded _ _) => true
  | _ => false
  end.

(** A value of Go's [int]. *)
Definition int64 (z : Z) : Prop := - 2 ^ 63 <= z < 2 ^ 63.

(** What the budget check of [AddWords] gives for a step from [ctx] to
    [ctx'] with the outcome [r]: the budget itself is not touched; a
    success leaves the running total within the budget; a failure that
    reports the budget carries the limit and the total that exceeded it. *)
Definition budgetInv {A} (ctx : ProcessingContext) (r : Result A)
    (ctx' : ProcessingContext) : Prop :=
  maxWords ctx' = maxWords ctx /\
  (int64 (wordCount ctx) -> int64 (wordCount ctx')) /\
  match r with
  | Ok _ => wordCount ctx <= maxWords ctx -> wordCount ctx' <= maxWords ctx
  | Err (ErrWordLimitExceeded current limit) =>
      limit = maxWords ctx /\ limit < current /\ current = wordCount ctx'
  | Err _ => True
  end.

(** The outcome of a step, with the budget of its context replaced. *)
Definition withBudget {A} (B : Z)
    (x : option (Result A * ProcessingContext * list Event))
  : option (Result A * ProcessingContext * list Event) :=
  match x with
  | Some (r, c, t) => Some (r, set_maxWords B c, t)
  | None => None
  end.

(** A reference that [filepath.Abs] leaves as it is once resolved against
    an absolute directory: a relative path, or an absolute path in clean
    form. *)
Definition stableRef (v : string) : Prop :=
  filepath.IsAbs v = true -> filepath.Clean v = v.

(** Every reference to a nested document in a document of the environment
    is such a reference. *)
Definition StableRefs (w : World) : Prop :=
  forall (p : string) (pf : PromptFile) (op : Operation),
    parsePromptFileResult w p = Ok pf -> In op (rangePrompt pf) ->
    isPromptRef op = true -> stableRef (GetValue op).

(** The errors of [GetType] and of the default branch of
    [processOperation], when nothing wraps them. *)
Definition isBareOperationError (e : Error) : bool :=
  match e with
  | ErrOperationEmpty | ErrOperationMultiple | ErrUnknownOperationType => true
  | _ => false
  end.

(** An operation with exactly one field. *)
Definition wellFormed (op : Operation) : Prop :=
  exists t : OperationType, GetType op = Ok t.


Fixpoint commands (ops : list Operation) : list string :=
  match ops with
  | [] => []
  | op :: rest =>
      match GetType op with
      | Ok CommandOp => GetValue op :: commands rest
      | _ => commands rest
      end
  end.

(** The delimiter styles of the usage text. *)
Definition documentedStyles : list string := ["xml"; "minimal"; "none"; "full"].

(** Small inputs for the witnesses. *)
Module Samples.

Fixpoint replicate (n : nat) (c : ascii) : string :=
  match n with
  | O => ""
  | S n' => String c (replicate n' c)
  end.

(** 512 letters, then a zero byte: the zero byte is the 513th byte. *)
Definition lateZero : string :=
  replicate 512 "a"%char +:+ String Ascii.zero "tail".

Definition wLateZero : World :=
  Fixtures.world [("/work/late.bin", lateZero)] [] [].

(** A document whose only operation has two fields. *)
Definition yMalformed : string := "prompt: [{file: a.txt, text: hello}]".
Definition wMalformed : World :=
  Fixtures.world [("/work/p.yml", yMalformed)]
    [(yMalformed, [mkOperation (Some "a.txt") None None (Some "hello")])]
    [].

End Samples.

(* ===================================================================== *)
(** * Running the monad *)
(* ===================================================================== *)

Ltac run :=
  cbv beta iota zeta delta
    [bind emit get modify ret fail lift defer AddWords MarkVisited];
  cbn [basePath visitedFiles maxWords wordCount delimiterStyle
       set_basePath set_visitedFiles set_wordCount set_maxWords
       fst snd app].

Ltac split_in H :=
  repeat (rewrite in_app_iff in H || cbn [In app] in H);
  repeat match type of H with
         | _ \/ _ => destruct H as [H|H]
         | False => destruct H
         end;
  subst.

Lemma bind_inv {A B} (m : M A) (k : A -> M B) ctx r ctx' t :
  bind m k ctx = Some (r, ctx', t) ->
  (exists e, m ctx = Some (Err e, ctx', t) /\ r = Err e) \/
  (exists a c1 t1 t2,
     m ctx = Some (Ok a, c1, t1) /\ k a c1 = Some (r, ctx', t2) /\
     t = t1 ++ t2).
Proof.
  unfold bind. destruct (m ctx) as [[[[a|e] c1] t1]|]; [| |discriminate].
  - destruct (k a c1) as [[[r2 c2] t2]|] eqn:Hk; [|discriminate].
    intros [= <- <- <-]. right. now exists a, c1, t1, t2.
  - intros [= <- <- <-]. left. now exists e.
Qed.

Lemma bind_ok {A B} (m : M A) (k : A -> M B) ctx a c1 t1 :
  m ctx = Some (Ok a, c1, t1) ->
  bind m k ctx = match k a c1 with
                 | Some (r, c2, t2) => Some (r, c2, t1 ++ t2)
                 | None => None
                 end.
Proof. unfold bind. intros ->. reflexivity. Qed.

Lemma bind_err {A B} (m : M A) (k : A -> M B) ctx e c1 t1 :
  m ctx = Some (Err e, c1, t1) ->
  bind m k ctx = Some (Err e, c1, t1).
Proof. unfold bind. intros ->. reflexivity. Qed.

Lemma bind_get {B} (k : ProcessingContext -> M B) ctx :
  bind get k ctx = k ctx ctx.
Proof. unfold bind, get. now destruct (k ctx ctx) as [[[r c] t]|]. Qed.

Lemma bind_ret {A B} (a : A) (k : A -> M B) ctx :
  bind (ret a) k ctx = k a ctx.
Proof. unfold bind, ret. now destruct (k a ctx) as [[[r c] t]|]. Qed.

Lemma bind_modify {B} f (k : unit -> M B) ctx :
  bind (modify f) k ctx = k tt (f ctx).
Proof. unfold bind, modify. now destruct (k tt (f ctx)) as [[[r c] t]|]. Qed.

Lemma bind_fail {A B} e (k : A -> M B) ctx :
  bind (fail e) k ctx = Some (Err e, ctx, []).
Proof. reflexivity. Qed.

Lemma bind_emit {B} ev (k : unit -> M B) ctx :
  bind (emit ev) k ctx = match k tt ctx with
                         | Some (r, c, t) => Some (r, c, ev :: t)
                         | None => None
                         end.
Proof. reflexivity. Qed.

Lemma parsePromptFile_run (w : World) (filePath : string) ctx :
  parsePromptFile w filePath ctx
  = Some (parsePromptFileResult w filePath, ctx, [EvReadPromptFile filePath]).
Proof.
  unfold parsePromptFile. run.
  destruct (parsePromptFileResult w filePath); reflexivity.
Qed.

(* ===================================================================== *)
(** * Absolute paths are stable under [Abs] *)
(* ===================================================================== *)

Lemma IsAbs_inv (s : string) :
  filepath.IsAbs s = true -> exists r, s = String Str.slash r.
Proof.
  unfold filepath.IsAbs, Str.HasPrefix.
  destruct s as [|c r]; cbn [String.prefix]; [discriminate|].
  destruct (ascii_dec _ c) as [<-|]; [|discriminate]. intros _. now exists r.
Qed.

Lemma IsAbs_slash (r : string) : filepath.IsAbs (String Str.slash r) = true.
Proof.
  unfold filepath.IsAbs, Str.HasPrefix. cbn [String.prefix].
  destruct (ascii_dec _ _) as [_|Hne]; [now destruct r|now elim Hne].
Qed.

Lemma SplitSlash_noSlash (s : string) :
  Forall (fun c => hasSlash c = false) (Str.SplitSlash s).
Proof.
  induction s as [|c r IH]; simpl.
  - repeat constructor.
  - destruct (Ascii.eqb c Str.slash) eqn:Hc.
    + constructor; [reflexivity|exact IH].
    + destruct (Str.SplitSlash r) as [|h t].
      * repeat constructor. unfold hasSlash. simpl. now rewrite Hc.
      * inversion IH; subst. constructor; [|assumption].
        unfold hasSlash in *. simpl. now rewrite Hc.
Qed.

Lemma SplitSlash_single (e : string) :
  hasSlash e = false -> Str.SplitSlash e = [e].
Proof.
  induction e as [|c r IH]; simpl; [reflexivity|].
  unfold hasSlash. simpl. destruct (Ascii.eqb c Str.slash); [discriminate|].
  simpl. intros H. now rewrite (IH H).
Qed.

Lemma SplitSlash_app (e rest : string) :
  hasSlash e = false ->
  Str.SplitSlash (e +:+ "/" +:+ rest) = e :: Str.SplitSlash rest.
Proof.
  induction e as [|c r IH]; [reflexivity|].
  unfold hasSlash. simpl. destruct (Ascii.eqb c Str.slash); [discriminate|].
  simpl. intros H. now rewrite (IH H).
Qed.

Lemma SplitSlash_Join (elems : list string) :
  elems <> [] -> Forall (fun c => hasSlash c = false) elems ->
  Str.SplitSlash (Str.Join elems "/") = elems.
Proof.
  induction elems as [|e rest IH]; [congruence|]. intros _ HF.
  inversion HF as [|? ? He Hrest]; subst.
  destruct rest as [|e' rest'].
  - simpl. now apply SplitSlash_single.
  - change (Str.Join (e :: e' :: rest') "/")
      with (e +:+ "/" +:+ Str.Join (e' :: rest') "/").
    rewrite SplitSlash_app by assumption. f_equal. now apply IH.
Qed.

Lemma cleanStep_kept (c : string) (acc : list string) :
  keptElem c -> filepath.cleanStep true acc c = c :: acc.
Proof.
  intros (_ & H1 & H2 & H3). unfold filepath.cleanStep.
  destruct (String.eqb_spec c ""); [contradiction|].
  destruct (String.eqb_spec c "."); [contradiction|].
  destruct (String.eqb_spec c ".."); [contradiction|]. reflexivity.
Qed.

Lemma fold_cleanStep_kept (elems acc : list string) :
  Forall keptElem elems ->
  fold_left (filepath.cleanStep true) elems acc = rev elems ++ acc.
Proof.
  revert acc. induction elems as [|e rest IH]; intros acc HF; [reflexivity|].
  inversion HF; subst. simpl. rewrite cleanStep_kept by assumption.
  rewrite IH by assumption. now rewrite <- app_assoc.
Qed.

Lemma fold_cleanStep_result (cs acc : list string) :
  Forall (fun c => hasSlash c = false) cs -> Forall keptElem acc ->
  Forall keptElem (fold_left (filepath.cleanStep true) cs acc).
Proof.
  revert acc. induction cs as [|c rest IH]; intros acc Hcs Hacc; [exact Hacc|].
  inversion Hcs; subst. simpl. apply IH; [assumption|].
  unfold filepath.cleanStep.
  destruct (String.eqb_spec c ""); [exact Hacc|].
  destruct (String.eqb_spec c "."); [exact Hacc|]. simpl.
  destruct (String.eqb_spec c "..").
  - destruct acc as [|top acc']; [constructor|].
    inversion Hacc as [|? ? (_ & _ & _ & Htop) Hacc']; subst.
    destruct (String.eqb_spec top ".."); [contradiction|assumption].
  - constructor; [|exact Hacc]. repeat split; assumption.
Qed.

Lemma Clean_rooted (s : string) :
  filepath.IsAbs s = true ->
  filepath.Clean s
  = String Str.slash
      (Str.Join (rev (fold_left (filepath.cleanStep true) (Str.SplitSlash s) []))
                "/").
Proof.
  intros Habs. destruct (IsAbs_inv s Habs) as [r ->].
  unfold filepath.Clean. cbn [Str.is_empty]. now rewrite Habs.
Qed.

Lemma Clean_rooted_idem (s : string) :
  filepath.IsAbs s = true ->
  filepath.IsAbs (filepath.Clean s) = true /\
  filepath.Clean (filepath.Clean s) = filepath.Clean s.
Proof.
  intros Habs. rewrite (Clean_rooted s Habs).
  set (elems := rev (fold_left (filepath.cleanStep true) (Str.SplitSlash s) [])).
  assert (Hk : Forall keptElem elems).
  { apply Forall_rev. apply fold_cleanStep_result; [apply SplitSlash_noSlash|constructor]. }
  split; [apply IsAbs_slash|].
  rewrite Clean_rooted by apply IsAbs_slash. f_equal.
  change (Str.SplitSlash (String Str.slash (Str.Join elems "/")))
    with ("" :: Str.SplitSlash (Str.Join elems "/")).
  change (fold_left (filepath.cleanStep true) ("" :: Str.SplitSlash (Str.Join elems "/")) [])
    with (fold_left (filepath.cleanStep true) (Str.SplitSlash (Str.Join elems "/")) []).
  destruct elems as [|e rest] eqn:He.
  - reflexivity.
  - rewrite SplitSlash_Join.
    + rewrite fold_cleanStep_kept by assumption.
      now rewrite app_nil_r, rev_involutive.
    + discriminate.
    + eapply Forall_impl; [exact Hk|]. now intros a (Ha & _).
Qed.

Lemma Abs_idem (w : World) (path : string) :
  filepath.IsAbs (cwd w) = true -> Abs w (Abs w path) = Abs w path.
Proof.
  intros Hcwd. unfold Abs.
  assert (Hr : exists s, filepath.IsAbs s = true /\
                         filepath.Abs (cwd w) path = filepath.Clean s).
  { unfold filepath.Abs. destruct (filepath.IsAbs path) eqn:Hp.
    - now exists path.
    - destruct (IsAbs_inv _ Hcwd) as [r Hr]. rewrite Hr.
      exists (String Str.slash r +:+ "/" +:+ path).
      split; [apply IsAbs_slash|reflexivity]. }
  destruct Hr as (s & Hs & ->).
  destruct (Clean_rooted_idem s Hs) as [Ha Hc].
  unfold filepath.Abs. now rewrite Ha.
Qed.

(* ===================================================================== *)
(** * Section headers *)
(* ===================================================================== *)

(** C8: the header of a section with source label [S] is the template of
    the selected style -- xml, minimal, full or none -- and every other
    style value gives the xml template. *)
Theorem formatSectionHeader_templates (S style : string) :
  formatSectionHeader S "xml"
    = Str.nl +:+ "<!-- pcp-source: " +:+ S +:+ " -->" +:+ Str.nl /\
  formatSectionHeader S "minimal"
    = Str.nl +:+ "=== PCP SOURCE: " +:+ S +:+ " ===" +:+ Str.nl /\
  formatSectionHeader S "full"
    = Str.nl +:+ "----------------------------------" +:+ Str.nl +:+
      "BEGIN: " +:+ S +:+ Str.nl +:+
      "----------------------------------" +:+ Str.nl /\
  formatSectionHeader S "none" = Str.nl /\
  (style <> "xml" -> style <> "minimal" -> style <> "full" ->
   style <> "none" ->
   formatSectionHeader S style
     = Str.nl +:+ "<!-- pcp-source: " +:+ S +:+ " -->" +:+ Str.nl).
Proof.
  repeat split; try reflexivity.
  intros Hx Hm Hf Hn. unfold formatSectionHeader.
  destruct (String.eqb_spec style "xml"); [reflexivity|].
  destruct (String.eqb_spec style "minimal"); [contradiction|].
  destruct (String.eqb_spec style "none"); [contradiction|].
  destruct (String.eqb_spec style "full"); [contradiction|].
  reflexivity.
Qed.

Lemma formatSectionHeader_templates_witness :
  formatSectionHeader "notes.txt" "yaml"
    = Str.nl +:+ "<!-- pcp-source: notes.txt -->" +:+ Str.nl.
Proof.
  apply (proj2 (proj2 (proj2 (proj2
          (formatSectionHeader_templates "notes.txt" "yaml")))));
    discriminate.
Defined.

(* ===================================================================== *)
(** * Path resolution *)
(* ===================================================================== *)

Lemma ResolvePath_resolveFrom (ctx : ProcessingContext) (path : string) :
  ResolvePath ctx path = resolveFrom (basePath ctx) path.
Proof. reflexivity. Qed.

(** C10: an absolute path resolves to itself whatever the base directory
    is, so a [file] operation and a [prompt] operation on it touch exactly
    that path and a [file] operation gives the same result under every base
    directory; only a relative path is joined to the base directory. *)
Theorem ResolvePath_absolute_verbatim (w : World) (ctx : ProcessingContext)
    (path : string) :
  filepath.IsAbs path = true ->
  (forall base, ResolvePath (set_basePath base ctx) path = path) /\
  (forall base,
     processFileOperation w path (set_basePath base ctx)
     = match processFileOperation w path ctx with
       | Some (r, ctx', t) => Some (r, set_basePath base ctx', t)
       | None => None
       end) /\
  (exists r ctx' t,
     processFileOperation w path ctx = Some (r, ctx', EvStat path :: t)) /\
  (forall base rec r ctx' t,
     processPromptOperation w rec path (set_basePath base ctx)
       = Some (r, ctx', t) ->
     (IsVisited w ctx path = true /\ t = []) \/
     (exists t', t = EvReadPromptFile path :: t')) /\
  (forall rel, filepath.IsAbs rel = false ->
     ResolvePath ctx rel = filepath.Join (basePath ctx) rel).
Proof.
  intros Habs.
  assert (Hres : forall c, ResolvePath c path = path).
  { intros c. unfold ResolvePath. now rewrite Habs. }
  split; [intros base; apply Hres|].
  split.
  { intros base. unfold processFileOperation, isBinaryFile. run.
    rewrite !Hres.
    destruct (os_NotExist w path); [reflexivity|].
    destruct (os_ReadFile w path) as [data|]; run; [|reflexivity].
    destruct (Str.existsb isZeroByte (Str.take 512 data)); run;
      [reflexivity|].
    destruct (maxWords ctx <? wrap64 (wordCount ctx + countWords data));
      reflexivity. }
  split.
  { unfold processFileOperation, isBinaryFile. run.
    rewrite Hres.
    destruct (os_NotExist w path); [eauto|].
    destruct (os_ReadFile w path) as [data|]; run; [|eauto].
    destruct (Str.existsb isZeroByte (Str.take 512 data)); run; [eauto|].
    destruct (maxWords ctx <? wrap64 (wordCount ctx + countWords data));
      eauto. }
  split.
  { intros base rec r ctx' t. unfold processPromptOperation.
    rewrite bind_get, Hres.
    change (IsVisited w (set_basePath base ctx) path) with (IsVisited w ctx path).
    destruct (IsVisited w ctx path) eqn:Hv.
    - unfold fail. intros [= <- <- <-]. now left.
    - intros Hb. right.
      apply bind_inv in Hb as [(e & Hp & _)|(pf & c1 & t1 & t2 & Hp & _ & ->)];
        rewrite parsePromptFile_run in Hp; injection Hp as _ _ <-; eauto. }
  intros rel Hrel. unfold ResolvePath. now rewrite Hrel.
Qed.

Lemma ResolvePath_absolute_verbatim_witness :
  ResolvePath
    (set_basePath "/elsewhere" (NewProcessingContext "/a/main.yml" 10 "xml"))
    "/etc/motd" = "/etc/motd".
Proof.
  apply (ResolvePath_absolute_verbatim Fixtures.wTexts
           (NewProcessingContext "/a/main.yml" 10 "xml") "/etc/motd").
  reflexivity.
Defined.

(* ===================================================================== *)
(** * Section content *)
(* ===================================================================== *)

(** C7, on the code: a [text] and a [file] operation store their content
    as it is; neither [abc] nor the file content [Hello World] ends with a
    line terminator. *)
Lemma section_content_is_stored_verbatim :
  exists ctx' t,
    processOperations (processOperation Fixtures.wTexts 1)
      [Fixtures.opText "abc"; Fixtures.opFile "hello.txt"]
      (NewProcessingContext "/work/p.yml" 128000 "xml")
    = Some (Ok [mkContentSection "text" "abc" TextOp;
                mkContentSection "hello.txt" "Hello World" FileOp], ctx', t) /\
    Str.endsWithOneNewline "abc" = false /\
    Str.endsWithOneNewline "Hello World" = false.
Proof. do 2 eexists. repeat split; vm_compute; reflexivity. Qed.

(* ===================================================================== *)
(** * Commands *)
(* ===================================================================== *)

(** C4 as stated fails: a command that exits with status 0 does not make
    the operation succeed when its output takes the running total over the
    budget. *)
Lemma command_exit_0_can_exceed_budget :
  sh Fixtures.wShell "echo a b" = Exited 0 ("a b" +:+ Str.nl) /\
  exists ctx',
    processCommandOperation Fixtures.wShell "echo a b"
      (NewProcessingContext "/work/p.yml" 1 "xml")
    = Some (Err (ErrWordLimitExceeded 2 1), ctx',
            [EvExec "echo a b"; EvAddWords 2]).
Proof. split; [reflexivity|]. eexists. vm_compute. reflexivity. Qed.

(** C4, amended: exit status 0 makes the captured output the content of the
    section; exit status 1 does the same after a warning on the diagnostic
    stream; in both cases the operation succeeds unless charging the words
    of the output takes the running total over the budget, which is a
    [WordLimitExceeded] failure.  Every other outcome -- another exit
    status, termination by a signal, failure to start -- is [CommandFailed]
    with the command and the underlying error, without charge and without
    section. *)
Theorem processCommandOperation_exit_policy (w : World) (command : string)
    (ctx : ProcessingContext) :
  processCommandOperation w command ctx =
  match sh w command with
  | Exited code out =>
      let sec := mkContentSection command out CommandOp in
      if code =? 0 then
        Some (fst (afterCharge ctx sec), snd (afterCharge ctx sec),
              [EvExec command; EvAddWords (countWords out)])
      else if code =? 1 then
        Some (fst (afterCharge ctx sec), snd (afterCharge ctx sec),
              [EvExec command; EvStderr (warningStatus1 command);
               EvAddWords (countWords out)])
      else
        Some (Err (ErrCommandFailed command ("exit status " +:+ pretty code)),
              ctx, [EvExec command])
  | Signaled out e =>
      Some (Err (ErrCommandFailed command e), ctx, [EvExec command])
  | SpawnFailed e =>
      Some (Err (ErrCommandFailed command e), ctx, [EvExec command])
  end.
Proof.
  unfold processCommandOperation, afterCharge.
  destruct (sh w command) as [code out|out e|e]; simpl.
  - destruct (Z.eqb_spec code 0) as [->|H0]; run.
    + destruct (maxWords ctx <? wrap64 (wordCount ctx + countWords out));
        reflexivity.
    + destruct (Z.eqb_spec code 1) as [->|H1]; run.
      * destruct (maxWords ctx <? wrap64 (wordCount ctx + countWords out));
          reflexivity.
      * destruct code as [|p|p]; try contradiction; try reflexivity.
        destruct p; try reflexivity. contradiction.
  - reflexivity.
  - reflexivity.
Qed.

(* ===================================================================== *)
(** * The validation walk, step by step *)
(* ===================================================================== *)

Lemma validate_S (w : World) (fuel : nat) (filePath : string) ctx :
  validatePromptFileStructure w (S fuel) filePath ctx =
  let absPath := Abs w filePath in
  if IsVisited w ctx absPath
  then Some (Err (ErrCircularReference filePath (getVisitedPaths ctx)), ctx, [])
  else
    let ctx1 :=
      set_visitedFiles (<[Abs w absPath := true]> (visitedFiles ctx)) ctx in
    match parsePromptFileResult w filePath with
    | Err e =>
        Some (Err e, set_visitedFiles (delete absPath (visitedFiles ctx1)) ctx1,
              [EvReadPromptFile filePath])
    | Ok pf =>
        match validateNested (validatePromptFileStructure w fuel)
                (rangePrompt pf) ctx1 with
        | None => None
        | Some (r, ctx2, t) =>
            Some (r, set_visitedFiles (delete absPath (visitedFiles ctx2)) ctx2,
                  EvReadPromptFile filePath :: t)
        end
    end.
Proof.
  cbn [validatePromptFileStructure]. rewrite bind_get. cbv zeta.
  destruct (IsVisited w ctx (Abs w filePath)); [reflexivity|].
  unfold MarkVisited. rewrite bind_modify. unfold defer.
  destruct (parsePromptFileResult w filePath) as [pf|e] eqn:Hp.
  - erewrite bind_ok by (rewrite parsePromptFile_run, Hp; reflexivity).
    destruct (validateNested _ _ _) as [[[r c] t]|]; reflexivity.
  - erewrite bind_err by (rewrite parsePromptFile_run, Hp; reflexivity).
    reflexivity.
Qed.

Lemma validateNested_cons (validate : string -> M unit) (op : Operation)
    (rest : list Operation) ctx :
  validateNested validate (op :: rest) ctx =
  if isPromptRef op
  then bind (validate (ResolvePath ctx (GetValue op)))
            (fun _ => validateNested validate rest) ctx
  else validateNested validate rest ctx.
Proof.
  cbn [validateNested]. unfold isPromptRef.
  destruct (GetType op) as [[]|]; rewrite ?bind_get; reflexivity.
Qed.

(** A property of the runs of the validator that holds for the whole walk
    as soon as it holds for each step. *)
Lemma validateNested_fuel_mono (w : World) (fuel : nat) :
  (forall p ctx x, validatePromptFileStructure w fuel p ctx = Some x ->
                   validatePromptFileStructure w (S fuel) p ctx = Some x) ->
  forall ops ctx x,
    validateNested (validatePromptFileStructure w fuel) ops ctx = Some x ->
    validateNested (validatePromptFileStructure w (S fuel)) ops ctx = Some x.
Proof.
  intros IH ops. induction ops as [|op rest IHops]; intros ctx x; [easy|].
  rewrite !validateNested_cons. destruct (isPromptRef op); [|apply IHops].
  intros H. destruct x as [[r c] t].
  apply bind_inv in H as [(e & Hv & ->)|(a & c1 & t1 & t2 & Hv & Hk & ->)].
  - apply IH in Hv. now rewrite (bind_err _ _ _ _ _ _ Hv).
  - apply IH in Hv. apply IHops in Hk.
    now rewrite (bind_ok _ _ _ _ _ _ Hv), Hk.
Qed.

Lemma validate_fuel_S (w : World) (fuel : nat) :
  forall p ctx x,
    validatePromptFileStructure w fuel p ctx = Some x ->
    validatePromptFileStructure w (S fuel) p ctx = Some x.
Proof.
  induction fuel as [|fuel IH]; intros p ctx x; [discriminate|].
  rewrite (validate_S w (S fuel)), (validate_S w fuel). cbv zeta.
  destruct (IsVisited w ctx (Abs w p)); [easy|].
  destruct (parsePromptFileResult w p) as [pf|e]; [|easy].
  destruct (validateNested (validatePromptFileStructure w fuel) _ _)
    as [[[r c] t]|] eqn:Hn; [|discriminate].
  apply (validateNested_fuel_mono w fuel IH) in Hn. now rewrite Hn.
Qed.

Lemma validate_fuel_le (w : World) (fuel fuel' : nat) p ctx x :
  (fuel <= fuel')%nat ->
  validatePromptFileStructure w fuel p ctx = Some x ->
  validatePromptFileStructure w fuel' p ctx = Some x.
Proof.
  intros Hle. induction Hle as [|m Hle IH]; [easy|].
  intros Hv. now apply validate_fuel_S, IH.
Qed.

Lemma validateNested_fuel_le (w : World) (fuel fuel' : nat) ops ctx x :
  (fuel <= fuel')%nat ->
  validateNested (validatePromptFileStructure w fuel) ops ctx = Some x ->
  validateNested (validatePromptFileStructure w fuel') ops ctx = Some x.
Proof.
  intros Hle. induction Hle as [|m Hle IH]; [easy|]. intros Hv.
  apply validateNested_fuel_mono; [apply validate_fuel_S|]. now apply IH.
Qed.

(** The validator only ever changes the map of visited files, and the only
    thing it does to the environment is to read prompt files. *)
Lemma set_visitedFiles_twice m1 m2 ctx :
  set_visitedFiles m1 (set_visitedFiles m2 ctx) = set_visitedFiles m1 ctx.
Proof. reflexivity. Qed.

Lemma set_visitedFiles_same ctx : set_visitedFiles (visitedFiles ctx) ctx = ctx.
Proof. now destruct ctx. Qed.

Lemma validateNested_frame (w : World) (fuel : nat) :
  (forall p ctx r ctx' t,
     validatePromptFileStructure w fuel p ctx = Some (r, ctx', t) ->
     ctx' = set_visitedFiles (visitedFiles ctx') ctx /\
     Forall (fun e => isReadPromptFile e = true) t) ->
  forall ops ctx r ctx' t,
    validateNested (validatePromptFileStructure w fuel) ops ctx
      = Some (r, ctx', t) ->
    ctx' = set_visitedFiles (visitedFiles ctx') ctx /\
    Forall (fun e => isReadPromptFile e = true) t.
Proof.
  intros IH ops. induction ops as [|op rest IHops]; intros ctx r ctx' t.
  - intros [= <- <- <-]. split; [now rewrite set_visitedFiles_same|constructor].
  - rewrite validateNested_cons. destruct (isPromptRef op); [|apply IHops].
    intros H.
    apply bind_inv in H as [(e & Hv & ->)|(a & c1 & t1 & t2 & Hv & Hk & ->)].
    + now apply IH in Hv.
    + apply IH in Hv as [Hc1 Ht1]. apply IHops in Hk as [Hc2 Ht2].
      split; [|now apply Forall_app].
      rewrite Hc2, Hc1. reflexivity.
Qed.

Lemma validate_frame (w : World) (fuel : nat) :
  forall p ctx r ctx' t,
    validatePromptFileStructure w fuel p ctx = Some (r, ctx', t) ->
    ctx' = set_visitedFiles (visitedFiles ctx') ctx /\
    Forall (fun e => isReadPromptFile e = true) t.
Proof.
  induction fuel as [|fuel IH]; intros p ctx r ctx' t; [discriminate|].
  rewrite validate_S. cbv zeta.
  destruct (IsVisited w ctx (Abs w p)).
  { intros [= <- <- <-]. split; [now rewrite set_visitedFiles_same|constructor]. }
  destruct (parsePromptFileResult w p) as [pf|e].
  - destruct (validateNested _ _ _) as [[[r2 c2] t2]|] eqn:Hn; [|discriminate].
    intros [= <- <- <-].
    apply (validateNested_frame w fuel IH) in Hn as [Hc Ht].
    split; [|constructor; [reflexivity|exact Ht]].
    rewrite Hc. reflexivity.
  - intros [= <- <- <-]. split; [reflexivity|repeat constructor].
Qed.

Lemma validate_basePath (w : World) (fuel : nat) p ctx r ctx' t :
  validatePromptFileStructure w fuel p ctx = Some (r, ctx', t) ->
  basePath ctx' = basePath ctx.
Proof. intros H. apply validate_frame in H as [-> _]. reflexivity. Qed.

(** A successful validation leaves the context as it found it: the
    document is unmarked again when its subtree is done. *)
Lemma onlyTrue_insert (m : gmap string bool) k :
  onlyTrue m -> onlyTrue (<[k := true]> m).
Proof.
  intros Hm k'. destruct (decide (k = k')) as [->|Hne].
  - rewrite lookup_insert_eq. discriminate.
  - rewrite lookup_insert_ne by assumption. apply Hm.
Qed.

Lemma IsVisited_false_None (w : World) ctx path :
  onlyTrue (visitedFiles ctx) -> IsVisited w ctx path = false ->
  visitedFiles ctx !! Abs w path = None.
Proof.
  unfold IsVisited. intros Hm.
  destruct (visitedFiles ctx !! Abs w path) as [[]|] eqn:Hl; cbn; try easy.
  intros _. now elim (Hm (Abs w path)).
Qed.

Lemma validateNested_ok_restores (w : World) (fuel : nat) :
  (forall p ctx ctx' t, onlyTrue (visitedFiles ctx) ->
     validatePromptFileStructure w fuel p ctx = Some (Ok tt, ctx', t) ->
     ctx' = ctx) ->
  forall ops ctx ctx' t, onlyTrue (visitedFiles ctx) ->
    validateNested (validatePromptFileStructure w fuel) ops ctx
      = Some (Ok tt, ctx', t) ->
    ctx' = ctx.
Proof.
  intros IH ops. induction ops as [|op rest IHops]; intros ctx ctx' t Hm.
  - now intros [= <- <-].
  - rewrite validateNested_cons. destruct (isPromptRef op); [|now apply IHops].
    intros H.
    apply bind_inv in H as [(e & Hv & [=])|(a & c1 & t1 & t2 & Hv & Hk & ->)].
    destruct a. apply IH in Hv; [|exact Hm]. subst c1. now apply IHops in Hk.
Qed.

Lemma validate_ok_restores (w : World) (fuel : nat) :
  filepath.IsAbs (cwd w) = true ->
  forall p ctx ctx' t, onlyTrue (visitedFiles ctx) ->
    validatePromptFileStructure w fuel p ctx = Some (Ok tt, ctx', t) ->
    ctx' = ctx.
Proof.
  intros Hcwd. induction fuel as [|fuel IH]; intros p ctx ctx' t Hm;
    [discriminate|].
  rewrite validate_S. cbv zeta. rewrite Abs_idem by assumption.
  destruct (IsVisited w ctx (Abs w p)) eqn:Hv; [discriminate|].
  destruct (parsePromptFileResult w p) as [pf|e]; [|discriminate].
  destruct (validateNested _ _ _) as [[[r2 c2] t2]|] eqn:Hn; [|discriminate].
  intros [= -> <- <-].
  apply (validateNested_ok_restores w fuel IH) in Hn;
    [|now apply onlyTrue_insert].
  subst c2. rewrite set_visitedFiles_twice.
  cbn [visitedFiles set_visitedFiles].
  rewrite delete_insert_eq.
  rewrite delete_id; [apply set_visitedFiles_same|].
  apply IsVisited_false_None in Hv; [|exact Hm].
  now rewrite Abs_idem in Hv.
Qed.

Lemma validateNested_app (validate : string -> M unit) (pre rest : list Operation) ctx :
  validateNested validate (pre ++ rest) ctx
  = bind (validateNested validate pre) (fun _ => validateNested validate rest) ctx.
Proof.
  revert ctx. induction pre as [|op pre IH]; intros ctx.
  - cbn [app validateNested]. now rewrite bind_ret.
  - cbn [app]. unfold bind at 1. rewrite !validateNested_cons.
    destruct (isPromptRef op).
    + unfold bind at 1 2.
      destruct (validate _ ctx) as [[[[a|e] c1] t1]|]; [| reflexivity..].
      rewrite IH. unfold bind.
      destruct (validateNested validate pre c1) as [[[[a2|e2] c2] t2]|];
        [| reflexivity..].
      destruct (validateNested validate rest c2) as [[[r3 c3] t3]|];
        [|reflexivity].
      now rewrite app_assoc.
    + rewrite IH. reflexivity.
Qed.

Lemma validateNested_skip_ok (w : World) (fuel fuel' : nat)
    (pre rest : list Operation) ctx ctx' t :
  filepath.IsAbs (cwd w) = true -> onlyTrue (visitedFiles ctx) ->
  (fuel <= fuel')%nat ->
  validateNested (validatePromptFileStructure w fuel) pre ctx
    = Some (Ok tt, ctx', t) ->
  validateNested (validatePromptFileStructure w fuel') (pre ++ rest) ctx
  = match validateNested (validatePromptFileStructure w fuel') rest ctx with
    | Some (r, c, t') => Some (r, c, t ++ t')
    | None => None
    end.
Proof.
  intros Hcwd Hm Hle Hpre.
  assert (ctx' = ctx) as ->.
  { eapply validateNested_ok_restores; [|exact Hm|exact Hpre].
    intros p c c' t0. now apply validate_ok_restores. }
  apply (validateNested_fuel_le w fuel fuel') in Hpre; [|exact Hle].
  rewrite validateNested_app. now rewrite (bind_ok _ _ _ _ _ _ Hpre).
Qed.

Lemma onlyTrue_empty : onlyTrue ∅.
Proof. intros k. now rewrite lookup_empty. Qed.

Lemma NewProcessingContext_basePath p mw style :
  basePath (NewProcessingContext p mw style) = filepath.Dir p.
Proof. reflexivity. Qed.

(** The validation walk of a root document [A] that names [B], which names
    [A] again, ends in [CircularReference] when it gets to the reference
    back to [A]. *)
Lemma validate_mutual_reference (w : World) (fuel : nat) (A : string)
    (pfA pfB : PromptFile) (preA postA preB postB : list Operation)
    (toB toA : Operation) (maxWords : Z) (style : string) :
  let ctx0 := NewProcessingContext A maxWords style in
  let B := resolveFrom (filepath.Dir A) (GetValue toB) in
  let ctxA := set_visitedFiles {[Abs w A := true]} ctx0 in
  let ctxB := set_visitedFiles (<[Abs w B := true]> {[Abs w A := true]}) ctx0 in
  filepath.IsAbs (cwd w) = true ->
  parsePromptFileResult w A = Ok pfA ->
  rangePrompt pfA = preA ++ toB :: postA -> isPromptRef toB = true ->
  parsePromptFileResult w B = Ok pfB ->
  rangePrompt pfB = preB ++ toA :: postB -> isPromptRef toA = true ->
  Abs w (resolveFrom (filepath.Dir B) (GetValue toA)) = Abs w A ->
  resolveFrom (filepath.Dir A) (GetValue toA)
    = resolveFrom (filepath.Dir B) (GetValue toA) ->
  (exists c tA, validateNested (validatePromptFileStructure w fuel) preA ctxA
                = Some (Ok tt, c, tA)) ->
  (exists c tB, validateNested (validatePromptFileStructure w fuel) preB ctxB
                = Some (Ok tt, c, tB)) ->
  forall fuel', (fuel + 3 <= fuel')%nat ->
  exists file stack c t,
    validatePromptFileStructure w fuel' A ctx0
    = Some (Err (ErrCircularReference file stack), c, t).
Proof.
  intros ctx0 B ctxA ctxB Hcwd HpA HopsA HtoB HpB HopsB HtoA Hback Hagree
         (cA & tA & HpreA) (cB & tB & HpreB) fuel' Hfuel.
  destruct fuel' as [|[|[|f]]]; try lia.
  assert (Hf : (fuel <= f)%nat) by lia.
  assert (HmA : onlyTrue (visitedFiles ctxA)).
  { intros k. cbn. destruct (decide (Abs w A = k)) as [->|Hne].
    - rewrite lookup_singleton_eq. discriminate.
    - rewrite lookup_singleton_ne by assumption. discriminate. }
  assert (HmB : onlyTrue (visitedFiles ctxB)).
  { cbn. apply onlyTrue_insert. exact HmA. }
  rewrite validate_S. cbv zeta.
  assert (Hv0 : IsVisited w ctx0 (Abs w A) = false) by reflexivity.
  rewrite Hv0, HpA, HopsA, Abs_idem by assumption.
  change (set_visitedFiles (<[Abs w A:=true]> (visitedFiles ctx0)) ctx0)
    with (set_visitedFiles (<[Abs w A:=true]> ∅) ctx0).
  rewrite insert_empty. fold ctxA.
  rewrite (validateNested_skip_ok w fuel (S (S f)) preA _ ctxA cA tA)
    by (try assumption; lia).
  rewrite validateNested_cons, HtoB.
  change (ResolvePath ctxA (GetValue toB)) with B.
  (* entering B *)
  assert (HB : exists file stack c t,
             validatePromptFileStructure w (S (S f)) B ctxA
             = Some (Err (ErrCircularReference file stack), c, t)).
  { rewrite validate_S. cbv zeta. rewrite Abs_idem by assumption.
    destruct (IsVisited w ctxA (Abs w B)) eqn:HvB; [eauto|].
    rewrite HpB, HopsB.
    assert (HneAB : Abs w A <> Abs w B).
    { intros Heq. unfold IsVisited in HvB. rewrite Abs_idem in HvB by assumption.
      cbn in HvB. rewrite <- Heq, lookup_singleton_eq in HvB. discriminate. }
    change (set_visitedFiles (<[Abs w B:=true]> (visitedFiles ctxA)) ctxA)
      with ctxB.
    rewrite (validateNested_skip_ok w fuel (S f) preB _ ctxB cB tB)
      by (try assumption; lia).
    rewrite validateNested_cons, HtoA.
    change (ResolvePath ctxB (GetValue toA))
      with (resolveFrom (filepath.Dir A) (GetValue toA)).
    rewrite Hagree.
    set (R := resolveFrom (filepath.Dir B) (GetValue toA)) in *.
    assert (HR : validatePromptFileStructure w (S f) R ctxB
                 = Some (Err (ErrCircularReference R (getVisitedPaths ctxB)),
                         ctxB, [])).
    { rewrite validate_S. cbv zeta.
      assert (Hvis : IsVisited w ctxB (Abs w R) = true).
      { unfold IsVisited. rewrite Abs_idem by assumption. rewrite Hback. cbn.
        rewrite lookup_insert_ne by congruence.
        now rewrite lookup_singleton_eq. }
      now rewrite Hvis. }
    rewrite (bind_err _ _ _ _ _ _ HR). eauto. }
  destruct HB as (file & stack & c & t & HB).
  rewrite (bind_err _ _ _ _ _ _ HB). eauto.
Qed.

(* ===================================================================== *)
(** * The execution walk, step by step *)
(* ===================================================================== *)

Lemma AddWords_run (count : Z) ctx :
  AddWords count ctx
  = let total := wrap64 (wordCount ctx + count) in
    Some (if maxWords ctx <? total
          then Err (ErrWordLimitExceeded total (maxWords ctx))
          else Ok tt,
          set_wordCount total ctx, [EvAddWords count]).
Proof.
  unfold AddWords. run. cbv zeta.
  destruct (maxWords ctx <? wrap64 (wordCount ctx + count)); reflexivity.
Qed.

Lemma AddWords_then_ret (sec : ContentSection) ctx :
  bind (AddWords (countWords (Content sec))) (fun _ => ret sec) ctx
  = Some (fst (afterCharge ctx sec), snd (afterCharge ctx sec),
          [EvAddWords (countWords (Content sec))]).
Proof.
  unfold bind. rewrite AddWords_run. cbv zeta. unfold afterCharge. cbn [fst snd].
  destruct (maxWords ctx <? wrap64 (wordCount ctx + countWords (Content sec)));
    reflexivity.
Qed.

Lemma isBinaryFile_run (w : World) (filePath : string) ctx :
  isBinaryFile w filePath ctx
  = Some (Ok match os_ReadFile w filePath with
             | None => false
             | Some data => Str.existsb isZeroByte (Str.take 512 data)
             end, ctx, [EvProbe filePath]).
Proof.
  unfold isBinaryFile. rewrite bind_emit.
  destruct (os_ReadFile w filePath); reflexivity.
Qed.

(** A [file], [command] or [text] operation fetches its content and then
    charges the budget. *)
Lemma processOperation_flat (w : World) (fuel : nat) (op : Operation) ctx :
  isPromptRef op = false ->
  processOperation w fuel op ctx = charge (fetch w (basePath ctx) op) ctx.
Proof.
  unfold isPromptRef, fetch. intros Hflat.
  assert (Hop : processOperation w fuel op ctx
          = match GetType op with
            | Err e => Some (Err e, ctx, [])
            | Ok FileOp => processFileOperation w (GetValue op) ctx
            | Ok PromptOp => processOperation w fuel op ctx
            | Ok CommandOp => processCommandOperation w (GetValue op) ctx
            | Ok TextOp => processTextOperation (GetValue op) ctx
            end).
  { destruct fuel; cbn [processOperation];
      destruct (GetType op) as [[]|e]; reflexivity. }
  rewrite Hop. clear Hop. cbv zeta.
  destruct (GetType op) as [[]|e]; [|discriminate| | |reflexivity].
  - unfold processFileOperation. rewrite bind_get, bind_emit.
    rewrite ResolvePath_resolveFrom.
    destruct (os_NotExist w _); [reflexivity|].
    rewrite (bind_ok _ _ _ _ _ _ (isBinaryFile_run w _ ctx)).
    destruct (os_ReadFile w _) as [data|]; [|reflexivity].
    destruct (Str.existsb isZeroByte (Str.take 512 data)); [reflexivity|].
    rewrite bind_emit.
    rewrite (AddWords_then_ret (mkContentSection (GetValue op) data FileOp)).
    reflexivity.
  - unfold processCommandOperation. rewrite bind_emit.
    destruct (cmdErr (sh w (GetValue op))) as [e|].
    + destruct (cmdProcessState (sh w (GetValue op))) as [[|[]|]|];
        try reflexivity.
      rewrite bind_emit.
      rewrite (AddWords_then_ret
                 (mkContentSection (GetValue op) (cmdOutput (sh w (GetValue op)))
                                   CommandOp)).
      reflexivity.
    + rewrite bind_ret.
      rewrite (AddWords_then_ret
                 (mkContentSection (GetValue op) (cmdOutput (sh w (GetValue op)))
                                   CommandOp)).
      reflexivity.
  - unfold processTextOperation.
    rewrite (AddWords_then_ret (mkContentSection "text" (GetValue op) TextOp)).
    reflexivity.
Qed.

Lemma processOperation_prompt (w : World) (fuel : nat) (op : Operation) ctx :
  isPromptRef op = true ->
  processOperation w (S fuel) op ctx
  = processPromptOperation w (processOperation w fuel) (GetValue op) ctx.
Proof.
  unfold isPromptRef. cbn [processOperation].
  destruct (GetType op) as [[]|e]; try discriminate. reflexivity.
Qed.

Lemma processOperation_prompt_0 (w : World) (op : Operation) ctx :
  isPromptRef op = true -> processOperation w 0 op ctx = None.
Proof.
  unfold isPromptRef. cbn [processOperation].
  destruct (GetType op) as [[]|e]; try discriminate. reflexivity.
Qed.

Lemma processPromptOperation_run (w : World)
    (rec : Operation -> M ContentSection) (promptPath : string) ctx :
  processPromptOperation w rec promptPath ctx =
  let resolvedPath := ResolvePath ctx promptPath in
  if IsVisited w ctx resolvedPath
  then Some (Err (ErrCircularReference resolvedPath (getVisitedPaths ctx)),
             ctx, [])
  else
    match parsePromptFileResult w resolvedPath with
    | Err e => Some (Err e, ctx, [EvReadPromptFile resolvedPath])
    | Ok pf =>
        let ctx1 :=
          set_visitedFiles (<[Abs w resolvedPath := true]> (visitedFiles ctx))
            (set_basePath (filepath.Dir resolvedPath) ctx) in
        match processOperations rec (rangePrompt pf) ctx1 with
        | None => None
        | Some (Err e, c2, t) =>
            Some (Err e, c2, EvReadPromptFile resolvedPath :: t)
        | Some (Ok allSections, c2, t) =>
            let c3 :=
              set_basePath (basePath ctx)
                (set_visitedFiles (delete resolvedPath (visitedFiles c2)) c2) in
            let sec :=
              mkContentSection promptPath
                (combineSections 0 promptPath (delimiterStyle ctx) allSections)
                PromptOp in
            Some (fst (afterCharge c3 sec), snd (afterCharge c3 sec),
                  EvReadPromptFile resolvedPath ::
                  t ++ [EvAddWords (countWords (Content sec))])
        end
    end.
Proof.
  unfold processPromptOperation. rewrite bind_get. cbv zeta.
  destruct (IsVisited w ctx (ResolvePath ctx promptPath)); [reflexivity|].
  destruct (parsePromptFileResult w (ResolvePath ctx promptPath)) as [pf|e] eqn:Hp.
  - erewrite bind_ok by (rewrite parsePromptFile_run, Hp; reflexivity).
    rewrite bind_modify. unfold MarkVisited. rewrite bind_modify.
    unfold bind at 1.
    destruct (processOperations rec (rangePrompt pf) _) as [[[[secs|e] c2] t]|];
      [|reflexivity..].
    rewrite !bind_modify.
    rewrite (AddWords_then_ret
               (mkContentSection promptPath
                  (combineSections 0 promptPath (delimiterStyle ctx) secs) PromptOp)).
    reflexivity.
  - erewrite bind_err by (rewrite parsePromptFile_run, Hp; reflexivity).
    reflexivity.
Qed.

(* ===================================================================== *)
(** * What the execution walk keeps *)
(* ===================================================================== *)

Lemma wrap64_add_l (a b : Z) : wrap64 (wrap64 a + b) = wrap64 (a + b).
Proof.
  unfold wrap64.
  replace ((a + 2 ^ 63) mod 2 ^ 64 - 2 ^ 63 + b + 2 ^ 63)
    with ((a + 2 ^ 63) mod 2 ^ 64 + b) by lia.
  rewrite Zplus_mod_idemp_l. f_equal. f_equal. lia.
Qed.

Lemma wrap64_idem (a : Z) : wrap64 (wrap64 a) = wrap64 a.
Proof.
  pose proof (wrap64_add_l a 0) as H. now rewrite !Z.add_0_r in H.
Qed.

Lemma wrap64_small (a : Z) : - 2 ^ 63 <= a < 2 ^ 63 -> wrap64 a = a.
Proof. intros H. unfold wrap64. rewrite Z.mod_small; lia. Qed.

Lemma wrap64_range (a : Z) : - 2 ^ 63 <= wrap64 a < 2 ^ 63.
Proof.
  unfold wrap64. pose proof (Z.mod_pos_bound (a + 2 ^ 63) (2 ^ 64)). lia.
Qed.

Lemma countWords_nonneg (s : string) : 0 <= countWords s.
Proof. unfold countWords. destruct (Str.is_empty s); lia. Qed.

Lemma sectionWords_nonneg (secs : list ContentSection) : 0 <= sectionWords secs.
Proof.
  induction secs as [|s rest IH]; cbn [sectionWords]; [lia|].
  pose proof (countWords_nonneg (Content s)). lia.
Qed.

Lemma charged_app (t1 t2 : list Event) :
  charged (t1 ++ t2) = charged t1 + charged t2.
Proof.
  induction t1 as [|e t1 IH]; [reflexivity|].
  destruct e; cbn [app charged]; rewrite IH; lia.
Qed.

Lemma stepInv_nil ctx : stepInv ctx ctx [].
Proof.
  unfold stepInv. cbn [charged]. rewrite Z.add_0_r.
  repeat split; try constructor; lia.
Qed.

Lemma stepInv_trans c1 c2 c3 t1 t2 :
  stepInv c1 c2 t1 -> stepInv c2 c3 t2 -> stepInv c1 c3 (t1 ++ t2).
Proof.
  intros (Ho1 & Hm1 & Hd1 & Hw1 & Hc1) (Ho2 & Hm2 & Hd2 & Hw2 & Hc2).
  unfold stepInv. rewrite charged_app.
  repeat split; try congruence; try lia.
  - now apply Forall_app.
  - rewrite Hw2, <- wrap64_add_l, Hw1, wrap64_add_l. f_equal. lia.
Qed.

Lemma stepInv_frame c1 c2 t (f g : ProcessingContext -> ProcessingContext) :
  (forall c, maxWords (f c) = maxWords c /\ delimiterStyle (f c) = delimiterStyle c
             /\ wordCount (f c) = wordCount c) ->
  (forall c, maxWords (g c) = maxWords c /\ delimiterStyle (g c) = delimiterStyle c
             /\ wordCount (g c) = wordCount c) ->
  stepInv (f c1) c2 t -> stepInv c1 (g c2) t.
Proof.
  intros Hf Hg (Ho & Hm & Hd & Hw & Hc).
  destruct (Hf c1) as (? & ? & ?). destruct (Hg c2) as (? & ? & ?).
  unfold stepInv. repeat split; try congruence; assumption.
Qed.

Lemma afterCharge_stepInv ctx sec :
  stepInv ctx (snd (afterCharge ctx sec)) [EvAddWords (countWords (Content sec))].
Proof.
  unfold stepInv, afterCharge. cbn [snd charged maxWords delimiterStyle wordCount set_wordCount].
  pose proof (countWords_nonneg (Content sec)).
  repeat split; try lia.
  - repeat constructor.
  - rewrite wrap64_idem. f_equal. lia.
Qed.

Lemma fetch_no_output (w : World) base op :
  Forall (fun e => isOutput e = false) (snd (fetch w base op)) /\
  charged (snd (fetch w base op)) = 0.
Proof.
  unfold fetch. cbv zeta.
  destruct (GetType op) as [[]|e]; cbn [snd]; try (split; [constructor|reflexivity]).
  - destruct (os_NotExist w _); [split; [repeat constructor|reflexivity]|].
    destruct (os_ReadFile w _) as [data|];
      [destruct (Str.existsb _ _)|]; split; repeat constructor.
  - destruct (cmdErr _) as [e|];
      [destruct (cmdProcessState _) as [[|[]|]|]|];
      split; repeat constructor.
Qed.

Lemma charge_stepInv f ctx r ctx' t :
  Forall (fun e => isOutput e = false) (snd f) -> charged (snd f) = 0 ->
  charge f ctx = Some (r, ctx', t) -> stepInv ctx ctx' t.
Proof.
  destruct f as [[sec|e] t0]; cbn [snd charge]; intros Ho Hc [= <- <- <-].
  - replace t0 with (t0 ++ []) at 1 by apply app_nil_r.
    rewrite <- app_assoc. cbn [app].
    apply (stepInv_trans ctx ctx); [|apply afterCharge_stepInv].
    unfold stepInv. rewrite Hc, Z.add_0_r. repeat split; try assumption; lia.
  - unfold stepInv. rewrite Hc, Z.add_0_r. repeat split; try assumption; lia.
Qed.

Lemma afterCharge_Ok ctx sec sec' :
  fst (afterCharge ctx sec) = Ok sec' -> sec' = sec.
Proof.
  unfold afterCharge. cbn [fst]. destruct (_ <? _); [discriminate|].
  now intros [= <-].
Qed.

Lemma afterCharge_basePath ctx sec :
  basePath (snd (afterCharge ctx sec)) = basePath ctx.
Proof. reflexivity. Qed.

Lemma isPromptRef_true (op : Operation) :
  isPromptRef op = true -> GetType op = Ok PromptOp.
Proof.
  unfold isPromptRef. destruct (GetType op) as [[]|]; easy.
Qed.

Lemma fetch_SectionFor (w : World) (style base : string) (op : Operation)
    (sec : ContentSection) :
  isPromptRef op = false -> fst (fetch w base op) = Ok sec ->
  SectionFor w style base op sec.
Proof.
  unfold isPromptRef, fetch. cbv zeta.
  destruct (GetType op) as [[]|e] eqn:Ht; cbn [fst]; try discriminate; intros _.
  - destruct (os_NotExist w _); [discriminate|].
    destruct (os_ReadFile w _) as [data|] eqn:Hr; [|discriminate].
    destruct (Str.existsb _ _); [discriminate|].
    intros [= <-]. now apply SectionFor_file.
  - destruct (cmdErr _) as [e|];
      [destruct (cmdProcessState _) as [[|[]|]|]|]; try discriminate;
      intros [= <-]; now apply SectionFor_command.
  - intros [= <-]. now apply SectionFor_text.
Qed.

(** The invariant of the execution walk, for the loop over the operations
    of a document given that it holds for one operation... *)
Lemma processOperations_inv (w : World) (P : Operation -> M ContentSection) :
  (forall op ctx r ctx' t, P op ctx = Some (r, ctx', t) ->
     stepInv ctx ctx' t /\ (forall sec, r = Ok sec -> opOk w op ctx sec ctx' t)) ->
  forall ops ctx r ctx' t,
    processOperations P ops ctx = Some (r, ctx', t) ->
    stepInv ctx ctx' t /\ (forall secs, r = Ok secs -> opsOk w ops ctx secs ctx' t).
Proof.
  intros HP ops. induction ops as [|op rest IH]; intros ctx r ctx' t.
  - intros [= <- <- <-]. split; [apply stepInv_nil|].
    intros secs [= <-]. unfold opsOk. cbn. repeat split; [constructor|lia].
  - cbn [processOperations]. intros H.
    apply bind_inv in H as [(e & Hop & ->)|(sec & c1 & t1 & t2 & Hop & Hk & ->)].
    { apply HP in Hop as [Hs _]. split; [exact Hs|discriminate]. }
    apply HP in Hop as [Hs1 Hok1]. specialize (Hok1 sec eq_refl).
    apply bind_inv in Hk as [(e & Hr & ->)|(secs & c2 & t3 & t4 & Hr & Hk & ->)].
    { apply IH in Hr as [Hs2 _]. split; [|discriminate].
      now apply (stepInv_trans ctx c1). }
    apply IH in Hr as [Hs2 Hok2]. specialize (Hok2 secs eq_refl).
    injection Hk as <- <- <-. rewrite app_nil_r.
    split; [now apply (stepInv_trans ctx c1)|].
    intros secs' [= <-].
    destruct Hok1 as (Hb1 & (t0 & -> & Ht0) & Hsec).
    destruct Hok2 as (Hb2 & Hall & Hw).
    destruct Hs1 as (_ & _ & Hd1 & _).
    unfold opsOk. rewrite Hb1, Hd1 in *.
    repeat split; [congruence|now constructor|].
    rewrite !charged_app. cbn [sectionWords charged]. lia.
Qed.

(** ... and for one operation, whatever the depth of nesting. *)
Lemma processOperation_inv (w : World) (fuel : nat) :
  forall op ctx r ctx' t,
    processOperation w fuel op ctx = Some (r, ctx', t) ->
    stepInv ctx ctx' t /\ (forall sec, r = Ok sec -> opOk w op ctx sec ctx' t).
Proof.
  induction fuel as [|fuel IH]; intros op ctx r ctx' t;
    destruct (isPromptRef op) eqn:Href.
  - now rewrite processOperation_prompt_0.
  - rewrite processOperation_flat by assumption. intros H.
    destruct (fetch_no_output w (basePath ctx) op) as [Ho Hc].
    split; [now apply (charge_stepInv _ _ _ _ _ Ho Hc H)|].
    intros sec ->. revert H. unfold charge.
    destruct (fetch w (basePath ctx) op) as [[sec'|e] t0] eqn:Hf;
      [|discriminate].
    intros [= Hsec <- <-]. apply afterCharge_Ok in Hsec as ->.
    repeat split.
    + exists t0. cbn [snd] in Hc. split; [reflexivity|lia].
    + eapply fetch_SectionFor; [exact Href|]. now rewrite Hf.
  - rewrite processOperation_prompt, processPromptOperation_run by assumption.
    cbv zeta. rewrite ResolvePath_resolveFrom.
    set (resolved := resolveFrom (basePath ctx) (GetValue op)).
    destruct (IsVisited w ctx resolved).
    { intros [= <- <- <-]. split; [apply stepInv_nil|discriminate]. }
    destruct (parsePromptFileResult w resolved) as [pf|e] eqn:Hp.
    2:{ intros [= <- <- <-]. split; [|discriminate].
        unfold stepInv. cbn [charged]. rewrite Z.add_0_r.
        repeat split; try lia. repeat constructor. }
    destruct (processOperations _ _ _) as [[[[secs|e] c2] t2]|] eqn:Hops;
      [| |discriminate];
      apply (processOperations_inv w _ IH) in Hops as [Hs Hok].
    + specialize (Hok secs eq_refl). destruct Hok as (Hb & Hall & Hw).
      set (c3 := set_basePath (basePath ctx)
                   (set_visitedFiles (delete resolved (visitedFiles c2)) c2)).
      set (sec := mkContentSection (GetValue op)
                    (combineSections 0 (GetValue op) (delimiterStyle ctx) secs)
                    PromptOp).
      assert (Hs3 : stepInv ctx c3 (EvReadPromptFile resolved :: t2)).
      { apply (stepInv_trans ctx ctx c3 [EvReadPromptFile resolved] t2).
        - unfold stepInv. cbn [charged]. rewrite Z.add_0_r.
          repeat split; try lia. repeat constructor.
        - eapply (stepInv_frame ctx c2 t2
                    (fun c => set_visitedFiles _ (set_basePath _ c))
                    (fun c => set_basePath _ (set_visitedFiles _ c)));
            [now intros c..|exact Hs]. }
      intros [= <- <- <-]. split.
      * exact (stepInv_trans ctx c3 _ _ _ Hs3 (afterCharge_stepInv c3 sec)).
      * intros sec' Hsec. apply (afterCharge_Ok c3 sec) in Hsec as ->.
        repeat split.
        -- exists (EvReadPromptFile resolved :: t2). split; [reflexivity|].
           cbn [charged]. pose proof (sectionWords_nonneg secs). lia.
        -- apply SectionFor_prompt with (pf := pf);
             [now apply isPromptRef_true|exact Hp|exact Hall].
    + intros [= <- <- <-]. split; [|discriminate].
      apply (stepInv_trans ctx ctx c2 [EvReadPromptFile resolved] t2).
      * unfold stepInv. cbn [charged]. rewrite Z.add_0_r.
        repeat split; try lia. repeat constructor.
      * eapply (stepInv_frame ctx c2 t2
                  (fun c => set_visitedFiles _ (set_basePath _ c)) (fun c => c));
          [now intros c..|exact Hs].
  - (* same as the flat case above *)
    rewrite processOperation_flat by assumption. intros H.
    destruct (fetch_no_output w (basePath ctx) op) as [Ho Hc].
    split; [now apply (charge_stepInv _ _ _ _ _ Ho Hc H)|].
    intros sec ->. revert H. unfold charge.
    destruct (fetch w (basePath ctx) op) as [[sec'|e] t0] eqn:Hf;
      [|discriminate].
    intros [= Hsec <- <-]. apply afterCharge_Ok in Hsec as ->.
    repeat split.
    + exists t0. cbn [snd] in Hc. split; [reflexivity|lia].
    + eapply fetch_SectionFor; [exact Href|]. now rewrite Hf.
Qed.

(* ===================================================================== *)
(** * Nested references and cycles in the validation walk *)
(* ===================================================================== *)

(** C1, on the code: the validation walk never switches the base directory.
    With /a/main.yml naming sub/nested.yml, and that document naming its
    sibling deep.yml, the walk looks for /a/deep.yml, which does not exist,
    where the directory of the nested document joined with the reference
    is /a/sub/deep.yml; the execution walk over the same operation reads
    /a/sub/deep.yml. *)
Lemma validator_resolves_nested_reference_from_root_directory :
  let ctx := NewProcessingContext "/a/main.yml" 128000 "xml" in
  filepath.Join (filepath.Dir "/a/sub/nested.yml") "deep.yml" = "/a/sub/deep.yml" /\
  (exists ctx',
     validatePromptFileStructure Fixtures.wNested 3 "/a/main.yml" ctx
     = Some (Err (ErrFileNotFound "/a/deep.yml"), ctx',
             [EvReadPromptFile "/a/main.yml";
              EvReadPromptFile "/a/sub/nested.yml";
              EvReadPromptFile "/a/deep.yml"])) /\
  (exists secs ctx',
     processOperations (processOperation Fixtures.wNested 3)
       [Fixtures.opPrompt "sub/nested.yml"] ctx
     = Some (Ok secs, ctx',
             [EvReadPromptFile "/a/sub/nested.yml";
              EvReadPromptFile "/a/sub/deep.yml";
              EvAddWords 2; EvAddWords 6; EvAddWords 10])).
Proof.
  cbv zeta. split; [reflexivity|]. split.
  - eexists. vm_compute. reflexivity.
  - do 2 eexists. vm_compute. reflexivity.
Qed.

(** C2 as stated fails: a.yml names b.yml and b.yml names a.yml, but a.yml
    first names a document that does not exist, and the run ends with
    [FileNotFound] there. *)
Lemma mutual_reference_behind_a_missing_document :
  parsePromptFileResult Fixtures.wCycleEarly "/work/a.yml"
    = Ok (mkPromptFile (Some [Fixtures.opPrompt "missing.yml";
                              Fixtures.opPrompt "b.yml"])) /\
  parsePromptFileResult Fixtures.wCycleEarly "/work/b.yml"
    = Ok (mkPromptFile (Some [Fixtures.opPrompt "a.yml"])) /\
  resolveFrom (filepath.Dir "/work/a.yml") "b.yml" = "/work/b.yml" /\
  resolveFrom (filepath.Dir "/work/b.yml") "a.yml" = "/work/a.yml" /\
  processPromptFile Fixtures.wCycleEarly 5 "/work/a.yml" "" 128000 "xml"
    = Some (Err (ErrFileNotFound "/work/missing.yml"),
            [EvReadPromptFile "/work/a.yml";
             EvReadPromptFile "/work/missing.yml"]).
Proof. repeat split; vm_compute; reflexivity. Qed.

Lemma isReadPromptFile_quiet (t : list Event) :
  Forall (fun e => isReadPromptFile e = true) t ->
  Forall (fun e => isSideEffect e = false /\ isOutput e = false) t.
Proof.
  intros H. eapply Forall_impl; [exact H|]. now intros [].
Qed.

(** C2, amended: when the walk gets to the reference back -- the root
    document [A] names [B] after operations that validate, [B] names [A]
    after operations that validate, and the reference to [A] resolves from
    the directory of [A] as it does from the directory of [B] -- the run
    fails with [CircularReference], and all it has done by then is to read
    prompt files: no command was run, no file of a [file] operation was
    touched, nothing was written. *)
Theorem mutual_reference_fails_before_execution (w : World) (fuel : nat)
    (A : string) (pfA pfB : PromptFile)
    (preA postA preB postB : list Operation) (toB toA : Operation)
    (outputFile : string) (maxWords : Z) (style : string) :
  let ctx0 := NewProcessingContext A maxWords style in
  let B := resolveFrom (filepath.Dir A) (GetValue toB) in
  let ctxA := set_visitedFiles {[Abs w A := true]} ctx0 in
  let ctxB := set_visitedFiles (<[Abs w B := true]> {[Abs w A := true]}) ctx0 in
  filepath.IsAbs (cwd w) = true ->
  parsePromptFileResult w A = Ok pfA ->
  rangePrompt pfA = preA ++ toB :: postA -> isPromptRef toB = true ->
  parsePromptFileResult w B = Ok pfB ->
  rangePrompt pfB = preB ++ toA :: postB -> isPromptRef toA = true ->
  Abs w (resolveFrom (filepath.Dir B) (GetValue toA)) = Abs w A ->
  resolveFrom (filepath.Dir A) (GetValue toA)
    = resolveFrom (filepath.Dir B) (GetValue toA) ->
  (exists c tA, validateNested (validatePromptFileStructure w fuel) preA ctxA
                = Some (Ok tt, c, tA)) ->
  (exists c tB, validateNested (validatePromptFileStructure w fuel) preB ctxB
                = Some (Ok tt, c, tB)) ->
  forall fuel', (fuel + 3 <= fuel')%nat ->
  exists file stack t,
    processPromptFile w fuel' A outputFile maxWords style
      = Some (Err (ErrCircularReference file stack), t) /\
    Forall (fun e => isSideEffect e = false /\ isOutput e = false) t.
Proof.
  intros ctx0 B ctxA ctxB Hcwd HpA HopsA HtoB HpB HopsB HtoA Hback Hagree
         HpreA HpreB fuel' Hfuel.
  destruct (validate_mutual_reference w fuel A pfA pfB preA postA preB postB
              toB toA maxWords style Hcwd HpA HopsA HtoB HpB HopsB HtoA
              Hback Hagree HpreA HpreB fuel' Hfuel)
    as (file & stack & c & t & Hv).
  exists file, stack, t. unfold processPromptFile. rewrite Hv.
  split; [reflexivity|].
  apply isReadPromptFile_quiet. now apply validate_frame in Hv.
Qed.

Lemma mutual_reference_fails_before_execution_witness :
  exists file stack t,
    processPromptFile Fixtures.wCycle 3 "/work/a.yml" "" 128000 "xml"
      = Some (Err (ErrCircularReference file stack), t) /\
    Forall (fun e => isSideEffect e = false /\ isOutput e = false) t.
Proof.
  apply (mutual_reference_fails_before_execution Fixtures.wCycle 0 "/work/a.yml"
           (mkPromptFile (Some [Fixtures.opCommand "touch marker";
                                Fixtures.opFile "notes.txt";
                                Fixtures.opPrompt "b.yml"]))
           (mkPromptFile (Some [Fixtures.opText "from b";
                                Fixtures.opPrompt "a.yml"]))
           [Fixtures.opCommand "touch marker"; Fixtures.opFile "notes.txt"] []
           [Fixtures.opText "from b"] []
           (Fixtures.opPrompt "b.yml") (Fixtures.opPrompt "a.yml")
           "" 128000 "xml");
    try reflexivity; try (do 2 eexists; reflexivity); lia.
Defined.

(* ===================================================================== *)
(** * Failure and output *)
(* ===================================================================== *)

Lemma validate_no_output (w : World) (fuel : nat) p ctx r ctx' t :
  validatePromptFileStructure w fuel p ctx = Some (r, ctx', t) ->
  Forall (fun e => isOutput e = false) t.
Proof.
  intros H. apply validate_frame in H as [_ H].
  eapply Forall_impl; [exact H|]. now intros [].
Qed.

Lemma processOperations_no_output (w : World) (fuel : nat) ops ctx r ctx' t :
  processOperations (processOperation w fuel) ops ctx = Some (r, ctx', t) ->
  Forall (fun e => isOutput e = false) t.
Proof.
  intros H.
  apply (processOperations_inv w _ (processOperation_inv w fuel)) in H.
  now destruct H as [(Ho & _) _].
Qed.

(** The loop over the operations stops at the first one that fails: the
    operations after it leave no trace. *)
Lemma processOperations_stops (P : Operation -> M ContentSection)
    (pre post : list Operation) (op : Operation) ctx secs c1 t1 e c2 t2 :
  processOperations P pre ctx = Some (Ok secs, c1, t1) ->
  P op c1 = Some (Err e, c2, t2) ->
  processOperations P (pre ++ op :: post) ctx = Some (Err e, c2, t1 ++ t2).
Proof.
  revert ctx secs t1. induction pre as [|o pre IH]; intros ctx secs t1.
  - intros [= <- <- <-] Hop. cbn [app processOperations].
    now rewrite (bind_err _ _ _ _ _ _ Hop).
  - cbn [app processOperations]. intros H Hop.
    apply bind_inv in H as [(e0 & _ & [=])|(s & c0 & t0 & t0' & Ho & Hk & ->)].
    apply bind_inv in Hk as [(e0 & _ & [=])|(ss & c0' & t3 & t4 & Hr & Hk & ->)].
    injection Hk as <- <- <-.
    rewrite (bind_ok _ _ _ _ _ _ Ho).
    rewrite (bind_err _ _ _ _ _ _ (IH _ _ _ Hr Hop)).
    now rewrite app_nil_r, app_assoc.
Qed.

(** C5: a run of the engine ends at the first step that fails --
    validation, parsing of the root document, or an operation of the
    execution walk -- with the error of that step and the log up to it, and
    the loop over the operations stops at the operation that fails; a run
    that fails in one of these steps has written nothing to the primary
    output stream or to the destination file; output is written only as
    the last step, after validation, parsing and every operation have
    succeeded, and it is the compiled document. *)
Theorem failure_writes_no_output (w : World) (fuel : nat)
    (promptFile outputFile : string) (maxWords : Z) (style : string)
    (r : Result unit) (t : list Event) :
  processPromptFile w fuel promptFile outputFile maxWords style = Some (r, t) ->
  let ctx0 := NewProcessingContext promptFile maxWords style in
  (forall e c1 t1,
     validatePromptFileStructure w fuel promptFile ctx0 = Some (Err e, c1, t1) ->
     r = Err e /\ t = t1) /\
  (forall e c1 t1,
     validatePromptFileStructure w fuel promptFile ctx0 = Some (Ok tt, c1, t1) ->
     parsePromptFileResult w promptFile = Err e ->
     r = Err e /\ t = t1 ++ [EvReadPromptFile promptFile]) /\
  (forall e c1 t1 pf c3 t3,
     validatePromptFileStructure w fuel promptFile ctx0 = Some (Ok tt, c1, t1) ->
     parsePromptFileResult w promptFile = Ok pf ->
     processOperations (processOperation w fuel) (rangePrompt pf) ctx0
       = Some (Err e, c3, t3) ->
     r = Err e /\ t = t1 ++ [EvReadPromptFile promptFile] ++ t3) /\
  (forall pre op post secs c1 t1 e c2 t2,
     processOperations (processOperation w fuel) pre ctx0 = Some (Ok secs, c1, t1) ->
     processOperation w fuel op c1 = Some (Err e, c2, t2) ->
     processOperations (processOperation w fuel) (pre ++ op :: post) ctx0
       = Some (Err e, c2, t1 ++ t2)) /\
  (forall e, r = Err e -> (forall m, e <> ErrWriteFailed outputFile m) ->
     Forall (fun ev => isOutput ev = false) t) /\
  (forall ev, In ev t -> isOutput ev = true ->
     exists pf secs c1 t1 c3 t3,
       validatePromptFileStructure w fuel promptFile ctx0 = Some (Ok tt, c1, t1) /\
       parsePromptFileResult w promptFile = Ok pf /\
       processOperations (processOperation w fuel) (rangePrompt pf) ctx0
         = Some (Ok secs, c3, t3) /\
       t = t1 ++ [EvReadPromptFile promptFile] ++ t3 ++ [ev] /\
       ev = (if Str.is_empty outputFile
             then EvStdout (compileOutput (mkCompiledContent secs) style)
             else EvWriteFile outputFile
                    (compileOutput (mkCompiledContent secs) style))).
Proof.
  intros Hrun ctx0.
  split; [|split; [|split; [|split;
    [intros; eapply processOperations_stops; eassumption|split]]]].
  - (* validation fails *)
    intros e c1 t1 Hv. revert Hrun. unfold processPromptFile. fold ctx0.
    rewrite Hv. now intros [= <- <-].
  - (* parsing fails *)
    intros e c1 t1 Hv Hp. revert Hrun. unfold processPromptFile. fold ctx0.
    rewrite Hv, parsePromptFile_run, Hp. cbn [lift fail]. now intros [= <- <-].
  - (* an operation fails *)
    intros e c1 t1 pf c3 t3 Hv Hp Hops. revert Hrun.
    unfold processPromptFile. fold ctx0.
    rewrite Hv, parsePromptFile_run, Hp. cbn [lift ret]. rewrite Hops.
    now intros [= <- <-].
  - (* a failed step leaves no output *)
    revert Hrun. unfold processPromptFile. fold ctx0.
    destruct (validatePromptFileStructure w fuel promptFile ctx0)
      as [[[[[]|e1] c1] t1]|] eqn:Hv; [| |discriminate];
      pose proof (validate_no_output _ _ _ _ _ _ _ Hv) as Ho1.
    2:{ now intros [= <- <-] e _ _. }
    rewrite parsePromptFile_run.
    destruct (parsePromptFileResult w promptFile) as [pf|e2] eqn:Hp;
      cbn [lift ret fail].
    2:{ intros [= <- <-] e _ _. apply Forall_app. split; [assumption|].
        repeat constructor. }
    destruct (processOperations _ _ ctx0) as [[[[secs|e3] c3] t3]|] eqn:Hops;
      [| |discriminate];
      pose proof (processOperations_no_output _ _ _ _ _ _ _ Hops) as Ho3.
    2:{ intros [= <- <-] e _ _. apply Forall_app. split; [assumption|].
        constructor; [reflexivity|assumption]. }
    destruct (Str.is_empty outputFile);
      [|destruct (writeFile w outputFile) as [m|]];
      intros [= <- <-] e He Hne; try discriminate.
    injection He as <-. now elim (Hne m).
  - (* output only at the end *)
    revert Hrun. unfold processPromptFile. fold ctx0.
    destruct (validatePromptFileStructure w fuel promptFile ctx0)
      as [[[[[]|e1] c1] t1]|] eqn:Hv; [| |discriminate];
      pose proof (validate_no_output _ _ _ _ _ _ _ Hv) as Ho1;
      rewrite List.Forall_forall in Ho1.
    2:{ intros [= <- <-] ev Hin Hev. apply Ho1 in Hin. congruence. }
    rewrite parsePromptFile_run.
    destruct (parsePromptFileResult w promptFile) as [pf|e2] eqn:Hp;
      cbn [lift ret fail].
    2:{ intros [= <- <-] ev Hin Hev. exfalso. split_in Hin.
        - apply Ho1 in Hin. congruence.
        - discriminate. }
    destruct (processOperations _ _ ctx0) as [[[[secs|e3] c3] t3]|] eqn:Hops;
      [| |discriminate];
      pose proof (processOperations_no_output _ _ _ _ _ _ _ Hops) as Ho3;
      rewrite List.Forall_forall in Ho3.
    2:{ intros [= <- <-] ev Hin Hev. exfalso. split_in Hin.
        - apply Ho1 in Hin. congruence.
        - discriminate.
        - apply Ho3 in Hin. congruence. }
    intros Hrun ev Hin Hev.
    exists pf, secs, c1, t1, c3, t3.
    assert (Hlast : forall out,
               In ev (t1 ++ [EvReadPromptFile promptFile] ++ t3 ++ [out]) ->
               ev = out).
    { intros out Hin'. split_in Hin'; try reflexivity.
      - apply Ho1 in Hin'. congruence.
      - discriminate.
      - apply Ho3 in Hin'. congruence. }
    destruct (Str.is_empty outputFile);
      [|destruct (writeFile w outputFile)];
      injection Hrun as <- <-; rewrite (Hlast _ Hin);
      repeat split; try assumption; reflexivity.
Qed.

Lemma failure_writes_no_output_witness :
  Forall (fun ev => isOutput ev = false)
    [EvReadPromptFile "/work/p.yml"; EvReadPromptFile "/work/p.yml";
     EvAddWords 1; EvExec "false2"].
Proof.
  assert (Hrun : processPromptFile Fixtures.wFail 1 "/work/p.yml" "out.txt"
                   128000 "xml"
                 = Some (Err (ErrCommandFailed "false2" "exit status 2"),
                         [EvReadPromptFile "/work/p.yml";
                          EvReadPromptFile "/work/p.yml";
                          EvAddWords 1; EvExec "false2"]))
    by (vm_compute; reflexivity).
  apply (proj1 (proj2 (proj2 (proj2 (proj2
           (failure_writes_no_output _ _ _ _ _ _ _ _ Hrun)))))
           (ErrCommandFailed "false2" "exit status 2") eq_refl).
  intros m. discriminate.
Defined.

(* ===================================================================== *)
(** * Words of a concatenation *)
(* ===================================================================== *)

Lemma countWords_length (s : string) :
  countWords s = Z.of_nat (length (Str.Fields s)).
Proof. unfold countWords. now destruct s. Qed.

Lemma Fields_nonspace_nonempty (c : ascii) (r : string) :
  Str.isSpace c = false -> Str.Fields (String c r) <> [].
Proof.
  intros Hc. cbn [Str.Fields]. rewrite Hc.
  destruct r as [|c' r']; [discriminate|].
  destruct (Str.isSpace c'); [discriminate|].
  destruct (Str.Fields (String c' r')); discriminate.
Qed.

Lemma Fields_cons_space (c : ascii) (r : string) :
  Str.isSpace c = true -> Str.Fields (String c r) = Str.Fields r.
Proof. intros Hc. cbn [Str.Fields]. now rewrite Hc. Qed.

(** The number of fields of [String c r] when [c] is no space: one more
    than in [r] when [r] is empty or starts with a space, as many as in [r]
    otherwise. *)
Lemma length_Fields_cons (c : ascii) (r : string) :
  Str.isSpace c = false ->
  length (Str.Fields (String c r))
  = match r with
    | EmptyString => 1%nat
    | String c' _ =>
        if Str.isSpace c' then S (length (Str.Fields r))
        else length (Str.Fields r)
    end.
Proof.
  intros Hc. cbn [Str.Fields]. rewrite Hc.
  destruct r as [|c' r']; [reflexivity|].
  destruct (Str.isSpace c') eqn:Hc'; [reflexivity|].
  pose proof (Fields_nonspace_nonempty c' r' Hc') as Hne.
  destruct (Str.Fields (String c' r')); [contradiction|reflexivity].
Qed.

Lemma length_Fields_app (a b : string) :
  breaks b ->
  length (Str.Fields (a +:+ b))
  = (length (Str.Fields a) + length (Str.Fields b))%nat.
Proof.
  intros Hb. induction a as [|c r IH]; [reflexivity|].
  change (String c r +:+ b) with (String c (r +:+ b)).
  destruct (Str.isSpace c) eqn:Hc.
  - now rewrite !Fields_cons_space.
  - rewrite !length_Fields_cons by assumption.
    destruct r as [|c' r'].
    + change ("" +:+ b) with b. destruct b as [|c' b']; [reflexivity|].
      cbn in Hb. rewrite Hb. reflexivity.
    + change (String c' r' +:+ b) with (String c' (r' +:+ b)) in *.
      cbv beta match. rewrite IH.
      destruct (Str.isSpace c'); reflexivity.
Qed.

Lemma countWords_app (a b : string) :
  breaks b -> countWords (a +:+ b) = countWords a + countWords b.
Proof.
  intros Hb. rewrite !countWords_length, length_Fields_app by assumption. lia.
Qed.

Lemma countWords_nl (s : string) : countWords (Str.nl +:+ s) = countWords s.
Proof. now rewrite !countWords_length. Qed.

Lemma append_assoc (a b c : string) : (a +:+ b) +:+ c = a +:+ (b +:+ c).
Proof.
  induction a as [|x a IH]; [reflexivity|].
  change ((String x a +:+ b) +:+ c) with (String x ((a +:+ b) +:+ c)).
  now rewrite IH.
Qed.

Lemma formatSectionHeader_ends_nl (source style : string) :
  exists h, formatSectionHeader source style = h +:+ Str.nl.
Proof.
  unfold formatSectionHeader.
  destruct (String.eqb style "xml");
    [exists (Str.nl +:+ "<!-- pcp-source: " +:+ source +:+ " -->");
     now rewrite !append_assoc|].
  destruct (String.eqb style "minimal");
    [exists (Str.nl +:+ "=== PCP SOURCE: " +:+ source +:+ " ===");
     now rewrite !append_assoc|].
  destruct (String.eqb style "none"); [now exists ""|].
  destruct (String.eqb style "full").
  - exists (Str.nl +:+ "----------------------------------" +:+ Str.nl +:+
            "BEGIN: " +:+ source +:+ Str.nl +:+
            "----------------------------------").
    now rewrite !append_assoc.
  - exists (Str.nl +:+ "<!-- pcp-source: " +:+ source +:+ " -->").
    now rewrite !append_assoc.
Qed.

Lemma combineSections_breaks (i : nat) (p style : string) secs :
  breaks (combineSections (S i) p style secs).
Proof. destruct secs; [exact I|reflexivity]. Qed.

(** The words of the child sections are all among the words of their
    concatenation, next to the words of the nested headers. *)
Lemma combineSections_words (p style : string) secs :
  forall i, sectionWords secs <= countWords (combineSections i p style secs).
Proof.
  induction secs as [|s rest IH]; intros i; [reflexivity|].
  cbn [combineSections sectionWords].
  destruct (formatSectionHeader_ends_nl (p +:+ "->" +:+ Source s) style)
    as [h ->].
  assert (Hsep : countWords
                   ((if Nat.ltb 0 i then Str.nl else "") +:+
                    (h +:+ Str.nl) +:+ Content s +:+
                    combineSections (S i) p style rest)
                 = countWords
                     ((h +:+ Str.nl) +:+ Content s +:+
                      combineSections (S i) p style rest)).
  { destruct (Nat.ltb 0 i); [apply countWords_nl|reflexivity]. }
  rewrite Hsep. rewrite append_assoc.
  rewrite countWords_app by reflexivity. rewrite countWords_nl.
  rewrite countWords_app by apply combineSections_breaks.
  pose proof (countWords_nonneg h). specialize (IH (S i)). lia.
Qed.

(* ===================================================================== *)
(** * The word budget *)
(* ===================================================================== *)

(** C9 as stated fails: the nested document n.yml has one text of a single
    space.  Under the xml style the section of the [prompt] operation is
    not empty, its four words are those of the nested header, and four
    words are what the operation charges in all; under the style none
    neither the text nor the section is empty, neither holds a word, and
    nothing is charged.  In both runs the total charged equals the words
    of the content. *)
Lemma nested_charge_can_equal_content_words :
  (exists sec ctx' t,
     processPromptOperation Fixtures.wBlank (processOperation Fixtures.wBlank 0)
       "n.yml" (NewProcessingContext "/work/m.yml" 128000 "xml")
     = Some (Ok sec, ctx', t) /\
     Str.is_empty (Content sec) = false /\
     countWords (Content sec) = 4 /\
     charged t = 4 /\
     wordCount ctx' = 4) /\
  (exists sec ctx' t,
     processPromptOperation Fixtures.wBlank (processOperation Fixtures.wBlank 0)
       "n.yml" (NewProcessingContext "/work/m.yml" 128000 "none")
     = Some (Ok sec, ctx', t) /\
     Content sec = Str.nl +:+ " " /\
     countWords (Content sec) = 0 /\
     charged t = 0 /\
     wordCount ctx' = 0).
Proof.
  split; do 3 eexists; repeat split; vm_compute; reflexivity.
Qed.

(** C9, amended: a [prompt] operation that succeeds has charged the budget
    twice for the nested document: every child operation charged at least
    the words of its own section while it was processed, and then the
    parent charged the words of the concatenation of the child sections
    with their nested headers, which is the content of its section and
    holds the words of the child sections once more.  The running total
    has moved by the sum of both (modulo the width of [int]), which is at
    least twice the words of the child sections, and when the child
    sections hold at least one word, what was charged exceeds the words of
    the content. *)
Theorem prompt_operation_charges_twice (w : World) (fuel : nat)
    (promptPath : string) (ctx : ProcessingContext) (sec : ContentSection)
    (ctx' : ProcessingContext) (t : list Event) :
  processPromptOperation w (processOperation w fuel) promptPath ctx
    = Some (Ok sec, ctx', t) ->
  let resolvedPath := ResolvePath ctx promptPath in
  let ctx1 :=
    set_visitedFiles (<[Abs w resolvedPath := true]> (visitedFiles ctx))
      (set_basePath (filepath.Dir resolvedPath) ctx) in
  exists pf children c2 tc,
    parsePromptFileResult w resolvedPath = Ok pf /\
    processOperations (processOperation w fuel) (rangePrompt pf) ctx1
      = Some (Ok children, c2, tc) /\
    Content sec
      = combineSections 0 promptPath (delimiterStyle ctx) children /\
    t = EvReadPromptFile resolvedPath ::
        tc ++ [EvAddWords (countWords (Content sec))] /\
    sectionWords children <= charged tc /\
    sectionWords children <= countWords (Content sec) /\
    charged t = charged tc + countWords (Content sec) /\
    2 * sectionWords children <= charged t /\
    wordCount ctx' = wrap64 (wordCount ctx + charged t) /\
    (0 < sectionWords children -> countWords (Content sec) < charged t).
Proof.
  rewrite processPromptOperation_run. cbv zeta.
  destruct (IsVisited w ctx (ResolvePath ctx promptPath)); [discriminate|].
  destruct (parsePromptFileResult w (ResolvePath ctx promptPath)) as [pf|e];
    [|discriminate].
  destruct (processOperations _ _ _) as [[[[children|e] c2] tc]|] eqn:Hops;
    [|discriminate..].
  set (c3 := set_basePath _ _). set (sec0 := mkContentSection _ _ _).
  intros [= Hsec <- <-]. apply (afterCharge_Ok c3 sec0) in Hsec as ->.
  exists pf, children, c2, tc.
  apply (processOperations_inv w _ (processOperation_inv w fuel)) in Hops as Hinv.
  destruct Hinv as [(_ & _ & _ & Hwc & _) Hok].
  destruct (Hok children eq_refl) as (_ & _ & Hwords).
  pose proof (combineSections_words promptPath (delimiterStyle ctx) children 0%nat)
    as Hagain.
  change (combineSections 0 promptPath (delimiterStyle ctx) children)
    with (Content sec0) in Hagain.
  assert (Hch : charged (EvReadPromptFile (ResolvePath ctx promptPath)
                         :: tc ++ [EvAddWords (countWords (Content sec0))])
                = charged tc + countWords (Content sec0)).
  { cbn [charged]. rewrite charged_app. cbn [charged]. lia. }
  assert (Hwc' : wordCount (snd (afterCharge c3 sec0))
                 = wrap64 (wordCount ctx + (charged tc + countWords (Content sec0)))).
  { unfold afterCharge. cbn [snd wordCount set_wordCount].
    change (wordCount c3) with (wordCount c2).
    rewrite <- wrap64_add_l, Hwc, wrap64_add_l. f_equal.
    cbn [wordCount set_visitedFiles set_basePath]. lia. }
  assert (H8 : 2 * sectionWords children
               <= charged (EvReadPromptFile (ResolvePath ctx promptPath)
                           :: tc ++ [EvAddWords (countWords (Content sec0))]))
    by (rewrite Hch; lia).
  assert (H9 : wordCount (snd (afterCharge c3 sec0))
               = wrap64 (wordCount ctx
                         + charged (EvReadPromptFile (ResolvePath ctx promptPath)
                                    :: tc ++ [EvAddWords (countWords (Content sec0))])))
    by (rewrite Hch; exact Hwc').
  assert (H10 : 0 < sectionWords children ->
                countWords (Content sec0)
                < charged (EvReadPromptFile (ResolvePath ctx promptPath)
                           :: tc ++ [EvAddWords (countWords (Content sec0))]))
    by (rewrite Hch; lia).
  exact (conj eq_refl (conj Hops (conj eq_refl (conj eq_refl
           (conj Hwords (conj Hagain (conj Hch (conj H8 (conj H9 H10))))))))).
Qed.

Lemma prompt_operation_charges_twice_witness :
  exists pf children c2 tc,
    parsePromptFileResult Fixtures.wTwoWords "/work/n.yml" = Ok pf /\
    processOperations (processOperation Fixtures.wTwoWords 0) (rangePrompt pf)
      (set_visitedFiles (<[Abs Fixtures.wTwoWords "/work/n.yml" := true]> ∅)
         (set_basePath "/work"
            (NewProcessingContext "/work/m.yml" 128000 "none")))
      = Some (Ok children, c2, tc) /\
    Str.nl +:+ "a b" = combineSections 0 "n.yml" "none" children /\
    [EvReadPromptFile "/work/n.yml"; EvAddWords 2; EvAddWords 2]
      = EvReadPromptFile "/work/n.yml" :: tc ++ [EvAddWords 2] /\
    sectionWords children <= charged tc /\
    sectionWords children <= 2 /\
    4 = charged tc + 2 /\
    2 * sectionWords children <= 4 /\
    4 = wrap64 (0 + 4) /\
    (0 < sectionWords children -> 2 < 4).
Proof.
  apply (prompt_operation_charges_twice Fixtures.wTwoWords 0 "n.yml"
           (NewProcessingContext "/work/m.yml" 128000 "none")
           (mkContentSection "n.yml" (Str.nl +:+ "a b") PromptOp)
           (set_wordCount 4 (NewProcessingContext "/work/m.yml" 128000 "none"))
           [EvReadPromptFile "/work/n.yml"; EvAddWords 2; EvAddWords 2]).
  vm_compute. reflexivity.
Defined.

(** C3 as stated fails: the compiled content of m.yml, which names a
    document holding the text [a b], has two words -- in its section as in
    the output -- and a budget of two is exceeded, since the nested
    document is charged twice. *)
Lemma budget_of_content_words_can_fail :
  exists secs ctx' t t',
    processOperations (processOperation Fixtures.wTwoWords 1)
      [Fixtures.opPrompt "n.yml"]
      (NewProcessingContext "/work/m.yml" 128000 "none")
    = Some (Ok secs, ctx', t) /\
    sectionWords secs = 2 /\
    countWords (compileOutput (mkCompiledContent secs) "none") = 2 /\
    processPromptFile Fixtures.wTwoWords 2 "/work/m.yml" "" 2 "none"
    = Some (Err (ErrWordLimitExceeded 4 2), t').
Proof. do 4 eexists. repeat split; vm_compute; reflexivity. Qed.

Lemma validateNested_flat (validate : string -> M unit) (ops : list Operation) ctx :
  Forall (fun op => isPromptRef op = false) ops ->
  validateNested validate ops ctx = Some (Ok tt, ctx, []).
Proof.
  induction 1 as [|op rest Hop _ IH]; [reflexivity|].
  now rewrite validateNested_cons, Hop.
Qed.

Lemma validate_flat (w : World) (fuel : nat) (promptFile : string)
    (pf : PromptFile) (maxWords : Z) (style : string) :
  parsePromptFileResult w promptFile = Ok pf ->
  Forall (fun op => isPromptRef op = false) (rangePrompt pf) ->
  exists c,
    validatePromptFileStructure w (S fuel) promptFile
      (NewProcessingContext promptFile maxWords style)
    = Some (Ok tt, c, [EvReadPromptFile promptFile]).
Proof.
  intros Hp Hflat. rewrite validate_S. cbv zeta.
  assert (Hv : IsVisited w (NewProcessingContext promptFile maxWords style)
                 (Abs w promptFile) = false) by reflexivity.
  rewrite Hv, Hp, validateNested_flat by assumption. eauto.
Qed.

(** With operations that name no nested document, the budget only decides
    whether the running total fits: a run that succeeds under one budget
    succeeds with the same sections under every budget its total fits in,
    and under the budget one below its total it fails at the operation that
    reaches the total. *)
Lemma flat_operations_budget (w : World) (fuel : nat) (B : Z) :
  forall ops ctx secs ctx' t,
    Forall (fun op => isPromptRef op = false) ops ->
    processOperations (processOperation w fuel) ops ctx = Some (Ok secs, ctx', t) ->
    0 <= wordCount ctx -> wordCount ctx + sectionWords secs < 2 ^ 63 ->
    (wordCount ctx + sectionWords secs <= B ->
     processOperations (processOperation w fuel) ops (set_maxWords B ctx)
     = Some (Ok secs, set_maxWords B ctx', t)) /\
    (ops <> [] -> wordCount ctx + sectionWords secs = B + 1 ->
     exists c t',
       processOperations (processOperation w fuel) ops (set_maxWords B ctx)
       = Some (Err (ErrWordLimitExceeded (B + 1) B), c, t')).
Proof.
  intros ops. induction ops as [|op rest IH]; intros ctx secs ctx' t Hflat Hrun Hwc Hsum.
  - injection Hrun as <- <- <-. split; [reflexivity|congruence].
  - inversion Hflat as [|? ? Hop Hrest]; subst.
    cbn [processOperations] in Hrun |- *.
    apply bind_inv in Hrun as [(e & _ & [=])|(sec & c1 & t1 & t2 & Ho & Hk & ->)].
    apply bind_inv in Hk as [(e & _ & [=])|(ss & c2 & t3 & t4 & Hr & Hk & ->)].
    injection Hk as <- <- <-.
    rewrite processOperation_flat in Ho by assumption.
    unfold charge in Ho.
    destruct (fetch w (basePath ctx) op) as [[sec'|e] t0] eqn:Hf; [|discriminate].
    injection Ho as Hsec <- <-.
    pose proof (afterCharge_Ok _ _ _ Hsec) as Heq. subst sec'.
    cbn [sectionWords] in Hsum |- *.
    pose proof (countWords_nonneg (Content sec)) as Hn.
    pose proof (sectionWords_nonneg ss) as Hss.
    assert (Hw : wrap64 (wordCount ctx + countWords (Content sec))
                 = wordCount ctx + countWords (Content sec))
      by (apply wrap64_small; lia).
    assert (Hstep : forall (k : ContentSection -> M (list ContentSection)),
               bind (processOperation w fuel op) k (set_maxWords B ctx)
               = if B <? wordCount ctx + countWords (Content sec)
                 then Some (Err (ErrWordLimitExceeded
                                   (wordCount ctx + countWords (Content sec)) B),
                            set_maxWords B (snd (afterCharge ctx sec)),
                            t0 ++ [EvAddWords (countWords (Content sec))])
                 else match k sec (set_maxWords B (snd (afterCharge ctx sec))) with
                      | Some (r, c, t') =>
                          Some (r, c, (t0 ++ [EvAddWords (countWords (Content sec))]) ++ t')
                      | None => None
                      end).
    { intros k. unfold bind. rewrite processOperation_flat by assumption.
      change (basePath (set_maxWords B ctx)) with (basePath ctx). rewrite Hf.
      unfold charge, afterCharge.
      cbn [fst snd maxWords wordCount set_maxWords set_wordCount].
      rewrite Hw. destruct (B <? _); reflexivity. }
    assert (Hwc1 : wordCount (snd (afterCharge ctx sec))
                   = wordCount ctx + countWords (Content sec)).
    { unfold afterCharge. cbn [snd wordCount set_wordCount]. exact Hw. }
    specialize (IH (snd (afterCharge ctx sec)) ss c2 t3 Hrest Hr).
    rewrite Hwc1 in IH.
    destruct IH as [IHfit IHfail]; [lia|lia|].
    split.
    + intros Hfit. rewrite Hstep.
      destruct (Z.ltb_spec B (wordCount ctx + countWords (Content sec))); [lia|].
      rewrite (bind_ok _ _ _ _ _ _ (IHfit ltac:(lia))).
      reflexivity.
    + intros _ Hone. rewrite Hstep.
      destruct (Z.ltb_spec B (wordCount ctx + countWords (Content sec))).
      * replace (wordCount ctx + countWords (Content sec)) with (B + 1) by lia.
        eauto.
      * destruct rest as [|op' rest'].
        { injection Hr as <- <- <-. cbn [sectionWords] in Hone. lia. }
        destruct IHfail as (c & t' & Hfail); [discriminate|lia|].
        rewrite (bind_err _ _ _ _ _ _ Hfail). eauto.
Qed.

(** C3, amended: for a document without [prompt] operation, and with at
    least one operation, whose sections hold [N] words in all (the sum of
    the word counts of their contents, which is what the engine counts; the
    headers of the rendered output are not counted), the run succeeds under
    a budget of [N] and writes the compiled document, and under a budget of
    [N - 1] it fails with [WordLimitExceeded], current [N], limit
    [N - 1]. *)
Theorem word_budget_boundary_without_nesting (w : World) (fuel : nat)
    (promptFile outputFile style : string) (pf : PromptFile)
    (secs : list ContentSection) (M : Z) (cM : ProcessingContext)
    (tM : list Event) :
  (0 < fuel)%nat ->
  parsePromptFileResult w promptFile = Ok pf ->
  Forall (fun op => isPromptRef op = false) (rangePrompt pf) ->
  rangePrompt pf <> [] ->
  processOperations (processOperation w fuel) (rangePrompt pf)
    (NewProcessingContext promptFile M style) = Some (Ok secs, cM, tM) ->
  sectionWords secs < 2 ^ 63 ->
  Str.is_empty outputFile = true \/ writeFile w outputFile = None ->
  let N := sectionWords secs in
  let written :=
    if Str.is_empty outputFile
    then EvStdout (compileOutput (mkCompiledContent secs) style)
    else EvWriteFile outputFile (compileOutput (mkCompiledContent secs) style) in
  processPromptFile w fuel promptFile outputFile N style
    = Some (Ok tt, [EvReadPromptFile promptFile; EvReadPromptFile promptFile]
                   ++ tM ++ [written]) /\
  exists t,
    processPromptFile w fuel promptFile outputFile (N - 1) style
      = Some (Err (ErrWordLimitExceeded N (N - 1)), t).
Proof.
  intros Hfuel Hp Hflat Hne Hrun Hsmall Hout N written.
  destruct fuel as [|f]; [lia|].
  pose proof (sectionWords_nonneg secs) as Hnn.
  destruct (flat_operations_budget w (S f) N _ _ _ _ _ Hflat Hrun)
    as [Hfit _]; [cbn; lia..|].
  destruct (flat_operations_budget w (S f) (N - 1) _ _ _ _ _ Hflat Hrun)
    as [_ Hfail]; [cbn; lia..|].
  specialize (Hfit ltac:(cbn; lia)).
  destruct (Hfail Hne ltac:(cbn; lia)) as (c & t' & Hfail').
  replace (N - 1 + 1) with N in Hfail' by lia.
  change (set_maxWords ?b (NewProcessingContext promptFile M style))
    with (NewProcessingContext promptFile b style) in *.
  split.
  - unfold processPromptFile.
    destruct (validate_flat w f promptFile pf N style Hp Hflat) as [c1 ->].
    rewrite parsePromptFile_run, Hp. cbn [lift ret]. rewrite Hfit.
    subst written.
    destruct (Str.is_empty outputFile); [reflexivity|].
    destruct Hout as [Hout|Hout]; [discriminate|]. now rewrite Hout.
  - unfold processPromptFile.
    destruct (validate_flat w f promptFile pf (N - 1) style Hp Hflat) as [c1 ->].
    rewrite parsePromptFile_run, Hp. cbn [lift ret]. rewrite Hfail'. eauto.
Qed.

Lemma word_budget_boundary_without_nesting_witness :
  processPromptFile Fixtures.wFlat 1 "/work/p.yml" "" 5 "xml"
    = Some (Ok tt,
            [EvReadPromptFile "/work/p.yml"; EvReadPromptFile "/work/p.yml";
             EvAddWords 2; EvStat "/work/hello.txt"; EvProbe "/work/hello.txt";
             EvReadFile "/work/hello.txt"; EvAddWords 1; EvExec "echo a b";
             EvAddWords 2;
             EvStdout
               (compileOutput
                  (mkCompiledContent
                     [mkContentSection "text" "a b" TextOp;
                      mkContentSection "hello.txt" "Hello" FileOp;
                      mkContentSection "echo a b" ("a b" +:+ Str.nl) CommandOp])
                  "xml")]) /\
  exists t,
    processPromptFile Fixtures.wFlat 1 "/work/p.yml" "" (5 - 1) "xml"
      = Some (Err (ErrWordLimitExceeded 5 (5 - 1)), t).
Proof.
  apply (word_budget_boundary_without_nesting Fixtures.wFlat 1 "/work/p.yml" ""
           "xml"
           (mkPromptFile (Some [Fixtures.opText "a b"; Fixtures.opFile "hello.txt";
                                Fixtures.opCommand "echo a b"]))
           [mkContentSection "text" "a b" TextOp;
            mkContentSection "hello.txt" "Hello" FileOp;
            mkContentSection "echo a b" ("a b" +:+ Str.nl) CommandOp]
           128000
           (set_wordCount 5 (NewProcessingContext "/work/p.yml" 128000 "xml"))
           [EvAddWords 2; EvStat "/work/hello.txt"; EvProbe "/work/hello.txt";
            EvReadFile "/work/hello.txt"; EvAddWords 1; EvExec "echo a b";
            EvAddWords 2]).
  - lia.
  - reflexivity.
  - repeat constructor.
  - discriminate.
  - vm_compute. reflexivity.
  - vm_compute. reflexivity.
  - left. reflexivity.
Defined.

(* ===================================================================== *)
(** * Document trees without cycle *)
(* ===================================================================== *)

Lemma visitedIs_insert (ctx : ProcessingContext) (stack : list string) k :
  visitedIs ctx stack ->
  visitedIs (set_visitedFiles (<[k := true]> (visitedFiles ctx)) ctx) (k :: stack).
Proof.
  intros Hvis k'. cbn [visitedFiles set_visitedFiles In].
  destruct (decide (k = k')) as [->|Hne].
  - rewrite lookup_insert_eq. split; [reflexivity|]. intros Hn. elim Hn. now left.
  - rewrite lookup_insert_ne by assumption. destruct (Hvis k') as [H1 H2].
    split; [intros [?|?]; [contradiction|auto]|]. intros Hn. apply H2. tauto.
Qed.

Lemma validateNested_acyclic (w : World) (rootDir : string)
    (stack : list string) (ops : list Operation) :
  (forall op, In op ops -> isPromptRef op = true ->
     exists n, forall fuel ctx, (n <= fuel)%nat ->
       basePath ctx = rootDir -> visitedIs ctx stack ->
       exists t,
         validatePromptFileStructure w fuel (resolveFrom rootDir (GetValue op)) ctx
         = Some (Ok tt, ctx, t)) ->
  exists n, forall fuel ctx, (n <= fuel)%nat ->
    basePath ctx = rootDir -> visitedIs ctx stack ->
    exists t,
      validateNested (validatePromptFileStructure w fuel) ops ctx
      = Some (Ok tt, ctx, t).
Proof.
  induction ops as [|op rest IH]; intros Hall.
  - exists 0%nat. intros fuel ctx _ _ _. now exists [].
  - destruct IH as [n1 Hrest]; [intros o Ho; apply Hall; now right|].
    destruct (isPromptRef op) eqn:Href.
    + destruct (Hall op (or_introl eq_refl) Href) as [n2 Hop].
      exists (Nat.max n1 n2). intros fuel ctx Hfuel Hbase Hvis.
      destruct (Hop fuel ctx ltac:(lia) Hbase Hvis) as [t1 H1].
      destruct (Hrest fuel ctx ltac:(lia) Hbase Hvis) as [t2 H2].
      rewrite validateNested_cons, Href, ResolvePath_resolveFrom, Hbase.
      rewrite (bind_ok _ _ _ _ _ _ H1), H2. eauto.
    + exists n1. intros fuel ctx Hfuel Hbase Hvis.
      rewrite validateNested_cons, Href. now apply Hrest.
Qed.

(** The validation walk succeeds on a document tree without cycle whose
    references resolve from the directory of the root document as they do
    from the directory of the document that holds them, and it leaves the
    context as it found it. *)
Lemma validate_acyclic (w : World) (rootDir : string) :
  filepath.IsAbs (cwd w) = true ->
  forall stack filePath,
    Acyclic w stack filePath -> AgreesWithRoot w rootDir filePath ->
    exists n, forall fuel ctx, (n <= fuel)%nat ->
      basePath ctx = rootDir -> visitedIs ctx stack ->
      exists t,
        validatePromptFileStructure w fuel filePath ctx = Some (Ok tt, ctx, t).
Proof.
  intros Hcwd stack filePath Hacyc.
  induction Hacyc as [stack filePath pf Hfresh Hp _ IH]. intros Hagree.
  destruct Hagree as [filePath Hsame Hsub].
  destruct (validateNested_acyclic w rootDir (Abs w filePath :: stack)
              (rangePrompt pf)) as [n Hn].
  { intros op Hin Href.
    rewrite <- (Hsame pf op Hp Hin Href).
    apply (IH op Hin Href). apply (Hsub pf op Hp Hin Href). }
  exists (S n). intros fuel ctx Hfuel Hbase Hvis.
  destruct fuel as [|f]; [lia|].
  rewrite validate_S. cbv zeta. rewrite Abs_idem by assumption.
  destruct (Hvis (Abs w filePath)) as [_ Hnone]. specialize (Hnone Hfresh).
  assert (Hv : IsVisited w ctx (Abs w filePath) = false).
  { unfold IsVisited. rewrite Abs_idem by assumption. now rewrite Hnone. }
  rewrite Hv, Hp.
  destruct (Hn f (set_visitedFiles (<[Abs w filePath := true]> (visitedFiles ctx)) ctx)
              ltac:(lia) Hbase (visitedIs_insert _ _ _ Hvis)) as [t ->].
  exists (EvReadPromptFile filePath :: t).
  cbn [visitedFiles set_visitedFiles].
  rewrite delete_insert_eq, delete_id by assumption.
  now destruct ctx.
Qed.

(** C6 as stated fails: a single well-formed document without any nested
    document passes validation, but the execution walk does not give a
    section for each operation when an operation fails.  In p.yml of
    [wFail] the second operation is a command that exits with status 2
    ([CommandFailed]); in p.yml of [wTexts], where the file exists and no
    command is run, the two operations hold three words and a budget of two
    is exceeded at the second ([WordLimitExceeded]). *)
Lemma acyclic_tree_can_fail_in_execution :
  let ctx0 := NewProcessingContext "/work/p.yml" 128000 "xml" in
  let ops := [Fixtures.opText "hello"; Fixtures.opCommand "false2";
              Fixtures.opText "never"] in
  let ctx1 := NewProcessingContext "/work/p.yml" 2 "xml" in
  let ops1 := [Fixtures.opText "abc"; Fixtures.opFile "hello.txt"] in
  (Acyclic Fixtures.wFail [] "/work/p.yml" /\
   parsePromptFileResult Fixtures.wFail "/work/p.yml"
     = Ok (mkPromptFile (Some ops)) /\
   validatePromptFileStructure Fixtures.wFail 1 "/work/p.yml" ctx0
     = Some (Ok tt, ctx0, [EvReadPromptFile "/work/p.yml"]) /\
   processOperations (processOperation Fixtures.wFail 1) ops ctx0
     = Some (Err (ErrCommandFailed "false2" "exit status 2"),
             set_wordCount 1 ctx0, [EvAddWords 1; EvExec "false2"])) /\
  (Acyclic Fixtures.wTexts [] "/work/p.yml" /\
   parsePromptFileResult Fixtures.wTexts "/work/p.yml"
     = Ok (mkPromptFile (Some ops1)) /\
   validatePromptFileStructure Fixtures.wTexts 1 "/work/p.yml" ctx1
     = Some (Ok tt, ctx1, [EvReadPromptFile "/work/p.yml"]) /\
   processOperations (processOperation Fixtures.wTexts 1) ops1 ctx1
     = Some (Err (ErrWordLimitExceeded 3 2), set_wordCount 3 ctx1,
             [EvAddWords 1; EvStat "/work/hello.txt";
              EvProbe "/work/hello.txt"; EvReadFile "/work/hello.txt";
              EvAddWords 2])).
Proof.
  cbv zeta. split; (split; [|split; [|split]]).
  - apply Acyclic_doc
      with (pf := mkPromptFile (Some [Fixtures.opText "hello";
                                      Fixtures.opCommand "false2";
                                      Fixtures.opText "never"])).
    + intros [].
    + reflexivity.
    + intros op [<-|[<-|[<-|[]]]] Href; discriminate Href.
  - reflexivity.
  - vm_compute. reflexivity.
  - vm_compute. reflexivity.
  - apply Acyclic_doc
      with (pf := mkPromptFile (Some [Fixtures.opText "abc";
                                      Fixtures.opFile "hello.txt"])).
    + intros [].
    + reflexivity.
    + intros op [<-|[<-|[]]] Href; discriminate Href.
  - reflexivity.
  - vm_compute. reflexivity.
  - vm_compute. reflexivity.
Qed.

(** C6, amended: on a well-formed document tree without reference cycle --
    in which every reference resolves from the directory of the root
    document as it does from the directory of the document that holds it --
    the validation walk succeeds; and whenever the execution walk over the
    operations of the root document succeeds, it gives exactly one section
    for each operation, in the order of the operations, each nested
    document expanded in place in the order of its own operations. *)
Theorem acyclic_tree_validates_and_sections_follow_operations (w : World)
    (root : string) (maxWords : Z) (style : string) :
  filepath.IsAbs (cwd w) = true ->
  Acyclic w [] root ->
  AgreesWithRoot w (filepath.Dir root) root ->
  let ctx0 := NewProcessingContext root maxWords style in
  (exists fuel0, forall fuel, (fuel0 <= fuel)%nat ->
     exists t,
       validatePromptFileStructure w fuel root ctx0 = Some (Ok tt, ctx0, t)) /\
  (forall fuel pf secs ctx' t,
     parsePromptFileResult w root = Ok pf ->
     processOperations (processOperation w fuel) (rangePrompt pf) ctx0
       = Some (Ok secs, ctx', t) ->
     Forall2 (SectionFor w style (filepath.Dir root)) (rangePrompt pf) secs /\
     length secs = length (rangePrompt pf)).
Proof.
  intros Hcwd Hacyc Hagree ctx0. split.
  - destruct (validate_acyclic w (filepath.Dir root) Hcwd [] root Hacyc Hagree)
      as [n Hn].
    exists n. intros fuel Hfuel. apply (Hn fuel ctx0 Hfuel); [reflexivity|].
    intros k. cbn. rewrite lookup_empty. tauto.
  - intros fuel pf secs ctx' t _ Hrun.
    apply (processOperations_inv w _ (processOperation_inv w fuel)) in Hrun.
    destruct Hrun as [_ Hok]. destruct (Hok secs eq_refl) as (_ & Hall & _).
    split; [exact Hall|]. symmetry. exact (Forall2_length _ _ _ Hall).
Qed.

Lemma acyclic_tree_validates_and_sections_follow_operations_witness :
  let ctx0 := NewProcessingContext "/work/m.yml" 128000 "xml" in
  (exists fuel0, forall fuel, (fuel0 <= fuel)%nat ->
     exists t,
       validatePromptFileStructure Fixtures.wTwice fuel "/work/m.yml" ctx0
       = Some (Ok tt, ctx0, t)) /\
  (forall fuel pf secs ctx' t,
     parsePromptFileResult Fixtures.wTwice "/work/m.yml" = Ok pf ->
     processOperations (processOperation Fixtures.wTwice fuel) (rangePrompt pf) ctx0
       = Some (Ok secs, ctx', t) ->
     Forall2 (SectionFor Fixtures.wTwice "xml" (filepath.Dir "/work/m.yml"))
             (rangePrompt pf) secs /\
     length secs = length (rangePrompt pf)).
Proof.
  apply (acyclic_tree_validates_and_sections_follow_operations Fixtures.wTwice
           "/work/m.yml" 128000 "xml").
  - reflexivity.
  - apply Acyclic_doc
      with (pf := mkPromptFile (Some [Fixtures.opPrompt "l.yml";
                                      Fixtures.opText "between";
                                      Fixtures.opPrompt "l.yml"])).
    + intros [].
    + reflexivity.
    + intros op [<-|[<-|[<-|[]]]] Href; try discriminate Href;
        (apply Acyclic_doc with (pf := mkPromptFile (Some [Fixtures.opText "leaf"]));
         [intros [H|[]]; discriminate H
         |reflexivity
         |intros op' [<-|[]] Href'; discriminate Href']).
  - apply AgreesWithRoot_doc.
    + intros pf op [= <-] [<-|[<-|[<-|[]]]] Href; reflexivity.
    + intros pf op [= <-] [<-|[<-|[<-|[]]]] Href; try discriminate Href;
        (apply AgreesWithRoot_doc;
         [intros pf' op' [= <-] [<-|[]] Href'; discriminate Href'
         |intros pf' op' [= <-] [<-|[]] Href'; discriminate Href']).
Defined.

(** Why the statement above is about walks that succeed: the execution
    walk marks a nested document under its absolute path and unmarks it
    under the path it was resolved to.  With a relative root path the two
    differ, the document stays marked, and naming the same leaf twice --
    which validation accepts -- ends the execution walk with
    [CircularReference]; with an absolute root path the same tree
    compiles. *)
Lemma executor_keeps_relative_documents_marked :
  processPromptFile Fixtures.wTwice 2 "m.yml" "" 128000 "none"
  = Some (Err (ErrCircularReference "l.yml" ["/work/l.yml"]),
          [EvReadPromptFile "m.yml"; EvReadPromptFile "l.yml";
           EvReadPromptFile "l.yml"; EvReadPromptFile "m.yml";
           EvReadPromptFile "l.yml"; EvAddWords 1; EvAddWords 1;
           EvAddWords 1]) /\
  exists t,
    processPromptFile Fixtures.wTwice 2 "/work/m.yml" "" 128000 "none"
    = Some (Ok tt, t).
Proof. split; [|eexists]; vm_compute; reflexivity. Qed.

(* ===================================================================== *)
(** * Further properties of the single functions *)
(* ===================================================================== *)

(* --------------------------------------------------------------------- *)
(** ** types.go: [GetType] and [GetValue] *)
(* --------------------------------------------------------------------- *)

(** X1: [GetType] succeeds exactly when one of the four fields of the
    operation is populated: it then names that field's variant, and
    [GetValue] returns the string of that very field.  With no field
    populated it fails with [ErrOperationEmpty], with two or more with
    [ErrOperationMultiple]. *)
Theorem GetType_names_the_one_populated_field (op : Operation) :
  match populated op with
  | [] => GetType op = Err ErrOperationEmpty
  | [t] => GetType op = Ok t /\ fieldOf t op = Some (GetValue op)
  | _ :: _ :: _ => GetType op = Err ErrOperationMultiple
  end.
Proof.
  destruct op as [[f|] [p|] [c|] [t|]]; cbv; auto.
Qed.

Lemma GetType_Ok_populated (op : Operation) (t : OperationType) :
  GetType op = Ok t <-> populated op = [t].
Proof.
  destruct op as [[f|] [p|] [c|] [x|]]; cbv; split; intros H;
    try discriminate; try (injection H as <-; reflexivity).
Qed.

Lemma GetType_Err_populated (op : Operation) (e : Error) :
  GetType op = Err e ->
  length (populated op) <> 1%nat /\
  (e = ErrOperationEmpty \/ e = ErrOperationMultiple).
Proof.
  destruct op as [[f|] [p|] [c|] [x|]]; cbv; intros H;
    try discriminate; injection H as <-; split; auto; discriminate.
Qed.

(* --------------------------------------------------------------------- *)
(** ** parser.go: [validatePromptFile] *)
(* --------------------------------------------------------------------- *)

Lemma validateOperations_spec (ops : list Operation) : forall i : nat,
  match validateOperations i ops with
  | Ok _ => Forall (fun op => length (populated op) = 1%nat) ops
  | Err (ErrOperationIndex j e) =>
      exists good bad rest,
        ops = good ++ bad :: rest /\
        j = (i + length good)%nat /\
        Forall (fun op => length (populated op) = 1%nat) good /\
        length (populated bad) <> 1%nat /\
        GetType bad = Err e
  | Err _ => False
  end.
Proof.
  induction ops as [|op ops IH]; intros i; cbn [validateOperations].
  - constructor.
  - destruct (GetType op) as [t|e] eqn:Ht.
    + apply GetType_Ok_populated in Ht.
      specialize (IH (S i)).
      destruct (validateOperations (S i) ops) as [u|e'].
      * constructor; [rewrite Ht; reflexivity | exact IH].
      * destruct e'; try contradiction.
        destruct IH as (good & bad & rest & -> & -> & Hg & Hb & He).
        exists (op :: good), bad, rest.
        split; [reflexivity|]. split; [cbn [length]; lia|].
        split; [constructor; [rewrite Ht; reflexivity | exact Hg]|].
        split; assumption.
    + exists [], op, ops.
      split; [reflexivity|]. split; [cbn [length]; lia|].
      split; [constructor|].
      split; [apply (GetType_Err_populated op e Ht) | exact Ht].
Qed.

(** X2: [validatePromptFile] accepts a document exactly when the [prompt]
    key is present and every operation has exactly one field populated;
    otherwise the error is the missing key, or it carries the index of the
    first operation that has not exactly one field, with the error
    [GetType] gives for that operation. *)
Theorem validatePromptFile_reports_first_malformed_operation (pf : PromptFile) :
  match validatePromptFile pf with
  | Ok _ =>
      exists ops, PromptList pf = Some ops /\
        Forall (fun op => length (populated op) = 1%nat) ops
  | Err ErrMissingPromptKey => PromptList pf = None
  | Err (ErrOperationIndex i e) =>
      exists good bad rest,
        PromptList pf = Some (good ++ bad :: rest) /\
        i = length good /\
        Forall (fun op => length (populated op) = 1%nat) good /\
        length (populated bad) <> 1%nat /\
        GetType bad = Err e
  | Err _ => False
  end.
Proof.
  unfold validatePromptFile. destruct (PromptList pf) as [ops|]; [|reflexivity].
  pose proof (validateOperations_spec ops 0) as H.
  destruct (validateOperations 0 ops) as [u|e].
  - exists ops. split; [reflexivity | exact H].
  - destruct e; try contradiction.
    destruct H as (good & bad & rest & -> & -> & Hg & Hb & He).
    exists good, bad, rest. repeat split; assumption.
Qed.

(* --------------------------------------------------------------------- *)
(** ** parser.go: [isBinaryFile] *)
(* --------------------------------------------------------------------- *)

Lemma existsb_take_get (f : ascii -> bool) (s : string) : forall n : nat,
  Str.existsb f (Str.take n s) = true <->
  exists i c, (i < n)%nat /\ String.get i s = Some c /\ f c = true.
Proof.
  induction s as [|a s IH]; intros n.
  - destruct n; cbn; split; try discriminate;
      intros (i & c & _ & H & _); discriminate.
  - destruct n as [|n]; cbn [Str.take Str.existsb].
    + split; [discriminate | intros (i & c & H & _); lia].
    + rewrite orb_true_iff, IH. split.
      * intros [H | (i & c & Hi & Hg & Hf)].
        -- exists 0%nat, a. split; [lia|]. split; [reflexivity | exact H].
        -- exists (S i), c. split; [lia|]. split; assumption.
      * intros (i & c & Hi & Hg & Hf). destruct i as [|i].
        -- injection Hg as ->. left; exact Hf.
        -- right. exists i, c. split; [lia|]. split; assumption.
Qed.

(** X3: [isBinaryFile] looks at the first 512 bytes only: for a readable
    file it answers [true] exactly when one of the bytes at the positions
    0 to 511 is a zero byte, whatever follows them; it changes nothing in
    the context and probes the file once. *)
Theorem isBinaryFile_checks_first_512_bytes (w : World) (filePath data : string)
    (ctx : ProcessingContext) :
  os_ReadFile w filePath = Some data ->
  exists b : bool,
    isBinaryFile w filePath ctx = Some (Ok b, ctx, [EvProbe filePath]) /\
    (b = true <->
     exists i : nat, (i < 512)%nat /\ String.get i data = Some Ascii.zero).
Proof.
  intros Hr. exists (Str.existsb isZeroByte (Str.take 512 data)).
  split.
  - unfold isBinaryFile. rewrite Hr. reflexivity.
  - rewrite existsb_take_get. split.
    + intros (i & c & Hi & Hg & Hz). exists i. split; [exact Hi|].
      unfold isZeroByte in Hz. apply Ascii.eqb_eq in Hz. subst c. exact Hg.
    + intros (i & Hi & Hg). exists i, Ascii.zero.
      split; [exact Hi|]. split; [exact Hg | reflexivity].
Qed.

(** A file whose only zero byte is the 513th byte is not taken for a binary
    file. *)
Lemma isBinaryFile_checks_first_512_bytes_witness :
  String.get 512 Samples.lateZero = Some Ascii.zero /\
  exists b : bool,
    isBinaryFile Samples.wLateZero "late.bin"
      (NewProcessingContext "main.yml" 10 "xml")
    = Some (Ok b, NewProcessingContext "main.yml" 10 "xml", [EvProbe "late.bin"]) /\
    (b = true <->
     exists i : nat, (i < 512)%nat /\
       String.get i Samples.lateZero = Some Ascii.zero).
Proof.
  split; [vm_compute; reflexivity|].
  apply (isBinaryFile_checks_first_512_bytes Samples.wLateZero "late.bin"
           Samples.lateZero).
  vm_compute. reflexivity.
Defined.

(* --------------------------------------------------------------------- *)
(** ** main.go: [compileOutput] *)
(* --------------------------------------------------------------------- *)

Lemma append_nil_r (s : string) : s +:+ "" = s.
Proof.
  induction s as [|c s IH]; [reflexivity|].
  change (String c s +:+ "") with (String c (s +:+ "")). now rewrite IH.
Qed.

(** [strings.TrimRight(s, "\n")] removes line feeds from the end, and
    nothing else; what is left does not end with a line feed. *)
Lemma TrimRightNl_spec (s : string) :
  exists n : nat,
    s = Str.TrimRightNl s +:+ newlines n /\
    lastChar (Str.TrimRightNl s) <> Some Str.newline.
Proof.
  induction s as [|c r (n & Hr & Hl)].
  - exists 0%nat. split; [reflexivity | discriminate].
  - cbn [Str.TrimRightNl].
    destruct (Str.TrimRightNl r) as [|d r'] eqn:Ht.
    + destruct (Ascii.eqb c Str.newline) eqn:Hc.
      * apply Ascii.eqb_eq in Hc. subst c.
        exists (S n). split; [|discriminate].
        rewrite Hr at 1. reflexivity.
      * exists n. split.
        -- rewrite Hr at 1. reflexivity.
        -- cbn. intros [= ->]. now rewrite Ascii.eqb_refl in Hc.
    + exists n. split.
      * rewrite Hr at 1. reflexivity.
      * exact Hl.
Qed.

(** X4: the compiled output is what the loop over the sections has written
    with the line feeds at its end replaced by exactly one: only line feeds
    are removed, the output ends with a line feed, and the byte before it,
    if there is one, is no line feed. *)
Theorem compileOutput_ends_with_exactly_one_newline
    (content : CompiledContent) (delimiterStyle : string) :
  exists (body : string) (n : nat),
    compileOutput content delimiterStyle = body +:+ Str.nl /\
    lastChar body <> Some Str.newline /\
    renderSections 0 delimiterStyle (Sections content) = body +:+ newlines n.
Proof.
  unfold compileOutput.
  destruct (TrimRightNl_spec
              (renderSections 0 delimiterStyle (Sections content)))
    as (n & Hr & Hl).
  exists (Str.TrimRightNl (renderSections 0 delimiterStyle (Sections content))), n.
  split; [reflexivity|]. split; [exact Hl | exact Hr].
Qed.

Lemma isSpace_newline : Str.isSpace Str.newline = true.
Proof. reflexivity. Qed.

Lemma breaks_newlines (n : nat) : breaks (newlines n).
Proof. destruct n; [exact I | reflexivity]. Qed.

Lemma countWords_newlines (n : nat) : countWords (newlines n) = 0.
Proof.
  rewrite countWords_length. induction n as [|n IH]; [reflexivity|].
  change (newlines (S n)) with (String Str.newline (newlines n)).
  rewrite Fields_cons_space by reflexivity. exact IH.
Qed.

Lemma countWords_TrimRightNl (s : string) :
  countWords (Str.TrimRightNl s +:+ Str.nl) = countWords s.
Proof.
  destruct (TrimRightNl_spec s) as (n & Hs & _).
  rewrite countWords_app by reflexivity.
  rewrite Hs at 2. rewrite countWords_app by apply breaks_newlines.
  rewrite countWords_newlines. reflexivity.
Qed.

Lemma countWords_TrimLeftNl (s : string) :
  countWords (Str.TrimLeftNl s) = countWords s.
Proof.
  rewrite !countWords_length.
  induction s as [|c r IH]; [reflexivity|].
  cbn [Str.TrimLeftNl]. destruct (Ascii.eqb c Str.newline) eqn:Hc; [|reflexivity].
  apply Ascii.eqb_eq in Hc. subst c.
  rewrite Fields_cons_space by reflexivity. exact IH.
Qed.

(** A header of a style other than none starts and ends with a line feed. *)
Lemma formatSectionHeader_starts_nl (source style : string) :
  exists h, formatSectionHeader source style = Str.nl +:+ h.
Proof.
  unfold formatSectionHeader.
  repeat match goal with
         | |- context [if ?b then _ else _] => destruct b
         end; eexists; reflexivity.
Qed.

Lemma breaks_formatSectionHeader_app (source style rest : string) :
  breaks (formatSectionHeader source style +:+ rest).
Proof.
  destruct (formatSectionHeader_starts_nl source style) as [h ->].
  reflexivity.
Qed.

Lemma countWords_header_app (source style rest : string) :
  countWords (formatSectionHeader source style +:+ rest)
  = countWords (formatSectionHeader source style) + countWords rest.
Proof.
  destruct (formatSectionHeader_ends_nl source style) as [h Hh].
  rewrite Hh at 1. rewrite append_assoc.
  rewrite countWords_app by reflexivity.
  rewrite countWords_nl.
  rewrite Hh. rewrite countWords_app by reflexivity.
  change (countWords Str.nl) with 0. lia.
Qed.

Lemma renderSections_words (style : string) :
  String.eqb style "none" = false ->
  forall secs i,
    (0 < i)%nat ->
    breaks (renderSections i style secs) /\
    countWords (renderSections i style secs) = renderedWords style secs.
Proof.
  intros Hs. induction secs as [|s rest IH]; intros i Hi.
  - split; [exact I | reflexivity].
  - cbn [renderSections renderedWords]. rewrite Hs. cbn [negb].
    destruct i as [|i]; [lia|]. cbn [Nat.eqb].
    split; [apply breaks_formatSectionHeader_app|].
    rewrite countWords_header_app.
    destruct (IH (S (S i)) ltac:(lia)) as [Hb Hw].
    rewrite countWords_app by exact Hb. rewrite Hw. lia.
Qed.

Lemma TrimLeftNl_header_app (source style rest : string) :
  String.eqb style "none" = false ->
  countWords (Str.TrimLeftNl (formatSectionHeader source style) +:+ rest)
  = countWords (formatSectionHeader source style) + countWords rest.
Proof.
  intros Hs.
  destruct (formatSectionHeader_ends_nl source style) as [h Hh].
  assert (Ht : exists h', Str.TrimLeftNl (formatSectionHeader source style)
                          = h' +:+ Str.nl).
  { unfold formatSectionHeader. rewrite Hs.
    destruct (String.eqb style "xml");
      [exists ("<!-- pcp-source: " +:+ source +:+ " -->");
       cbn; now rewrite !append_assoc|].
    destruct (String.eqb style "minimal");
      [exists ("=== PCP SOURCE: " +:+ source +:+ " ===");
       cbn; now rewrite !append_assoc|].
    destruct (String.eqb style "full").
    - exists ("----------------------------------" +:+ Str.nl +:+
              "BEGIN: " +:+ source +:+ Str.nl +:+
              "----------------------------------").
      cbn. now rewrite !append_assoc.
    - exists ("<!-- pcp-source: " +:+ source +:+ " -->").
      cbn; now rewrite !append_assoc. }
  destruct Ht as [h' Ht].
  rewrite <- (countWords_TrimLeftNl (formatSectionHeader source style)).
  rewrite Ht. rewrite append_assoc.
  rewrite countWords_app by reflexivity. rewrite countWords_nl.
  rewrite countWords_app by reflexivity.
  change (countWords Str.nl) with 0. lia.
Qed.

(** The fields of a concatenation are at most the fields of its parts: a
    word that ends the first part and a word that starts the second become
    one. *)
Lemma length_Fields_app_le (a b : string) :
  (length (Str.Fields (a +:+ b))
   <= length (Str.Fields a) + length (Str.Fields b))%nat.
Proof.
  induction a as [|c r IH];
    [change ("" +:+ b) with b; change (Str.Fields "") with (@nil string);
     cbn [length]; lia|].
  change (String c r +:+ b) with (String c (r +:+ b)).
  destruct (Str.isSpace c) eqn:Hc.
  - now rewrite !Fields_cons_space.
  - rewrite !length_Fields_cons by assumption.
    destruct r as [|c' r'].
    + change ("" +:+ b) with b. destruct b as [|c' b'];
        [change (Str.Fields "") with (@nil string); cbn [length]; lia|].
      cbv beta match. destruct (Str.isSpace c'); lia.
    + change (String c' r' +:+ b) with (String c' (r' +:+ b)) in *.
      cbv beta match. destruct (Str.isSpace c'); lia.
Qed.

Lemma countWords_app_le (a b : string) :
  countWords (a +:+ b) <= countWords a + countWords b.
Proof.
  rewrite !countWords_length. pose proof (length_Fields_app_le a b). lia.
Qed.

Lemma renderSections_none_words (secs : list ContentSection) : forall i,
  countWords (renderSections i "none" secs) <= sectionWords secs.
Proof.
  induction secs as [|s rest IH]; intros i; [reflexivity|].
  cbn [renderSections sectionWords].
  change (negb (String.eqb "none" "none")) with false. cbv iota.
  change ("" +:+ Content s +:+ renderSections (S i) "none" rest)
    with (Content s +:+ renderSections (S i) "none" rest).
  pose proof (countWords_app_le (Content s) (renderSections (S i) "none" rest)).
  specialize (IH (S i)). lia.
Qed.

Lemma compileOutput_words_none (sections : list ContentSection) :
  countWords (compileOutput (mkCompiledContent sections) "none")
  <= sectionWords sections.
Proof.
  unfold compileOutput. rewrite countWords_TrimRightNl.
  apply renderSections_none_words.
Qed.

(** X5: the words of the compiled output.  With a delimiter style other
    than none, the output holds the words of every section header and of
    every section content, each counted once: no word of a content merges
    with one of a header or of the next section.  With the style none the
    contents are written one after the other, and the output holds at most
    the words of the contents. *)
Theorem compileOutput_word_count (content : CompiledContent)
    (delimiterStyle : string) :
  if String.eqb delimiterStyle "none"
  then countWords (compileOutput content delimiterStyle)
       <= sectionWords (Sections content)
  else countWords (compileOutput content delimiterStyle)
       = renderedWords delimiterStyle (Sections content).
Proof.
  destruct (String.eqb delimiterStyle "none") eqn:Hs.
  - apply String.eqb_eq in Hs. subst delimiterStyle.
    destruct content as [sections]. apply compileOutput_words_none.
  - unfold compileOutput. rewrite countWords_TrimRightNl.
    destruct (Sections content) as [|s rest]; [reflexivity|].
    cbn [renderSections renderedWords]. rewrite Hs. cbn [negb Nat.eqb].
    rewrite TrimLeftNl_header_app by exact Hs.
    destruct (renderSections_words delimiterStyle Hs rest 1 ltac:(lia))
      as [Hb Hw].
    rewrite countWords_app by exact Hb. rewrite Hw. lia.
Qed.

(* --------------------------------------------------------------------- *)
(** ** processor.go: the content of a [prompt] section *)
(* --------------------------------------------------------------------- *)

Lemma combineSections_word_count (p style : string) (secs : list ContentSection) :
  forall i,
    countWords (combineSections i p style secs) = combinedWords p style secs.
Proof.
  induction secs as [|s rest IH]; intros i; [reflexivity|].
  cbn [combineSections combinedWords].
  assert (Hsep : forall x,
            countWords ((if Nat.ltb 0 i then Str.nl else "") +:+ x)
            = countWords x).
  { intros x. destruct (Nat.ltb 0 i); [apply countWords_nl|reflexivity]. }
  rewrite Hsep. rewrite countWords_header_app.
  rewrite countWords_app by apply combineSections_breaks.
  rewrite IH. lia.
Qed.

(** X6: the content that [processPromptOperation] builds for a nested
    document holds the words of every nested header and of every child
    section, each counted once, under every delimiter style: words of
    neighbouring sections never merge, and the separating line feeds add
    none. *)
Theorem combineSections_counts_headers_and_contents (promptPath
    delimiterStyle : string) (allSections : list ContentSection) :
  countWords (combineSections 0 promptPath delimiterStyle allSections)
  = combinedWords promptPath delimiterStyle allSections.
Proof. apply combineSections_word_count. Qed.

(* --------------------------------------------------------------------- *)
(** ** The word budget over a whole run *)
(* --------------------------------------------------------------------- *)

Lemma parsePromptFileResult_not_word_limit (w : World) (p : string) :
  isWordLimit (parsePromptFileResult w p) = false.
Proof.
  unfold parsePromptFileResult.
  destruct (os_ReadFile w p); [|reflexivity].
  destruct (yamlUnmarshal w s); [reflexivity|].
  destruct (validatePromptFile p0); reflexivity.
Qed.

Lemma fetch_not_word_limit (w : World) (base : string) (op : Operation) :
  isWordLimit (fst (fetch w base op)) = false.
Proof.
  unfold fetch.
  destruct (GetType op) as [[]|e] eqn:Ht; cbn [fst].
  - destruct (os_NotExist w _); [reflexivity|].
    destruct (os_ReadFile w _); [|reflexivity].
    destruct (Str.existsb _ _); reflexivity.
  - reflexivity.
  - destruct (cmdErr _); [|reflexivity].
    destruct (cmdProcessState _) as [z|]; [|reflexivity].
    destruct z as [|p|p]; try reflexivity.
    destruct p; reflexivity.
  - reflexivity.
  - destruct (GetType_Err_populated op e Ht) as [_ [-> | ->]]; reflexivity.
Qed.

Lemma budgetInv_refl {A} ctx (r : Result A) :
  isWordLimit r = false ->
  match r with Ok _ => True | Err _ => True end ->
  budgetInv ctx r ctx.
Proof.
  intros Hr _. split; [reflexivity|]. split; [tauto|].
  destruct r as [a|e]; [tauto|]. destruct e; try exact I. discriminate.
Qed.

Lemma afterCharge_budgetInv ctx sec :
  budgetInv ctx (fst (afterCharge ctx sec)) (snd (afterCharge ctx sec)).
Proof.
  unfold afterCharge. cbn [fst snd]. split; [reflexivity|].
  split; [intros _; apply wrap64_range|].
  cbn [wordCount maxWords set_wordCount].
  destruct (maxWords ctx <? wrap64 (wordCount ctx + countWords (Content sec)))
    eqn:Hlt.
  - apply Z.ltb_lt in Hlt. repeat split; [exact Hlt].
  - apply Z.ltb_ge in Hlt. intros _. exact Hlt.
Qed.

Lemma charge_budgetInv f ctx r ctx' t :
  isWordLimit (fst f) = false ->
  charge f ctx = Some (r, ctx', t) -> budgetInv ctx r ctx'.
Proof.
  destruct f as [[sec|e] t0]; cbn [fst charge]; intros Hf [= <- <- <-].
  - apply afterCharge_budgetInv.
  - apply budgetInv_refl; [exact Hf | exact I].
Qed.

(** Two steps in a row: the second starts where the first has ended. *)
Lemma budgetInv_trans {A B} c1 c2 c3 (a : A) (r : Result B) :
  budgetInv c1 (Ok a) c2 -> budgetInv c2 r c3 -> budgetInv c1 r c3.
Proof.
  intros (Hm1 & Hr1 & Hb1) (Hm2 & Hr2 & Hb2).
  split; [congruence|]. split; [tauto|].
  destruct r as [b|e].
  - intros Hle. rewrite <- Hm1. apply Hb2. rewrite Hm1. auto.
  - destruct e; try exact I. destruct Hb2 as (-> & Hlt & ->).
    split; [exact Hm1|]. split; [exact Hlt | reflexivity].
Qed.

Lemma budgetInv_err {A B} c1 c2 (e : Error) :
  budgetInv c1 (@Err A e) c2 -> budgetInv c1 (@Err B e) c2.
Proof. intros H. exact H. Qed.

Lemma processOperations_budgetInv (P : Operation -> M ContentSection) :
  (forall op ctx r ctx' t, P op ctx = Some (r, ctx', t) -> budgetInv ctx r ctx') ->
  forall ops ctx r ctx' t,
    processOperations P ops ctx = Some (r, ctx', t) -> budgetInv ctx r ctx'.
Proof.
  intros HP. induction ops as [|op ops IH]; intros ctx r ctx' t H.
  - injection H as <- <- <-. apply budgetInv_refl; [reflexivity | exact I].
  - cbn [processOperations] in H.
    apply bind_inv in H as [(e & H & ->) | (sec & c1 & t1 & t2 & H1 & H2 & ->)].
    + apply (budgetInv_err (A := ContentSection)). eapply HP; eassumption.
    + pose proof (HP _ _ _ _ _ H1) as I1.
      apply bind_inv in H2 as [(e & H2 & ->) | (secs & c2 & t3 & t4 & H2 & H3 & ->)].
      * apply (budgetInv_trans ctx c1 ctx' sec); [exact I1|].
        apply (budgetInv_err (A := list ContentSection)).
        eapply IH; eassumption.
      * injection H3 as <- <- <-.
        apply (budgetInv_trans ctx c1 c2 sec); [exact I1|].
        exact (IH _ _ _ _ H2).
Qed.

Lemma processOperation_budgetInv (w : World) (fuel : nat) :
  forall op ctx r ctx' t,
    processOperation w fuel op ctx = Some (r, ctx', t) -> budgetInv ctx r ctx'.
Proof.
  induction fuel as [|fuel IH]; intros op ctx r ctx' t H.
  - destruct (isPromptRef op) eqn:Hp.
    + rewrite processOperation_prompt_0 in H by exact Hp. discriminate.
    + rewrite processOperation_flat in H by exact Hp.
      eapply charge_budgetInv; [apply fetch_not_word_limit | exact H].
  - destruct (isPromptRef op) eqn:Hp.
    + rewrite processOperation_prompt in H by exact Hp.
      rewrite processPromptOperation_run in H. cbv zeta in H.
      destruct (IsVisited w ctx (ResolvePath ctx (GetValue op))).
      { injection H as <- <- <-. apply budgetInv_refl; [reflexivity | exact I]. }
      pose proof (parsePromptFileResult_not_word_limit w
                    (ResolvePath ctx (GetValue op))) as Hnw.
      destruct (parsePromptFileResult w (ResolvePath ctx (GetValue op)))
        as [pf|e].
      2:{ injection H as <- <- <-. apply budgetInv_refl; [exact Hnw | exact I]. }
      match type of H with
      | context [processOperations ?P ?ops ?c1] =>
          destruct (processOperations P ops c1) as [[[r2 c2] t2]|] eqn:Hops;
          [|discriminate];
          pose proof (processOperations_budgetInv P IH ops c1 r2 c2 t2 Hops)
            as I2
      end.
      destruct r2 as [secs|e].
      * match type of H with
        | Some (fst (afterCharge ?c3 ?sec), _, _) = _ =>
            pose proof (afterCharge_budgetInv c3 sec) as I3;
            destruct (afterCharge c3 sec) as [r3 c4]
        end.
        cbn [fst snd] in H, I3. injection H as <- <- <-.
        destruct I2 as (Hm2 & Hr2 & Hb2).
        cbn [maxWords wordCount set_basePath set_visitedFiles] in Hm2, Hr2, Hb2.
        destruct I3 as (Hm3 & Hr3 & Hb3).
        cbn [maxWords wordCount set_basePath set_visitedFiles] in Hm3, Hr3, Hb3.
        split; [congruence|]. split; [tauto|].
        destruct r3 as [s|e].
        -- intros Hle. rewrite <- Hm2. apply Hb3. rewrite Hm2. auto.
        -- destruct e; try exact I. destruct Hb3 as (-> & Hlt & ->).
           split; [exact Hm2|]. split; [exact Hlt | reflexivity].
      * injection H as <- <- <-. exact I2.
    + rewrite processOperation_flat in H by exact Hp.
      eapply charge_budgetInv; [apply fetch_not_word_limit | exact H].
Qed.

Lemma charged_read_only (t : list Event) :
  Forall (fun e => isReadPromptFile e = true) t -> charged t = 0.
Proof.
  induction 1 as [|e t He _ IH]; [reflexivity|].
  destruct e; try discriminate. exact IH.
Qed.

Lemma validateNested_not_word_limit (w : World) (fuel : nat) :
  (forall p ctx r ctx' t,
     validatePromptFileStructure w fuel p ctx = Some (r, ctx', t) ->
     isWordLimit r = false) ->
  forall ops ctx r ctx' t,
    validateNested (validatePromptFileStructure w fuel) ops ctx
      = Some (r, ctx', t) ->
    isWordLimit r = false.
Proof.
  intros IH. induction ops as [|op ops IHops]; intros ctx r ctx' t H.
  - injection H as <- <- <-. reflexivity.
  - cbn [validateNested] in H.
    destruct (GetType op) as [[]|e]; try (eapply IHops; exact H).
    rewrite bind_get in H.
    apply bind_inv in H as [(e & H & ->) | (u & c1 & t1 & t2 & H1 & H2 & ->)].
    + apply IH in H. exact H.
    + eapply IHops; exact H2.
Qed.

Lemma validate_not_word_limit (w : World) (fuel : nat) :
  forall p ctx r ctx' t,
    validatePromptFileStructure w fuel p ctx = Some (r, ctx', t) ->
    isWordLimit r = false.
Proof.
  induction fuel as [|fuel IH]; intros p ctx r ctx' t H; [discriminate|].
  rewrite validate_S in H. cbv zeta in H.
  destruct (IsVisited w ctx (Abs w p)).
  { injection H as <- <- <-. reflexivity. }
  pose proof (parsePromptFileResult_not_word_limit w p) as Hnw.
  destruct (parsePromptFileResult w p) as [pf|e].
  2:{ injection H as <- <- <-. exact Hnw. }
  match type of H with
  | context [validateNested ?v ?ops ?c1] =>
      destruct (validateNested v ops c1) as [[[r2 c2] t2]|] eqn:Hn;
      [|discriminate]
  end.
  injection H as <- <- <-.
  eapply validateNested_not_word_limit; [exact IH | exact Hn].
Qed.

(** The stages of a run of [processPromptFile]. *)
Lemma processPromptFile_inv (w : World) (fuel : nat)
    (promptFile outputFile : string) (maxWords : Z) (style : string) r t :
  processPromptFile w fuel promptFile outputFile maxWords style = Some (r, t) ->
  let ctx := NewProcessingContext promptFile maxWords style in
  (exists e c t1,
     validatePromptFileStructure w fuel promptFile ctx = Some (Err e, c, t1) /\
     r = Err e /\ t = t1) \/
  (exists c t1,
     validatePromptFileStructure w fuel promptFile ctx = Some (Ok tt, c, t1) /\
     ((exists e, parsePromptFileResult w promptFile = Err e /\
                 r = Err e /\ t = t1 ++ [EvReadPromptFile promptFile]) \/
      (exists pf r3 c3 t3,
         parsePromptFileResult w promptFile = Ok pf /\
         processOperations (processOperation w fuel) (rangePrompt pf) ctx
           = Some (r3, c3, t3) /\
         match r3 with
         | Err e =>
             r = Err e /\ t = t1 ++ [EvReadPromptFile promptFile] ++ t3
         | Ok sections =>
             let output := compileOutput (mkCompiledContent sections) style in
             if Str.is_empty outputFile
             then r = Ok tt /\
                  t = t1 ++ [EvReadPromptFile promptFile] ++ t3 ++
                      [EvStdout output]
             else r = match writeFile w outputFile with
                      | Some e => Err (ErrWriteFailed outputFile e)
                      | None => Ok tt
                      end /\
                  t = t1 ++ [EvReadPromptFile promptFile] ++ t3 ++
                      [EvWriteFile outputFile output]
         end))).
Proof.
  intros H. cbv zeta. unfold processPromptFile in H.
  set (ctx := NewProcessingContext promptFile maxWords style) in *.
  destruct (validatePromptFileStructure w fuel promptFile ctx)
    as [[[r1 c1] t1]|] eqn:Hv; [|discriminate].
  destruct r1 as [[]|e].
  2:{ injection H as <- <-. left. exists e, c1, t1. auto. }
  right. exists c1, t1. split; [reflexivity|].
  rewrite parsePromptFile_run in H.
  destruct (parsePromptFileResult w promptFile) as [pf|e].
  2:{ injection H as <- <-. left. exists e. auto. }
  right.
  destruct (processOperations (processOperation w fuel) (rangePrompt pf) ctx)
    as [[[r3 c3] t3]|] eqn:Hops; [|discriminate].
  exists pf, r3, c3, t3. split; [reflexivity|]. split; [exact Hops|].
  destruct r3 as [sections|e].
  - cbv zeta. destruct (Str.is_empty outputFile).
    + injection H as <- <-. auto.
    + destruct (writeFile w outputFile); injection H as <- <-; auto.
  - injection H as <- <-. auto.
Qed.

Lemma charged_run (promptFile : string) (t1 t3 rest : list Event) :
  Forall (fun e => isReadPromptFile e = true) t1 ->
  charged rest = 0 ->
  charged (t1 ++ [EvReadPromptFile promptFile] ++ t3 ++ rest) = charged t3.
Proof.
  intros H1 Hr. rewrite !charged_app, (charged_read_only t1 H1), Hr.
  cbn [charged]. lia.
Qed.

(** X7: the word budget over a whole run.  A run that fails with
    [ErrWordLimitExceeded] reports the limit it was started with and a
    current total above it, which is the sum of all the words charged in
    the run (in the arithmetic of [int]); a run that succeeds under a
    budget that is not negative has charged no more than the budget. *)
Theorem word_budget_is_enforced (w : World) (fuel : nat)
    (promptFile outputFile : string) (budget : Z) (delimiterStyle : string)
    (r : Result unit) (t : list Event) :
  processPromptFile w fuel promptFile outputFile budget delimiterStyle
    = Some (r, t) ->
  match r with
  | Ok _ => 0 <= budget -> wrap64 (charged t) <= budget
  | Err (ErrWordLimitExceeded current limit) =>
      limit = budget /\ limit < current /\ current = wrap64 (charged t)
  | Err _ => True
  end.
Proof.
  intros H. apply processPromptFile_inv in H. cbv zeta in H.
  destruct H as [(e & c & t1 & Hv & -> & ->) | (c & t1 & Hv & H)].
  { apply validate_not_word_limit in Hv. destruct e; try exact I. discriminate. }
  pose proof (validate_frame _ _ _ _ _ _ _ Hv) as [_ Ht1].
  destruct H as [(e & Hp & -> & ->) | (pf & r3 & c3 & t3 & Hp & Hops & H)].
  { pose proof (parsePromptFileResult_not_word_limit w promptFile) as Hnw.
    rewrite Hp in Hnw. destruct e; try exact I. discriminate. }
  pose proof (processOperations_inv w _ (processOperation_inv w fuel)
                _ _ _ _ _ Hops) as [(_ & _ & _ & Hwc & Hnn) _].
  pose proof (processOperations_budgetInv _ (processOperation_budgetInv w fuel)
                _ _ _ _ _ Hops) as (_ & Hr & Hb).
  cbn [wordCount maxWords NewProcessingContext] in Hwc, Hr, Hb.
  assert (Hc3 : wordCount c3 = wrap64 (charged t3)).
  { rewrite <- (wrap64_small (wordCount c3))
      by (apply Hr; unfold int64; lia).
    rewrite Hwc. reflexivity. }
  assert (Ht : forall rest, charged rest = 0 ->
            charged (t1 ++ [EvReadPromptFile promptFile] ++ t3 ++ rest)
            = charged t3)
    by (intros rest Hrest; apply charged_run; assumption).
  destruct r3 as [sections|e].
  - cbv zeta in H. rewrite Hc3 in Hb.
    destruct (Str.is_empty outputFile).
    + destruct H as [-> ->]. rewrite Ht by reflexivity. exact Hb.
    + destruct H as [-> ->]. rewrite Ht by reflexivity.
      destruct (writeFile w outputFile); [exact I | exact Hb].
  - destruct H as [-> ->].
    rewrite <- (app_nil_r t3), Ht by reflexivity.
    destruct e; try exact I. rewrite <- Hc3. exact Hb.
Qed.

(** The nested document of two words is charged four words: under a budget
    of two the run fails and reports the total of four. *)
Lemma word_budget_is_enforced_witness :
  exists t : list Event,
    processPromptFile Fixtures.wTwoWords 2 "m.yml" "" 2 "none"
      = Some (Err (ErrWordLimitExceeded 4 2), t) /\
    4 = wrap64 (charged t).
Proof.
  eexists. split; [vm_compute; reflexivity|].
  refine (proj2 (proj2
            (word_budget_is_enforced Fixtures.wTwoWords 2 "m.yml" "" 2 "none"
               (Err (ErrWordLimitExceeded 4 2)) _ _))).
  vm_compute. reflexivity.
Defined.

(* --------------------------------------------------------------------- *)
(** ** Raising the word budget *)
(* --------------------------------------------------------------------- *)

(** The validation walk never looks at the budget. *)
Lemma validateNested_budget (v : string -> M unit) (B : Z) :
  (forall p ctx, v p (set_maxWords B ctx) = withBudget B (v p ctx)) ->
  forall ops ctx,
    validateNested v ops (set_maxWords B ctx)
    = withBudget B (validateNested v ops ctx).
Proof.
  intros Hv. induction ops as [|op ops IH]; intros ctx; [reflexivity|].
  cbn [validateNested].
  destruct (GetType op) as [[]|e]; try apply IH.
  rewrite !bind_get.
  change (ResolvePath (set_maxWords B ctx) (GetValue op))
    with (ResolvePath ctx (GetValue op)).
  unfold bind. rewrite Hv.
  destruct (v (ResolvePath ctx (GetValue op)) ctx) as [[[r c] t]|];
    [|reflexivity].
  cbn [withBudget]. destruct r as [u|e]; [|reflexivity].
  rewrite IH.
  destruct (validateNested v ops c) as [[[r' c'] t']|]; reflexivity.
Qed.

Lemma validate_budget (w : World) (B : Z) (fuel : nat) :
  forall p ctx,
    validatePromptFileStructure w fuel p (set_maxWords B ctx)
    = withBudget B (validatePromptFileStructure w fuel p ctx).
Proof.
  induction fuel as [|fuel IH]; intros p ctx; [reflexivity|].
  rewrite !validate_S. cbv zeta.
  change (IsVisited w (set_maxWords B ctx) (Abs w p))
    with (IsVisited w ctx (Abs w p)).
  destruct (IsVisited w ctx (Abs w p)); [reflexivity|].
  destruct (parsePromptFileResult w p) as [pf|e]; [|reflexivity].
  change (visitedFiles (set_maxWords B ctx)) with (visitedFiles ctx).
  match goal with
  | |- context [validateNested ?v ?ops (set_visitedFiles ?m (set_maxWords B ctx))] =>
      change (set_visitedFiles m (set_maxWords B ctx))
        with (set_maxWords B (set_visitedFiles m ctx));
      rewrite (validateNested_budget v B IH ops);
      destruct (validateNested v ops (set_visitedFiles m ctx))
        as [[[r c] t]|]; reflexivity
  end.
Qed.

Lemma afterCharge_raise ctx sec (B : Z) :
  isWordLimit (fst (afterCharge ctx sec)) = false -> maxWords ctx <= B ->
  afterCharge (set_maxWords B ctx) sec
  = (fst (afterCharge ctx sec), set_maxWords B (snd (afterCharge ctx sec))).
Proof.
  unfold afterCharge. cbn [fst snd maxWords wordCount set_maxWords].
  intros Hnw Hle.
  destruct (maxWords ctx <? wrap64 (wordCount ctx + countWords (Content sec)))
    eqn:Hlt; [discriminate|].
  apply Z.ltb_ge in Hlt.
  assert (Hb : (B <? wrap64 (wordCount ctx + countWords (Content sec))) = false)
    by (apply Z.ltb_ge; lia).
  rewrite Hb. reflexivity.
Qed.

Lemma charge_raise f ctx r ctx' t (B : Z) :
  charge f ctx = Some (r, ctx', t) ->
  isWordLimit r = false -> maxWords ctx <= B ->
  charge f (set_maxWords B ctx) = Some (r, set_maxWords B ctx', t).
Proof.
  destruct f as [[sec|e] t0]; cbn [charge]; intros [= <- <- <-] Hnw Hle.
  - rewrite (afterCharge_raise ctx sec B Hnw Hle). reflexivity.
  - reflexivity.
Qed.

Lemma processOperations_raise (P : Operation -> M ContentSection) (B : Z) :
  (forall op ctx r ctx' t, P op ctx = Some (r, ctx', t) ->
     isWordLimit r = false -> maxWords ctx <= B ->
     P op (set_maxWords B ctx) = Some (r, set_maxWords B ctx', t)) ->
  (forall op ctx r ctx' t, P op ctx = Some (r, ctx', t) ->
     maxWords ctx' = maxWords ctx) ->
  forall ops ctx r ctx' t,
    processOperations P ops ctx = Some (r, ctx', t) ->
    isWordLimit r = false -> maxWords ctx <= B ->
    processOperations P ops (set_maxWords B ctx)
    = Some (r, set_maxWords B ctx', t).
Proof.
  intros HP Hmax. induction ops as [|op ops IH]; intros ctx r ctx' t H Hnw Hle.
  - injection H as <- <- <-. reflexivity.
  - cbn [processOperations] in H |- *.
    apply bind_inv in H as [(e & H & ->) | (sec & c1 & t1 & t2 & H1 & H2 & ->)].
    + erewrite bind_err; [reflexivity|]. apply HP; assumption.
    + erewrite bind_ok by (apply HP; [exact H1 | reflexivity | exact Hle]).
      pose proof (Hmax _ _ _ _ _ H1) as Hm1.
      apply bind_inv in H2 as [(e & H2 & ->) | (secs & c2 & t3 & t4 & H2 & H3 & ->)].
      * erewrite bind_err; [reflexivity|].
        apply IH; [exact H2 | exact Hnw | lia].
      * injection H3 as <- <- <-.
        erewrite bind_ok by (apply IH; [exact H2 | reflexivity | lia]).
        reflexivity.
Qed.

Lemma processOperation_maxWords (w : World) (fuel : nat) op ctx r ctx' t :
  processOperation w fuel op ctx = Some (r, ctx', t) ->
  maxWords ctx' = maxWords ctx.
Proof.
  intros H. apply processOperation_inv in H as [(_ & Hm & _) _]. exact Hm.
Qed.

Lemma processOperation_raise (w : World) (B : Z) (fuel : nat) :
  forall op ctx r ctx' t,
    processOperation w fuel op ctx = Some (r, ctx', t) ->
    isWordLimit r = false -> maxWords ctx <= B ->
    processOperation w fuel op (set_maxWords B ctx)
    = Some (r, set_maxWords B ctx', t).
Proof.
  induction fuel as [|fuel IH]; intros op ctx r ctx' t H Hnw Hle.
  - destruct (isPromptRef op) eqn:Hp.
    + rewrite processOperation_prompt_0 in H by exact Hp. discriminate.
    + rewrite processOperation_flat in H |- * by exact Hp.
      apply charge_raise; assumption.
  - destruct (isPromptRef op) eqn:Hp.
    + rewrite processOperation_prompt in H |- * by exact Hp.
      rewrite processPromptOperation_run in H |- *. cbv zeta in H |- *.
      change (ResolvePath (set_maxWords B ctx) (GetValue op))
        with (ResolvePath ctx (GetValue op)).
      change (IsVisited w (set_maxWords B ctx) (ResolvePath ctx (GetValue op)))
        with (IsVisited w ctx (ResolvePath ctx (GetValue op))).
      destruct (IsVisited w ctx (ResolvePath ctx (GetValue op))).
      { injection H as <- <- <-. reflexivity. }
      destruct (parsePromptFileResult w (ResolvePath ctx (GetValue op)))
        as [pf|e].
      2:{ injection H as <- <- <-. reflexivity. }
      match type of H with
      | context [processOperations ?P ?ops ?c1] =>
          destruct (processOperations P ops c1) as [[[r2 c2] t2]|] eqn:Hops;
          [|discriminate];
          pose proof (processOperations_raise P B IH
                        (processOperation_maxWords w fuel) ops c1 r2 c2 t2 Hops)
            as Hraise;
          pose proof (processOperations_inv w P (processOperation_inv w fuel)
                        ops c1 r2 c2 t2 Hops) as [(_ & Hm2 & _) _]
      end.
      cbn [maxWords set_visitedFiles set_basePath] in Hraise, Hm2.
      destruct r2 as [secs|e].
      * match type of H with
        | Some (fst (afterCharge ?c3 ?sec), _, _) = _ =>
            pose proof (afterCharge_raise c3 sec B) as Hac;
            destruct (afterCharge c3 sec) as [r3 c4] eqn:Hc3
        end.
        cbn [fst snd] in H, Hac. injection H as <- <- <-.
        cbn [maxWords set_visitedFiles set_basePath] in Hac.
        specialize (Hraise eq_refl Hle). specialize (Hac Hnw ltac:(lia)).
        match goal with
        | |- context [processOperations ?P ?ops ?c1'] =>
            change (processOperations P ops c1')
              with (processOperations P ops
                      (set_maxWords B
                         (set_visitedFiles
                            (<[Abs w (ResolvePath ctx (GetValue op)) := true]>
                               (visitedFiles ctx))
                            (set_basePath
                               (filepath.Dir (ResolvePath ctx (GetValue op)))
                               ctx))))
        end.
        rewrite Hraise.
        unfold set_maxWords, set_basePath, set_visitedFiles in Hac |- *.
        cbn [basePath visitedFiles delimiterStyle maxWords wordCount]
          in Hac |- *.
        rewrite Hac. reflexivity.
      * injection H as <- <- <-.
        specialize (Hraise Hnw Hle).
        match goal with
        | |- context [processOperations ?P ?ops ?c1'] =>
            change (processOperations P ops c1')
              with (processOperations P ops
                      (set_maxWords B
                         (set_visitedFiles
                            (<[Abs w (ResolvePath ctx (GetValue op)) := true]>
                               (visitedFiles ctx))
                            (set_basePath
                               (filepath.Dir (ResolvePath ctx (GetValue op)))
                               ctx))))
        end.
        rewrite Hraise. reflexivity.
    + rewrite processOperation_flat in H |- * by exact Hp.
      apply charge_raise; assumption.
Qed.

(** X8: raising the word budget changes nothing but failures of the word
    budget.  A run that ends, under a budget, in success or with an error
    other than [ErrWordLimitExceeded] ends in the same way under every
    larger budget, with the same steps in the same order and hence the same
    compiled output. *)
Theorem larger_budget_gives_the_same_run (w : World) (fuel : nat)
    (promptFile outputFile : string) (maxWords B : Z) (delimiterStyle : string)
    (r : Result unit) (t : list Event) :
  processPromptFile w fuel promptFile outputFile maxWords delimiterStyle
    = Some (r, t) ->
  isWordLimit r = false ->
  maxWords <= B ->
  processPromptFile w fuel promptFile outputFile B delimiterStyle
    = Some (r, t).
Proof.
  intros H Hnw Hle. apply processPromptFile_inv in H. cbv zeta in H.
  unfold processPromptFile.
  change (NewProcessingContext promptFile B delimiterStyle)
    with (set_maxWords B (NewProcessingContext promptFile maxWords delimiterStyle)).
  rewrite validate_budget.
  destruct H as [(e & c & t1 & Hv & -> & ->) | (c & t1 & Hv & H)].
  { rewrite Hv. reflexivity. }
  rewrite Hv. cbn [withBudget]. rewrite parsePromptFile_run.
  destruct H as [(e & Hp & -> & ->) | (pf & r3 & c3 & t3 & Hp & Hops & H)].
  { rewrite Hp. reflexivity. }
  rewrite Hp.
  assert (Hnw3 : isWordLimit r3 = false).
  { destruct r3 as [secs|e]; [reflexivity|]. destruct H as [-> _]. exact Hnw. }
  rewrite (processOperations_raise _ B (processOperation_raise w B fuel)
             (processOperation_maxWords w fuel) _ _ _ _ _ Hops Hnw3 Hle).
  destruct r3 as [sections|e].
  - cbv zeta in H |- *. destruct (Str.is_empty outputFile).
    + destruct H as [-> ->]. reflexivity.
    + destruct H as [-> ->]. destruct (writeFile w outputFile); reflexivity.
  - destruct H as [-> ->]. reflexivity.
Qed.

(** The flat document of five words compiles under a budget of five, and
    so it does under the default budget. *)
Lemma larger_budget_gives_the_same_run_witness :
  exists t : list Event,
    processPromptFile Fixtures.wFlat 1 "p.yml" "" 5 "xml" = Some (Ok tt, t) /\
    processPromptFile Fixtures.wFlat 1 "p.yml" "" 128000 "xml" = Some (Ok tt, t).
Proof.
  eexists. split; [vm_compute; reflexivity|].
  apply (larger_budget_gives_the_same_run Fixtures.wFlat 1 "p.yml" "" 5 128000);
    [vm_compute; reflexivity | reflexivity | lia].
Defined.

(** X9: without section headers the budget bounds the compiled output.  A
    run with the delimiter style none that succeeds under a budget that is
    not negative has written, as its last step, an output of no more words
    than the budget, provided the words charged did not overflow [int]. *)
Theorem style_none_output_within_budget (w : World) (fuel : nat)
    (promptFile outputFile : string) (budget : Z) (t : list Event) :
  processPromptFile w fuel promptFile outputFile budget "none"
    = Some (Ok tt, t) ->
  0 <= budget ->
  charged t < 2 ^ 63 ->
  exists (t0 : list Event) (output : string),
    t = t0 ++ [if Str.is_empty outputFile then EvStdout output
               else EvWriteFile outputFile output] /\
    Forall (fun e => isOutput e = false) t0 /\
    countWords output <= budget.
Proof.
  intros H Hm Hov.
  apply processPromptFile_inv in H. cbv zeta in H.
  destruct H as [(e & c & t1 & Hv & [=] & _) | (c & t1 & Hv & H)].
  pose proof (validate_frame _ _ _ _ _ _ _ Hv) as [_ Ht1].
  pose proof (validate_no_output _ _ _ _ _ _ _ Hv) as Hq1.
  destruct H as [(e & Hp & [=] & _) | (pf & r3 & c3 & t3 & Hp & Hops & H)].
  pose proof (processOperations_inv w _ (processOperation_inv w fuel)
                _ _ _ _ _ Hops) as [(Hq3 & _ & _ & Hwc & Hnn) Hok].
  pose proof (processOperations_budgetInv _ (processOperation_budgetInv w fuel)
                _ _ _ _ _ Hops) as (_ & Hr & Hb).
  cbn [wordCount maxWords NewProcessingContext] in Hwc, Hr, Hb.
  destruct r3 as [sections|e]; [|destruct H as [[=] _]].
  destruct (Hok sections eq_refl) as (_ & _ & Hsw).
  pose proof (compileOutput_words_none sections) as Hcw.
  assert (Ht : forall ev, charged [ev] = 0 ->
            charged (t1 ++ [EvReadPromptFile promptFile] ++ t3 ++ [ev])
            = charged t3)
    by (intros ev Hev; apply charged_run; assumption).
  assert (Hbound : charged t3 < 2 ^ 63 ->
            countWords (compileOutput (mkCompiledContent sections) "none")
            <= budget).
  { intros Hlt.
    assert (Hc3 : wordCount c3 = charged t3).
    { rewrite <- (wrap64_small (wordCount c3))
        by (apply Hr; unfold int64; lia).
      rewrite Hwc. apply wrap64_small. lia. }
    specialize (Hb Hm). lia. }
  assert (Hq : Forall (fun e => isOutput e = false)
                 (t1 ++ [EvReadPromptFile promptFile] ++ t3)).
  { apply Forall_app. split; [exact Hq1|].
    apply Forall_app. split; [repeat constructor | exact Hq3]. }
  cbv zeta in H.
  exists (t1 ++ [EvReadPromptFile promptFile] ++ t3),
         (compileOutput (mkCompiledContent sections) "none").
  destruct (Str.is_empty outputFile).
  - destruct H as [_ ->]. rewrite Ht in Hov by reflexivity.
    split; [now rewrite <- !app_assoc|]. split; [exact Hq | auto].
  - destruct H as [_ ->]. rewrite Ht in Hov by reflexivity.
    split; [now rewrite <- !app_assoc|]. split; [exact Hq | auto].
Qed.

Lemma style_none_output_within_budget_witness :
  exists (t0 : list Event) (output : string),
    [EvReadPromptFile "/work/p.yml"; EvReadPromptFile "/work/p.yml";
     EvAddWords 2;
     EvStat "/work/hello.txt"; EvProbe "/work/hello.txt";
     EvReadFile "/work/hello.txt"; EvAddWords 1; EvExec "echo a b";
     EvAddWords 2;
     EvStdout ("a bHelloa b" +:+ Str.nl)]
    = t0 ++ [EvStdout output] /\
    Forall (fun e => isOutput e = false) t0 /\
    countWords output <= 5.
Proof.
  apply (style_none_output_within_budget Fixtures.wFlat 1 "/work/p.yml" "" 5);
    [vm_compute; reflexivity | lia | vm_compute; reflexivity].
Defined.

(* --------------------------------------------------------------------- *)
(** ** types.go: the set of visited files *)
(* --------------------------------------------------------------------- *)

(** X10: marking and looking up visited files.  After [MarkVisited] of a
    path, [IsVisited] answers [true] for every spelling of a path with the
    same absolute form, and for any other path what it answered before;
    [getVisitedPaths] lists the absolute form, lists no path twice, and
    lists exactly the keys of the map. *)
Theorem MarkVisited_then_IsVisited (w : World) (path : string)
    (ctx : ProcessingContext) :
  exists ctx' : ProcessingContext,
    MarkVisited w path ctx = Some (Ok tt, ctx', []) /\
    (forall q : string,
       IsVisited w ctx' q
       = if decide (Abs w q = Abs w path) then true else IsVisited w ctx q) /\
    In (Abs w path) (getVisitedPaths ctx') /\
    NoDup (getVisitedPaths ctx') /\
    (forall k : string,
       In k (getVisitedPaths ctx') <-> k = Abs w path \/ In k (getVisitedPaths ctx)).
Proof.
  eexists. split; [reflexivity|].
  assert (Hin : forall (m : gmap string bool) (k : string),
            In k (map_to_list m).*1 <-> is_Some (m !! k)).
  { intros m k. rewrite <- list_elem_of_In, list_elem_of_fmap. split.
    - intros ([k' v] & -> & Hkv). apply elem_of_map_to_list in Hkv.
      cbn. eauto.
    - intros [v Hv]. exists (k, v). split; [reflexivity|].
      apply elem_of_map_to_list. exact Hv. }
  unfold getVisitedPaths, IsVisited.
  cbn [visitedFiles set_visitedFiles].
  split; [|split; [|split]].
  - intros q. destruct (decide (Abs w q = Abs w path)) as [->|Hne].
    + now rewrite lookup_insert_eq.
    + now rewrite lookup_insert_ne by congruence.
  - apply Hin. rewrite lookup_insert_eq. eauto.
  - apply NoDup_fst_map_to_list.
  - intros k. rewrite !Hin. destruct (decide (k = Abs w path)) as [->|Hne].
    + rewrite lookup_insert_eq. split; eauto.
    + rewrite lookup_insert_ne by congruence. split; [auto|].
      intros [?|?]; [contradiction | assumption].
Qed.

(* --------------------------------------------------------------------- *)
(** ** parser.go: what the validation walk touches *)
(* --------------------------------------------------------------------- *)

(** X11: the validation walk is read-only.  Whatever its outcome, every
    step it has taken is the reading of a prompt document: it runs no
    command, touches no file of a [file] operation, charges no word and
    writes nothing; in the context it changes nothing but the set of
    visited files, and when it succeeds (under an absolute working
    directory) it has put that set back as well. *)
Theorem validation_only_reads_prompt_documents (w : World) (fuel : nat)
    (filePath : string) (ctx : ProcessingContext) (r : Result unit)
    (ctx' : ProcessingContext) (t : list Event) :
  validatePromptFileStructure w fuel filePath ctx = Some (r, ctx', t) ->
  Forall (fun e => exists p, e = EvReadPromptFile p) t /\
  charged t = 0 /\
  ctx' = set_visitedFiles (visitedFiles ctx') ctx /\
  (filepath.IsAbs (cwd w) = true -> onlyTrue (visitedFiles ctx) ->
   r = Ok tt -> ctx' = ctx).
Proof.
  intros H. pose proof (validate_frame _ _ _ _ _ _ _ H) as [Hc Ht].
  split; [|split; [|split]].
  - eapply List.Forall_impl; [|exact Ht].
    intros e He. destruct e; try discriminate. eauto.
  - apply charged_read_only. exact Ht.
  - exact Hc.
  - intros Hcwd Hot ->. eapply validate_ok_restores; eassumption.
Qed.

(** The walk over a.yml and b.yml, which name each other, ends with the
    circular reference after two readings. *)
Lemma validation_only_reads_prompt_documents_witness :
  Forall (fun e => exists p, e = EvReadPromptFile p)
    [EvReadPromptFile "a.yml"; EvReadPromptFile "b.yml"] /\
  charged [EvReadPromptFile "a.yml"; EvReadPromptFile "b.yml"] = 0.
Proof.
  pose proof (validation_only_reads_prompt_documents Fixtures.wCycle 3 "a.yml"
                (NewProcessingContext "a.yml" 10 "xml")
                (Err (ErrCircularReference "a.yml"
                        ["/work/a.yml"; "/work/b.yml"]))
                (NewProcessingContext "a.yml" 10 "xml")
                [EvReadPromptFile "a.yml"; EvReadPromptFile "b.yml"])
    as H.
  refine (let H' := H _ in conj (proj1 H') (proj1 (proj2 H'))).
  vm_compute. reflexivity.
Defined.

(* --------------------------------------------------------------------- *)
(** ** processor.go: what a successful operation leaves behind *)
(* --------------------------------------------------------------------- *)

Lemma Join_absolute (base p : string) :
  filepath.IsAbs base = true ->
  filepath.IsAbs (filepath.Join base p) = true /\
  filepath.Clean (filepath.Join base p) = filepath.Join base p.
Proof.
  intros Hb. destruct (IsAbs_inv base Hb) as [r ->].
  unfold filepath.Join. cbn [Str.is_empty negb].
  apply Clean_rooted_idem.
  change (String Str.slash r +:+ "/" +:+ p)
    with (String Str.slash (r +:+ "/" +:+ p)).
  apply IsAbs_slash.
Qed.

Lemma Dir_absolute (p : string) :
  filepath.IsAbs p = true -> filepath.IsAbs (filepath.Dir p) = true.
Proof.
  intros Hp. destruct (IsAbs_inv p Hp) as [r ->].
  unfold filepath.Dir. apply Clean_rooted_idem.
  cbn [filepath.dirPrefix]. destruct (filepath.dirPrefix r).
  - rewrite Ascii.eqb_refl. reflexivity.
  - apply IsAbs_slash.
Qed.

(** Under an absolute base directory a stable reference resolves to an
    absolute path that [filepath.Abs] leaves as it is. *)
Lemma ResolvePath_stable (w : World) ctx (v : string) :
  filepath.IsAbs (basePath ctx) = true -> stableRef v ->
  filepath.IsAbs (ResolvePath ctx v) = true /\
  Abs w (ResolvePath ctx v) = ResolvePath ctx v.
Proof.
  intros Hb Hv. unfold ResolvePath, Abs, filepath.Abs.
  destruct (filepath.IsAbs v) eqn:Ha.
  - rewrite Ha. split; [reflexivity | exact (Hv Ha)].
  - destruct (Join_absolute (basePath ctx) v Hb) as [H1 H2].
    rewrite H1. split; [reflexivity | exact H2].
Qed.

Lemma charge_frame f ctx sec ctx' t :
  charge f ctx = Some (Ok sec, ctx', t) ->
  ctx' = set_wordCount (wordCount ctx') ctx.
Proof.
  destruct f as [[s|e] t0]; cbn [charge]; intros H; [|discriminate].
  injection H as _ <- _. reflexivity.
Qed.

Lemma processOperations_frame (w : World) (P : Operation -> M ContentSection) :
  forall ops,
    (forall op ctx sec ctx' t, In op ops ->
       filepath.IsAbs (basePath ctx) = true -> onlyTrue (visitedFiles ctx) ->
       P op ctx = Some (Ok sec, ctx', t) ->
       ctx' = set_wordCount (wordCount ctx') ctx) ->
    forall ctx secs ctx' t,
      filepath.IsAbs (basePath ctx) = true -> onlyTrue (visitedFiles ctx) ->
      processOperations P ops ctx = Some (Ok secs, ctx', t) ->
      ctx' = set_wordCount (wordCount ctx') ctx.
Proof.
  induction ops as [|op ops IH]; intros HP ctx secs ctx' t Hb Hot H.
  - injection H as _ <- _. now destruct ctx.
  - cbn [processOperations] in H.
    apply bind_inv in H as [(e & _ & [=]) | (sec & c1 & t1 & t2 & H1 & H2 & ->)].
    apply bind_inv in H2 as [(e & _ & [=]) | (ss & c2 & t3 & t4 & H2 & H3 & ->)].
    injection H3 as _ <- _.
    pose proof (HP op ctx sec c1 t1 (or_introl eq_refl) Hb Hot H1) as E1.
    assert (E2 : c2 = set_wordCount (wordCount c2) c1).
    { apply (IH (fun op' c s c' t' Hin => HP op' c s c' t' (or_intror Hin))
               c1 ss c2 t3); [| |exact H2]; rewrite E1; assumption. }
    rewrite E2, E1. reflexivity.
Qed.

Lemma processOperation_frame (w : World) (fuel : nat) :
  StableRefs w ->
  forall op ctx sec ctx' t,
    (isPromptRef op = true -> stableRef (GetValue op)) ->
    filepath.IsAbs (basePath ctx) = true -> onlyTrue (visitedFiles ctx) ->
    processOperation w fuel op ctx = Some (Ok sec, ctx', t) ->
    ctx' = set_wordCount (wordCount ctx') ctx.
Proof.
  intros Hw. induction fuel as [|fuel IH]; intros op ctx sec ctx' t Hs Hb Hot H.
  - destruct (isPromptRef op) eqn:Hp.
    + rewrite processOperation_prompt_0 in H by exact Hp. discriminate.
    + rewrite processOperation_flat in H by exact Hp.
      eapply charge_frame; exact H.
  - destruct (isPromptRef op) eqn:Hp.
    2:{ rewrite processOperation_flat in H by exact Hp.
        eapply charge_frame; exact H. }
    rewrite processOperation_prompt in H by exact Hp.
    rewrite processPromptOperation_run in H. cbv zeta in H.
    destruct (ResolvePath_stable w ctx (GetValue op) Hb (Hs eq_refl))
      as [Habs Hfix].
    destruct (IsVisited w ctx (ResolvePath ctx (GetValue op))) eqn:Hvis;
      [discriminate|].
    apply (IsVisited_false_None w ctx _ Hot) in Hvis.
    rewrite Hfix in Hvis, H.
    destruct (parsePromptFileResult w (ResolvePath ctx (GetValue op)))
      as [pf|e] eqn:Hpf; [|discriminate].
    match type of H with
    | context [processOperations ?P ?ops ?c1] =>
        destruct (processOperations P ops c1) as [[[r2 c2] t2]|] eqn:Hops;
        [|discriminate];
        assert (E2 : forall secs, r2 = Ok secs ->
                  c2 = set_wordCount (wordCount c2) c1)
    end.
    { intros secs ->.
      eapply (processOperations_frame w _ (rangePrompt pf)); [| | |exact Hops].
      - intros op' c s c' t' Hin Hb' Hot' H'.
        eapply IH; [|exact Hb'|exact Hot'|exact H'].
        intros Hp'. exact (Hw _ pf op' Hpf Hin Hp').
      - cbn [basePath set_visitedFiles set_basePath].
        apply Dir_absolute. exact Habs.
      - cbn [visitedFiles set_visitedFiles]. apply onlyTrue_insert. exact Hot. }
    destruct r2 as [secs|e]; [|discriminate].
    specialize (E2 secs eq_refl).
    match type of H with
    | Some (fst (afterCharge ?c3 ?s), _, _) = _ =>
        assert (E3 : c3 = set_wordCount (wordCount c2) ctx)
    end.
    { rewrite E2. unfold set_basePath, set_visitedFiles, set_wordCount.
      cbn [basePath visitedFiles maxWords wordCount delimiterStyle].
      rewrite delete_insert_eq, delete_id by exact Hvis.
      reflexivity. }
    rewrite E3 in H.
    match type of H with
    | Some (fst (afterCharge ?c3 ?s), _, _) = _ =>
        destruct (afterCharge c3 s) as [r3 c4] eqn:Hac
    end.
    cbn [fst snd] in H. injection H as _ <- _.
    unfold afterCharge in Hac. injection Hac as _ <-. reflexivity.
Qed.

(** X12: a successful operation changes nothing in the context but the
    running total of words.  Under an absolute base directory, when the
    references to nested documents are relative paths or absolute paths in
    clean form, an operation that succeeds -- however deep the documents it
    includes are nested -- leaves the base directory, the set of visited
    files, the budget and the delimiter style exactly as they were: a
    document may be included again later in the same run. *)
Theorem successful_operation_restores_context (w : World) (fuel : nat)
    (op : Operation) (ctx : ProcessingContext) (sec : ContentSection)
    (ctx' : ProcessingContext) (t : list Event) :
  StableRefs w ->
  (isPromptRef op = true -> stableRef (GetValue op)) ->
  filepath.IsAbs (basePath ctx) = true ->
  onlyTrue (visitedFiles ctx) ->
  processOperation w fuel op ctx = Some (Ok sec, ctx', t) ->
  basePath ctx' = basePath ctx /\
  visitedFiles ctx' = visitedFiles ctx /\
  maxWords ctx' = maxWords ctx /\
  delimiterStyle ctx' = delimiterStyle ctx /\
  ctx' = set_wordCount (wordCount ctx') ctx.
Proof.
  intros Hw Hs Hb Hot H.
  pose proof (processOperation_frame w fuel Hw op ctx sec ctx' t Hs Hb Hot H)
    as E.
  rewrite E. cbn [basePath visitedFiles maxWords delimiterStyle wordCount
                  set_wordCount].
  repeat split.
Qed.

Lemma StableRefs_wTwice : StableRefs Fixtures.wTwice.
Proof.
  intros p pf op Hp Hin Href _.
  unfold parsePromptFileResult, os_ReadFile in Hp.
  cbn [fs Fixtures.wTwice Fixtures.world Fixtures.assoc] in Hp.
  destruct (String.eqb (Abs Fixtures.wTwice p) "/work/m.yml").
  - cbv in Hp. injection Hp as <-. cbv in Hin.
    destruct Hin as [<- | [<- | [<- | []]]];
      [reflexivity | discriminate | reflexivity].
  - destruct (String.eqb (Abs Fixtures.wTwice p) "/work/l.yml");
      [|discriminate].
    cbv in Hp. injection Hp as <-. cbv in Hin.
    destruct Hin as [<- | []]. discriminate.
Qed.

(** The leaf l.yml is included under the root /work/m.yml: afterwards the
    set of visited files is empty again. *)
Lemma successful_operation_restores_context_witness :
  exists (sec : ContentSection) (ctx' : ProcessingContext) (t : list Event),
    processOperation Fixtures.wTwice 1 (Fixtures.opPrompt "l.yml")
      (NewProcessingContext "/work/m.yml" 100 "xml")
    = Some (Ok sec, ctx', t) /\
    basePath ctx' = "/work" /\
    visitedFiles ctx' = ∅.
Proof.
  do 3 eexists. split; [vm_compute; reflexivity|].
  refine (let H := successful_operation_restores_context Fixtures.wTwice 1
                     (Fixtures.opPrompt "l.yml")
                     (NewProcessingContext "/work/m.yml" 100 "xml")
                     _ _ _ StableRefs_wTwice _ _ _ _ in
          conj (proj1 H) (proj1 (proj2 H))).
  - intros _ Ha. discriminate Ha.
  - vm_compute. reflexivity.
  - apply onlyTrue_empty.
  - vm_compute. reflexivity.
Defined.

(* --------------------------------------------------------------------- *)
(** ** main.go: exit status and output streams *)
(* --------------------------------------------------------------------- *)

Lemma run_outputs (w : World) (fuel : nat) (promptFile outputFile : string)
    (maxWords : Z) (style : string) (r : Result unit) (t : list Event) :
  processPromptFile w fuel promptFile outputFile maxWords style = Some (r, t) ->
  match r with
  | Err _ => Forall (fun e => isStdout (MsEngine e) = false) t
  | Ok _ =>
      exists t0 output,
        t = t0 ++ [if Str.is_empty outputFile then EvStdout output
                   else EvWriteFile outputFile output] /\
        Forall (fun e => isOutput e = false) t0
  end.
Proof.
  intros H. apply processPromptFile_inv in H. cbv zeta in H.
  assert (Hq : forall l, Forall (fun e => isOutput e = false) l ->
                 Forall (fun e => isStdout (MsEngine e) = false) l).
  { intros l Hl. eapply List.Forall_impl; [|exact Hl].
    intros e He. destruct e; try reflexivity. discriminate. }
  destruct H as [(e & c & t1 & Hv & -> & ->) | (c & t1 & Hv & H)].
  { apply Hq. eapply validate_no_output. exact Hv. }
  pose proof (validate_no_output _ _ _ _ _ _ _ Hv) as Hq1.
  assert (Hq2 : Forall (fun e => isOutput e = false)
                  (t1 ++ [EvReadPromptFile promptFile])).
  { apply Forall_app. split; [exact Hq1 | repeat constructor]. }
  destruct H as [(e & Hp & -> & ->) | (pf & r3 & c3 & t3 & Hp & Hops & H)].
  { apply Hq. exact Hq2. }
  pose proof (processOperations_no_output _ _ _ _ _ _ _ Hops) as Hq3.
  assert (Hq4 : Forall (fun e => isOutput e = false)
                  (t1 ++ [EvReadPromptFile promptFile] ++ t3)).
  { rewrite app_assoc. apply Forall_app. split; assumption. }
  destruct r3 as [sections|e].
  - cbv zeta in H. destruct (Str.is_empty outputFile).
    + destruct H as [-> ->].
      exists (t1 ++ [EvReadPromptFile promptFile] ++ t3). eexists.
      split; [now rewrite <- !app_assoc | exact Hq4].
    + destruct H as [-> ->]. destruct (writeFile w outputFile).
      * rewrite !app_assoc. apply Forall_app. split.
        -- rewrite <- app_assoc. apply Hq. exact Hq4.
        -- repeat constructor.
      * exists (t1 ++ [EvReadPromptFile promptFile] ++ t3). eexists.
        split; [now rewrite <- !app_assoc | exact Hq4].
  - destruct H as [-> ->]. apply Hq. exact Hq4.
Qed.

(** X13: the exit status of [main] and what it writes where.  The exit
    status is 0 or 1.  With status 1 nothing has been written to the
    standard output, and a message that starts with "Error: " has been
    written to the standard error stream.  With status 0 either help was
    asked for and only the usage text was shown, or the engine ran to its
    end and its only output step is the last step: the compiled document
    written to the standard output, or to the output file when one was
    named. *)
Theorem main_exit_status_and_streams (w : World) (fuel : nat) (flags : Flags)
    (code : Z) (steps : list MainStep) :
  main w fuel flags = Some (code, steps) ->
  match code with
  | 0 =>
      (help flags || helpLong flags = true /\ steps = [MsUsage]) \/
      (exists (t0 : list Event) (output : string),
         steps = map MsEngine t0 ++
                 [MsEngine (if Str.is_empty (outputFile flags)
                            then EvStdout output
                            else EvWriteFile (outputFile flags) output)] /\
         Forall (fun e => isOutput e = false) t0)
  | 1 =>
      Forall (fun s => isStdout s = false) steps /\
      exists msg : string, In (MsStderr ("Error: " +:+ msg)) steps
  | _ => False
  end.
Proof.
  unfold main. destruct (help flags || helpLong flags) eqn:Hh.
  { intros [= <- <-]. left. auto. }
  destruct (Str.is_empty (promptFile flags)).
  { intros [= <- <-]. split; [repeat constructor|].
    exists ("-f flag is required" +:+ Str.nl). left. reflexivity. }
  destruct (negb (default false (validStyles !! delimiterStyleFlag flags))).
  { intros [= <- <-]. split; [repeat constructor|].
    eexists. left. reflexivity. }
  destruct (processPromptFile w fuel (promptFile flags) (outputFile flags)
              (maxWordsFlag flags) (delimiterStyleFlag flags))
    as [[r t]|] eqn:Hrun; [|discriminate].
  apply run_outputs in Hrun.
  destruct r as [[]|e]; intros [= <- <-].
  - right. destruct Hrun as (t0 & output & -> & Hq).
    exists t0, output. split; [|exact Hq].
    rewrite map_app. reflexivity.
  - split.
    + apply Forall_app. split; [|repeat constructor].
      apply Forall_map. exact Hrun.
    + exists (errorString e +:+ Str.nl). apply in_or_app. right. left.
      reflexivity.
Qed.

(** The command of the document exits with status 2: [main] exits with
    status 1 after an error message, and has written nothing to the
    standard output. *)
Lemma main_exit_status_and_streams_witness :
  Forall (fun s => isStdout s = false)
    [MsEngine (EvReadPromptFile "p.yml");
     MsEngine (EvReadPromptFile "p.yml");
     MsEngine (EvAddWords 1); MsEngine (EvExec "false2");
     MsStderr ("Error: command execution failed: false2 (exit status 2)"
               +:+ Str.nl)] /\
  exists msg : string,
    In (MsStderr ("Error: " +:+ msg))
      [MsEngine (EvReadPromptFile "p.yml");
       MsEngine (EvReadPromptFile "p.yml");
       MsEngine (EvAddWords 1); MsEngine (EvExec "false2");
       MsStderr ("Error: command execution failed: false2 (exit status 2)"
                 +:+ Str.nl)].
Proof.
  apply (main_exit_status_and_streams Fixtures.wFail 1
           (mkFlags "p.yml" "" 128000 "xml" false false) 1).
  vm_compute. reflexivity.
Defined.

(* --------------------------------------------------------------------- *)
(** ** processor.go: [processFileOperation] *)
(* --------------------------------------------------------------------- *)

(** X14: a [file] operation succeeds exactly when the resolved path names
    a readable file without a zero byte among its first 512 bytes and the
    words of the file fit into what is left of the budget.  The section
    then holds the bytes of the file unchanged, under the path as the
    document spells it, and the steps were: stat, probe, read, charge. *)
Theorem processFileOperation_succeeds_iff (w : World) (filePath : string)
    (ctx : ProcessingContext) (sec : ContentSection)
    (ctx' : ProcessingContext) (t : list Event) :
  let p := ResolvePath ctx filePath in
  processFileOperation w filePath ctx = Some (Ok sec, ctx', t) <->
  exists data : string,
    os_ReadFile w p = Some data /\
    Str.existsb isZeroByte (Str.take 512 data) = false /\
    wrap64 (wordCount ctx + countWords data) <= maxWords ctx /\
    sec = mkContentSection filePath data FileOp /\
    ctx' = set_wordCount (wrap64 (wordCount ctx + countWords data)) ctx /\
    t = [EvStat p; EvProbe p; EvReadFile p; EvAddWords (countWords data)].
Proof.
  cbv zeta. unfold processFileOperation.
  rewrite bind_get, bind_emit.
  unfold os_NotExist, os_ReadFile.
  destruct (fs w (Abs w (ResolvePath ctx filePath))) as [[data|]|] eqn:Hfs.
  - erewrite bind_ok by apply isBinaryFile_run.
    unfold os_ReadFile. rewrite Hfs.
    destruct (Str.existsb isZeroByte (Str.take 512 data)) eqn:Hz.
    + split; [discriminate|].
      intros (d & [= <-] & Hd & _). congruence.
    + rewrite bind_emit. unfold bind at 1. rewrite AddWords_run. cbv zeta.
      destruct (maxWords ctx <? wrap64 (wordCount ctx + countWords data))
        eqn:Hlt.
      * apply Z.ltb_lt in Hlt. split; [discriminate|].
        intros (d & [= <-] & _ & Hle & _). lia.
      * apply Z.ltb_ge in Hlt. cbn [ret app]. split.
        -- intros [= <- <- <-]. exists data. repeat split; assumption.
        -- intros (d & [= <-] & _ & _ & -> & -> & ->). reflexivity.
  - erewrite bind_ok by apply isBinaryFile_run.
    unfold os_ReadFile. rewrite Hfs. rewrite bind_emit.
    split; [discriminate|]. intros (d & [=] & _).
  - split; [discriminate|]. intros (d & [=] & _).
Qed.

(* --------------------------------------------------------------------- *)
(** ** Malformed operations never reach the executor *)
(* --------------------------------------------------------------------- *)

Lemma validateOperations_wellFormed (ops : list Operation) : forall i,
  validateOperations i ops = Ok tt -> Forall wellFormed ops.
Proof.
  induction ops as [|op ops IH]; intros i H; [constructor|].
  cbn [validateOperations] in H.
  destruct (GetType op) as [ty|e] eqn:Ht; [|discriminate].
  constructor; [exists ty; exact Ht | eapply IH; exact H].
Qed.

Lemma parsePromptFileResult_wellFormed (w : World) (p : string) (pf : PromptFile) :
  parsePromptFileResult w p = Ok pf -> Forall wellFormed (rangePrompt pf).
Proof.
  unfold parsePromptFileResult.
  destruct (os_ReadFile w p); [|discriminate].
  destruct (yamlUnmarshal w s) as [e|pf']; [discriminate|].
  destruct (validatePromptFile pf') as [[]|e] eqn:Hv; [|discriminate].
  intros [= <-]. unfold validatePromptFile in Hv. unfold rangePrompt.
  destruct (PromptList pf') as [ops|]; [|discriminate].
  eapply validateOperations_wellFormed. exact Hv.
Qed.

Lemma parsePromptFileResult_not_bare (w : World) (p : string) (e : Error) :
  parsePromptFileResult w p = Err e -> isBareOperationError e = false.
Proof.
  unfold parsePromptFileResult.
  destruct (os_ReadFile w p); [|intros [= <-]; reflexivity].
  destruct (yamlUnmarshal w s); [intros [= <-]; reflexivity|].
  destruct (validatePromptFile p0); [discriminate|intros [= <-]; reflexivity].
Qed.

Lemma fetch_not_bare (w : World) (base : string) (op : Operation) (e : Error) :
  wellFormed op -> isPromptRef op = false ->
  fst (fetch w base op) = Err e -> isBareOperationError e = false.
Proof.
  intros [ty Ht] Hp. unfold isPromptRef in Hp. unfold fetch.
  rewrite Ht in Hp |- *. destruct ty; cbn [fst]; try discriminate.
  - destruct (os_NotExist w _); [intros [= <-]; reflexivity|].
    destruct (os_ReadFile w _); [|intros [= <-]; reflexivity].
    destruct (Str.existsb _ _); [intros [= <-]; reflexivity|discriminate].
  - destruct (cmdErr _); [|discriminate].
    destruct (cmdProcessState _) as [z|]; [|intros [= <-]; reflexivity].
    destruct z as [|q|q]; try (intros [= <-]; reflexivity).
    destruct q; intros [= <-]; reflexivity.
Qed.

Lemma charge_not_bare f ctx e ctx' t :
  (forall e', fst f = Err e' -> isBareOperationError e' = false) ->
  charge f ctx = Some (Err e, ctx', t) -> isBareOperationError e = false.
Proof.
  destruct f as [[sec|e0] t0]; cbn [fst charge]; intros Hf H.
  - injection H as H _ _. unfold afterCharge in H. cbn [fst] in H.
    destruct (_ <? _); [injection H as <-; reflexivity | discriminate].
  - injection H as <- _ _. apply Hf. reflexivity.
Qed.

Lemma processOperations_not_bare (P : Operation -> M ContentSection) :
  forall ops,
    (forall op ctx e ctx' t, In op ops ->
       P op ctx = Some (Err e, ctx', t) -> isBareOperationError e = false) ->
    forall ctx e ctx' t,
      processOperations P ops ctx = Some (Err e, ctx', t) ->
      isBareOperationError e = false.
Proof.
  induction ops as [|op ops IH]; intros HP ctx e ctx' t H; [discriminate|].
  cbn [processOperations] in H.
  apply bind_inv in H as [(e0 & H & [= <-]) | (sec & c1 & t1 & t2 & H1 & H2 & ->)].
  - eapply HP; [left; reflexivity | exact H].
  - apply bind_inv in H2
      as [(e0 & H2 & [= <-]) | (ss & c2 & t3 & t4 & _ & [=] & _)].
    eapply IH; [|exact H2].
    intros op' c e' c' t' Hin. apply HP. right. exact Hin.
Qed.

Lemma processOperation_not_bare (w : World) (fuel : nat) :
  forall op ctx e ctx' t,
    wellFormed op ->
    processOperation w fuel op ctx = Some (Err e, ctx', t) ->
    isBareOperationError e = false.
Proof.
  induction fuel as [|fuel IH]; intros op ctx e ctx' t Hwf H.
  - destruct (isPromptRef op) eqn:Hp.
    + rewrite processOperation_prompt_0 in H by exact Hp. discriminate.
    + rewrite processOperation_flat in H by exact Hp.
      eapply charge_not_bare; [|exact H].
      intros e'. apply fetch_not_bare; assumption.
  - destruct (isPromptRef op) eqn:Hp.
    2:{ rewrite processOperation_flat in H by exact Hp.
        eapply charge_not_bare; [|exact H].
        intros e'. apply fetch_not_bare; assumption. }
    rewrite processOperation_prompt in H by exact Hp.
    rewrite processPromptOperation_run in H. cbv zeta in H.
    destruct (IsVisited w ctx (ResolvePath ctx (GetValue op))).
    { injection H as <- _ _. reflexivity. }
    destruct (parsePromptFileResult w (ResolvePath ctx (GetValue op)))
      as [pf|e0] eqn:Hpf.
    2:{ injection H as <- _ _. eapply parsePromptFileResult_not_bare.
        exact Hpf. }
    pose proof (parsePromptFileResult_wellFormed w _ pf Hpf) as Hops.
    match type of H with
    | context [processOperations ?P ?ops ?c1] =>
        destruct (processOperations P ops c1) as [[[r2 c2] t2]|] eqn:Hrun;
        [|discriminate]
    end.
    destruct r2 as [secs|e0].
    + injection H as H _ _. unfold afterCharge in H. cbn [fst] in H.
      destruct (_ <? _); [injection H as <-; reflexivity | discriminate].
    + injection H as <- _ _.
      eapply processOperations_not_bare; [|exact Hrun].
      intros op' c e' c' t' Hin. apply IH.
      rewrite List.Forall_forall in Hops. apply Hops. exact Hin.
Qed.

Lemma validateNested_not_bare (w : World) (fuel : nat) :
  (forall p ctx e ctx' t,
     validatePromptFileStructure w fuel p ctx = Some (Err e, ctx', t) ->
     isBareOperationError e = false) ->
  forall ops ctx e ctx' t,
    validateNested (validatePromptFileStructure w fuel) ops ctx
      = Some (Err e, ctx', t) ->
    isBareOperationError e = false.
Proof.
  intros IH. induction ops as [|op ops IHops]; intros ctx e ctx' t H;
    [discriminate|].
  cbn [validateNested] in H.
  destruct (GetType op) as [[]|e0]; try (eapply IHops; exact H).
  rewrite bind_get in H.
  apply bind_inv in H as [(e0 & H & [= <-]) | (u & c1 & t1 & t2 & H1 & H2 & ->)].
  - eapply IH. exact H.
  - eapply IHops. exact H2.
Qed.

Lemma validate_not_bare (w : World) (fuel : nat) :
  forall p ctx e ctx' t,
    validatePromptFileStructure w fuel p ctx = Some (Err e, ctx', t) ->
    isBareOperationError e = false.
Proof.
  induction fuel as [|fuel IH]; intros p ctx e ctx' t H; [discriminate|].
  rewrite validate_S in H. cbv zeta in H.
  destruct (IsVisited w ctx (Abs w p)).
  { injection H as <- _ _. reflexivity. }
  destruct (parsePromptFileResult w p) as [pf|e0] eqn:Hpf.
  2:{ injection H as <- _ _. eapply parsePromptFileResult_not_bare. exact Hpf. }
  match type of H with
  | context [validateNested ?v ?ops ?c1] =>
      destruct (validateNested v ops c1) as [[[r2 c2] t2]|] eqn:Hn;
      [|discriminate]
  end.
  injection H as -> _ _.
  eapply validateNested_not_bare; [exact IH | exact Hn].
Qed.

(** X15: malformed operations never reach the executor.  Every document is
    checked when it is parsed, so no run ends with the bare error of
    [GetType] (no field, or more than one) or with the error of the default
    branch of [processOperation] (unknown operation type): an operation
    without exactly one field is always reported as a validation failure
    of its document, with its index. *)
Theorem run_never_fails_with_bare_operation_error (w : World) (fuel : nat)
    (promptFile outputFile : string) (maxWords : Z) (delimiterStyle : string)
    (e : Error) (t : list Event) :
  processPromptFile w fuel promptFile outputFile maxWords delimiterStyle
    = Some (Err e, t) ->
  isBareOperationError e = false.
Proof.
  intros H. apply processPromptFile_inv in H. cbv zeta in H.
  destruct H as [(e0 & c & t1 & Hv & [= <-] & _) | (c & t1 & Hv & H)].
  { eapply validate_not_bare. exact Hv. }
  destruct H as [(e0 & Hp & [= <-] & _) | (pf & r3 & c3 & t3 & Hp & Hops & H)].
  { eapply parsePromptFileResult_not_bare. exact Hp. }
  pose proof (parsePromptFileResult_wellFormed w _ pf Hp) as Hwf.
  destruct r3 as [sections|e0].
  - cbv zeta in H. destruct (Str.is_empty outputFile).
    + destruct H as [[=] _].
    + destruct H as [H _]. destruct (writeFile w outputFile);
        [injection H as ->; reflexivity | discriminate].
  - destruct H as [[= <-] _].
    eapply processOperations_not_bare; [|exact Hops].
    intros op' c' e' c'' t' Hin. apply processOperation_not_bare.
    rewrite List.Forall_forall in Hwf. apply Hwf. exact Hin.
Qed.

(** The operation with two fields is reported as a validation failure of
    its document, at index 0. *)
Lemma run_never_fails_with_bare_operation_error_witness :
  exists t : list Event,
    processPromptFile Samples.wMalformed 1 "p.yml" "" 100 "xml"
    = Some (Err (ErrValidationFailed "p.yml"
                   (ErrOperationIndex 0 ErrOperationMultiple)), t) /\
    isBareOperationError
      (ErrValidationFailed "p.yml" (ErrOperationIndex 0 ErrOperationMultiple))
    = false.
Proof.
  eexists. split; [vm_compute; reflexivity|].
  eapply (run_never_fails_with_bare_operation_error Samples.wMalformed 1
            "p.yml" "" 100 "xml").
  vm_compute. reflexivity.
Defined.

(* --------------------------------------------------------------------- *)
(** ** main.go: the flags *)
(* --------------------------------------------------------------------- *)

Lemma validStyles_documented (style : string) :
  default false (validStyles !! style) = true <-> In style documentedStyles.
Proof.
  unfold validStyles, documentedStyles. cbn [In].
  destruct (decide (style = "xml")) as [->|H1];
    [rewrite lookup_insert_eq; cbn; tauto|].
  rewrite lookup_insert_ne by congruence.
  destruct (decide (style = "minimal")) as [->|H2];
    [rewrite lookup_insert_eq; cbn; tauto|].
  rewrite lookup_insert_ne by congruence.
  destruct (decide (style = "none")) as [->|H3];
    [rewrite lookup_insert_eq; cbn; tauto|].
  rewrite lookup_insert_ne by congruence.
  destruct (decide (style = "full")) as [->|H4];
    [rewrite lookup_insert_eq; cbn; tauto|].
  rewrite lookup_insert_ne by congruence.
  rewrite lookup_empty. cbn. split; [discriminate|].
  intros [?|[?|[?|[?|[]]]]]; congruence.
Qed.

(** X16: [main] runs the engine exactly when a prompt file is named and the
    delimiter style is one of xml, minimal, none, full.  Without help
    asked for, a missing prompt file or any other style ends the process
    with status 1 after an error message and the usage text, before any
    file is read or any command is run; with good flags the steps of
    [main] are the steps of [processPromptFile], followed by the error
    message when it fails, and the status is 0 exactly when it
    succeeds. *)
Theorem main_runs_engine_iff_flags_valid (w : World) (fuel : nat)
    (flags : Flags) :
  help flags || helpLong flags = false ->
  (promptFile flags = "" \/ ~ In (delimiterStyleFlag flags) documentedStyles ->
   exists msg : string, main w fuel flags = Some (1, [MsStderr msg; MsUsage])) /\
  (promptFile flags <> "" -> In (delimiterStyleFlag flags) documentedStyles ->
   main w fuel flags
   = match processPromptFile w fuel (promptFile flags) (outputFile flags)
             (maxWordsFlag flags) (delimiterStyleFlag flags) with
     | None => None
     | Some (Ok _, t) => Some (0, map MsEngine t)
     | Some (Err e, t) =>
         Some (1, map MsEngine t ++
                  [MsStderr ("Error: " +:+ errorString e +:+ Str.nl)])
     end).
Proof.
  intros Hh. unfold main. rewrite Hh.
  pose proof (validStyles_documented (delimiterStyleFlag flags)) as Hs.
  split.
  - intros Hbad. destruct (promptFile flags) as [|c r]; cbn [Str.is_empty].
    { eexists. reflexivity. }
    destruct Hbad as [Hbad | Hbad]; [discriminate|].
    destruct (default false (validStyles !! delimiterStyleFlag flags)).
    + elim Hbad. apply Hs. reflexivity.
    + cbn [negb]. eexists. reflexivity.
  - intros Hf Hin. destruct (promptFile flags) as [|c r]; [congruence|].
    cbn [Str.is_empty]. apply Hs in Hin. rewrite Hin. cbn [negb].
    destruct (processPromptFile w fuel (String c r) (outputFile flags)
                (maxWordsFlag flags) (delimiterStyleFlag flags))
      as [[[u|e] t]|]; reflexivity.
Qed.

(** The style yaml is refused, whatever the prompt file holds. *)
Lemma main_runs_engine_iff_flags_valid_witness :
  exists msg : string,
    main Fixtures.wFlat 1 (mkFlags "p.yml" "" 128000 "yaml" false false)
    = Some (1, [MsStderr msg; MsUsage]).
Proof.
  refine (proj1 (main_runs_engine_iff_flags_valid Fixtures.wFlat 1
                   (mkFlags "p.yml" "" 128000 "yaml" false false) eq_refl) _).
  right. cbn. intros [H|[H|[H|[H|[]]]]]; discriminate H.
Defined.

(* --------------------------------------------------------------------- *)
(** ** processor.go: commands run once, in the order of the document *)
(* --------------------------------------------------------------------- *)








